(** * UDL authenticator: credentials, password hashing, sessions, permissions

    A shallow embedding of the [UDLAuthenticator] class of the N2YO MCP
    server (the authentication module that [space-catalog.ts] imports as
    ["./auth.js"]), together with the properties of its specification.

    Conventions of the embedding:
    - a [Buffer] is a [list byte]; a JS string is a [string];
    - an ISO timestamp ([toISOString] / [new Date(str)]) is the number of
      milliseconds since the epoch, a [Z]: the two conversions are inverse
      to each other on every date the clock can produce, and the code only
      compares and adds timestamps;
    - an [async] method is a computation in the monad [M]: it threads the
      authenticator's fields, the credential file and the counters of the
      environment's oracles, and ends in a value or in a thrown exception.
      State written before a [throw] stays written, as in JavaScript;
    - the credential file is part of the state: absent, the JSON of a
      record, or text that is not JSON (what a write that fails half way
      leaves behind);
    - the system clock, the entropy source and file-system faults are
      oracles of the environment [Env]; the key-derivation function
      ([crypto.scrypt]) is a parameter of class [KDF]. *)

From Stdlib Require Import ZArith NArith Lia List.
From Stdlib.Strings Require Import Ascii String Byte.
From stdpp Require Import base decidable option list strings gmap.

Local Open Scope string_scope.
Local Open Scope Z_scope.

(** ** Buffers and their text encodings *)

#[global] Instance byte_eq_dec : EqDecision byte := fun x y =>
  match Byte.eqb x y as b return Byte.eqb x y = b -> Decision (x = y) with
  | true => fun H => left (Byte.byte_dec_bl x y H)
  | false => fun H => right (Byte.eqb_false H)
  end eq_refl.

Module Buffer.

Abbreviation t := (list byte).

(** One hexadecimal digit, lower case, as [toString('hex')] prints it. *)
Definition hex_digit (n : N) : ascii :=
  if (n <? 10)%N then ascii_of_N (48 + n) else ascii_of_N (87 + n).

(** The value of a hexadecimal digit; both cases are accepted when
    decoding. *)
Definition unhex (c : ascii) : option N :=
  let n := N_of_ascii c in
  if ((48 <=? n) && (n <=? 57))%N then Some (n - 48)%N
  else if ((65 <=? n) && (n <=? 70))%N then Some (n - 55)%N
  else if ((97 <=? n) && (n <=? 102))%N then Some (n - 87)%N
  else None.

Definition hex_of_byte (b : byte) : list ascii :=
  [hex_digit (Byte.to_N b / 16); hex_digit (Byte.to_N b mod 16)].

(** [buf.toString('hex')] *)
Definition toString_hex (buf : t) : string :=
  string_of_list_ascii (flat_map hex_of_byte buf).

(** [Buffer.from(str, 'hex')]: pairs of digits are decoded from the left;
    decoding stops, keeping what was decoded, at the first pair that is
    not two hexadecimal digits, and a trailing single character is
    dropped. It never throws. *)
Fixpoint decode_hex (cs : list ascii) : t :=
  match cs with
  | c1 :: c2 :: rest =>
      match unhex c1, unhex c2 with
      | Some hi, Some lo =>
          match Byte.of_N (16 * hi + lo) with
          | Some b => b :: decode_hex rest
          | None => []
          end
      | _, _ => []
      end
  | _ => []
  end.

Definition from_hex (str : string) : t :=
  decode_hex (list_ascii_of_string str).

(** One digit of the URL-safe base64 alphabet [A-Za-z0-9-_]. *)
Definition b64url_digit (n : N) : ascii :=
  if (n <? 26)%N then ascii_of_N (65 + n)
  else if (n <? 52)%N then ascii_of_N (71 + n)
  else if (n <? 62)%N then ascii_of_N (n - 4)
  else if (n =? 62)%N then "-"%char
  else "_"%char.

Fixpoint encode_base64url (buf : t) : list ascii :=
  match buf with
  | [] => []
  | [a] =>
      let n := (Byte.to_N a * 16)%N in
      [b64url_digit (n / 64); b64url_digit (n mod 64)]
  | [a; b] =>
      let n := ((Byte.to_N a * 256 + Byte.to_N b) * 4)%N in
      [b64url_digit (n / 4096); b64url_digit (n / 64 mod 64);
       b64url_digit (n mod 64)]
  | a :: b :: c :: rest =>
      let n := (Byte.to_N a * 65536 + Byte.to_N b * 256 + Byte.to_N c)%N in
      b64url_digit (n / 262144) :: b64url_digit (n / 4096 mod 64)
      :: b64url_digit (n / 64 mod 64) :: b64url_digit (n mod 64)
      :: encode_base64url rest
  end.

(** [buf.toString('base64url')]: no padding. *)
Definition toString_base64url (buf : t) : string :=
  string_of_list_ascii (encode_base64url buf).

(** A string of exactly [2 * n] hexadecimal digits: the well-formed
    encoding of an [n]-byte buffer. *)
Definition is_hex_of_length (n : nat) (str : string) : bool :=
  bool_decide (String.length str = (2 * n)%nat)
  && forallb (fun c => bool_decide (is_Some (unhex c)))
             (list_ascii_of_string str).

End Buffer.

(** ** Data model *)

(** [interface StoredCredentials]: the record persisted in
    [credentials.json]. *)
Record StoredCredentials := mkStoredCredentials {
  sc_username : string;
  passwordHash : string;
  salt : string;
  sc_classification : string;
  apiEndpoint : option string;
  createdAt : Z;
  lastUsed : option Z
}.

(** [interface UDLCredentials]: the argument of [storeCredentials]. *)
Record UDLCredentials := mkUDLCredentials {
  uc_username : string;
  uc_password : string;
  uc_classification : string;
  uc_apiEndpoint : option string
}.

(** [interface AuthSession] *)
Record AuthSession := mkAuthSession {
  sessionId : string;
  username : string;
  classification : string;
  accessToken : option string;
  refreshToken : option string;
  expiresAt : Z;
  permissions : list string
}.

(** [interface AuthenticationStatus] *)
Record AuthenticationStatus := mkAuthenticationStatus {
  isAuthenticated : bool;
  as_username : option string;
  as_classification : option string;
  as_sessionId : option string;
  as_expiresAt : option Z;
  as_permissions : option (list string);
  lastActivity : option Z
}.

#[global] Instance AuthSession_eq_dec : EqDecision AuthSession.
Proof. solve_decision. Defined.

#[global] Instance StoredCredentials_eq_dec : EqDecision StoredCredentials.
Proof. solve_decision. Defined.

(** The text of [credentials.json]: the JSON of a record, as
    [JSON.stringify] writes it and [JSON.parse] reads it back, or text that
    is not JSON, on which [JSON.parse] throws a [SyntaxError] with the
    given message. The code itself leaves such text behind when a write
    fails half way: [fs.writeFile] opens the file with its default flag
    ['w'], which truncates it, before it writes. *)
Inductive FileContent :=
  | Json (stored : StoredCredentials)
  | NotJson (syntax_error : string).

#[global] Instance FileContent_eq_dec : EqDecision FileContent.
Proof. solve_decision. Defined.

(** ** Exceptions *)

(** The objects the code throws or catches: [new Error(message)] (and the
    [SyntaxError] of [JSON.parse], of which the code reads the message
    only), the [NodeJS.ErrnoException] of a failed [fs] call (with its
    [code]) and the [RangeError] of [timingSafeEqual]. *)
Inductive Exn :=
  | JsError (message : string)
  | ErrnoException (code : string) (message : string)
  | RangeError (message : string).

#[global] Instance Exn_eq_dec : EqDecision Exn.
Proof. solve_decision. Defined.

(** [error.code] *)
Definition exn_code (error : Exn) : option string :=
  match error with
  | ErrnoException code _ => Some code
  | _ => None
  end.

(** [error instanceof Error ? error.message : String(error)] *)
Definition exn_message (error : Exn) : string :=
  match error with
  | JsError m | ErrnoException _ m | RangeError m => m
  end.

(** The failures the specification names, as the errors the code throws. *)
Definition NoCredentialsConfigured : Exn :=
  JsError "No stored credentials found. Please configure UDL credentials first.".
Definition InvalidUsername : Exn := JsError "Invalid username".
Definition InvalidPassword : Exn := JsError "Invalid password".
Definition SessionNotFound : Exn := JsError "Session not found".
Definition SessionExpired : Exn := JsError "Session expired".
Definition NotAuthenticated : Exn := JsError "Not authenticated".
Definition IdentityProviderError (cause : Exn) : Exn :=
  JsError ("UDL API authentication failed: " +:+ exn_message cause).

(** The outcome of a call: a value or a thrown exception. *)
Inductive Res (A : Type) :=
  | Ok (a : A)
  | Throw (e : Exn).
Arguments Ok {A} a.
Arguments Throw {A} e.

(** ** Environment and state *)

(** How far a failing [fs.writeFile] got: the file could not be opened
    (no permission, no directory); or it was opened, and so truncated, and
    not all of the text was written (a full disk, a failing device), which
    leaves text on which [JSON.parse] throws with the given message; or all
    was written and the close failed. *)
Inductive WritePhase :=
  | BeforeOpen
  | DuringWrite (syntax_error : string)
  | AtClose.

(** What the process reads from outside, as oracles indexed by the number
    of reads made so far:
    - [clock k]: the [k]-th reading of the system clock, in milliseconds;
    - [entropy k i]: byte [i] of the [k]-th call of [randomBytes], which
      throws with the message [entropy_fault k] when that is set;
    - [fs_fault k]: the [(code, message)] of the error with which the
      [k]-th file-system call fails for a reason other than the absence of
      the credential file (permissions, a full disk, a failing device);
    - [write_phase k]: when the [k]-th file-system call is a write that
      fails, how far it got. *)
Record Env := mkEnv {
  clock : nat -> Z;
  entropy : nat -> nat -> byte;
  entropy_fault : nat -> option string;
  fs_fault : nat -> option (string * string);
  write_phase : nat -> WritePhase
}.

(** The key-derivation function [crypto.scrypt(password, salt, keylen)]
    with its default cost parameters: deterministic, and its output has
    the requested length. *)
Class KDF := mkKDF {
  scrypt : string -> Buffer.t -> nat -> Buffer.t;
  scrypt_length : forall password slt keylen,
    length (scrypt password slt keylen) = keylen
}.

(** The fields of a [UDLAuthenticator], the file [credentials.json] of its
    [credentialsDir], the console, and the read counters of the oracles. *)
Record State := mkState {
  sessions : gmap string AuthSession;
  currentSession : option AuthSession;
  credentialsFile : option FileContent;
  console : list string;
  ticks : nat;
  draws : nat;
  fs_ops : nat
}.

Definition set_sessions (f : gmap string AuthSession -> gmap string AuthSession)
    (st : State) : State :=
  mkState (f (sessions st)) (currentSession st) (credentialsFile st)
          (console st) (ticks st) (draws st) (fs_ops st).

Definition set_currentSession (c : option AuthSession) (st : State) : State :=
  mkState (sessions st) c (credentialsFile st)
          (console st) (ticks st) (draws st) (fs_ops st).

Definition set_credentialsFile (c : option FileContent) (st : State) : State :=
  mkState (sessions st) (currentSession st) c
          (console st) (ticks st) (draws st) (fs_ops st).

Definition set_console (f : list string -> list string) (st : State) : State :=
  mkState (sessions st) (currentSession st) (credentialsFile st)
          (f (console st)) (ticks st) (draws st) (fs_ops st).

Definition set_ticks (n : nat) (st : State) : State :=
  mkState (sessions st) (currentSession st) (credentialsFile st)
          (console st) n (draws st) (fs_ops st).

Definition set_draws (n : nat) (st : State) : State :=
  mkState (sessions st) (currentSession st) (credentialsFile st)
          (console st) (ticks st) n (fs_ops st).

Definition set_fs_ops (n : nat) (st : State) : State :=
  mkState (sessions st) (currentSession st) (credentialsFile st)
          (console st) (ticks st) (draws st) n.

(** ** The monad of method bodies *)

Definition M (A : Type) : Type := State -> Res A * State.

#[global] Instance M_ret : MRet M := fun A a st => (Ok a, st).

#[global] Instance M_bind : MBind M := fun A B f m st =>
  match m st with
  | (Ok a, st') => f a st'
  | (Throw e, st') => (Throw e, st')
  end.

Definition throw {A} (e : Exn) : M A := fun st => (Throw e, st).

(** [try { body } catch (error) { handler }] *)
Definition try_catch {A} (body : M A) (handler : Exn -> M A) : M A :=
  fun st =>
    match body st with
    | (Ok a, st') => (Ok a, st')
    | (Throw e, st') => handler e st'
    end.

Definition lift_res {A} (r : Res A) : M A := fun st => (r, st).

Definition get_state : M State := fun st => (Ok st, st).

Definition modify (f : State -> State) : M unit := fun st => (Ok tt, f st).

(** ** The authenticator *)

(** Truthiness of a JS string: every string but the empty one. *)
Definition truthy (s : string) : bool := bool_decide (s <> "").

(** [a || b] on optional strings: [undefined] and [''] are falsy. *)
Definition js_or (a b : option string) : option string :=
  match a with
  | Some s => if truthy s then a else b
  | None => b
  end.

(** [str.split(sep)[0]]: the text before the first separator, the whole
    string when there is none. *)
Fixpoint split_head (sep : ascii) (str : string) : string :=
  match str with
  | EmptyString => EmptyString
  | String c rest =>
      if decide (c = sep) then EmptyString else String c (split_head sep rest)
  end.

(** [arr.includes(x)] on an array of strings. *)
Definition includes (arr : list string) (x : string) : bool :=
  bool_decide (x ∈ arr).

(** [str.toUpperCase()] on strings of ASCII characters, which is all the
    three classification names of the type of [classification] contain:
    the letters [a-z] are mapped to [A-Z] and no other character changes.
    (On letters outside ASCII the JS method does more, ['ß'] becomes
    ['SS']; such strings are outside this model.) *)
Definition upper_char (c : ascii) : ascii :=
  let n := N_of_ascii c in
  if ((97 <=? n) && (n <=? 122))%N then ascii_of_N (n - 32) else c.

Fixpoint toUpperCase (str : string) : string :=
  match str with
  | EmptyString => EmptyString
  | String c rest => String (upper_char c) (toUpperCase rest)
  end.

(** [8 * 60 * 60 * 1000] *)
Definition SESSION_LIFETIME_MS : Z := 8 * 60 * 60 * 1000.

Definition DEFAULT_API_ENDPOINT : string := "https://unifieddatalibrary.com/api".

Definition basePermissions : list string :=
  ["catalog:read"; "objects:search"; "objects:get"; "tle:read"].

Definition getPermissionsForClassification (cls : string) : list string :=
  if decide (cls = "unclassified") then
    basePermissions ++ ["predictions:read"]
  else if decide (cls = "cui") then
    basePermissions ++
      ["predictions:read"; "conjunctions:read"; "sensors:read"; "analysis:read"]
  else if decide (cls = "secret") then
    basePermissions ++
      ["predictions:read"; "conjunctions:read"; "sensors:read"; "analysis:read";
       "classifications:all"; "spacefence:read"; "intelligence:read"]
  else basePermissions.

(** [crypto.timingSafeEqual(a, b)]: throws on buffers of different
    lengths, otherwise compares them. *)
Definition timingSafeEqual (a b : Buffer.t) : Res bool :=
  if decide (length a = length b) then Ok (bool_decide (a = b))
  else Throw (RangeError "Input buffers must have the same byte length").

Section Authenticator.

Context {kdf : KDF} (E : Env).

(** *** Primitives of the environment *)

(** [Date.now()], [new Date()] *)
Definition Date_now : M Z := fun st =>
  (Ok (clock E (ticks st)), set_ticks (S (ticks st)) st).

(** [crypto.randomBytes(size)] *)
Definition randomBytes (size : nat) : M Buffer.t := fun st =>
  let k := draws st in
  match entropy_fault E k with
  | Some msg => (Throw (JsError msg), set_draws (S k) st)
  | None => (Ok (map (entropy E k) (seq 0 size)), set_draws (S k) st)
  end.

(** Every [fs] call first meets the fault oracle. *)
Definition fs_call : M unit := fun st =>
  let k := fs_ops st in
  match fs_fault E k with
  | Some (code, msg) => (Throw (ErrnoException code msg), set_fs_ops (S k) st)
  | None => (Ok tt, set_fs_ops (S k) st)
  end.

Definition ENOENT : Exn :=
  ErrnoException "ENOENT" "ENOENT: no such file or directory".

(** [fs.readFile(credentialsFile, 'utf-8')] followed by [JSON.parse] *)
Definition readFile : M StoredCredentials :=
  _ ← fs_call;
  st ← get_state;
  match credentialsFile st with
  | Some (Json stored) => mret stored
  | Some (NotJson syntax_error) => throw (JsError syntax_error)
  | None => throw ENOENT
  end.

(** [fs.writeFile(credentialsFile, JSON.stringify(stored, null, 2), ...)]:
    the file is opened with flag ['w'], which creates or truncates it, then
    written, then closed. A call that fails has left the file as it was
    when it could not be opened; with text that is not JSON (a proper
    prefix of the new text, possibly empty) when it failed after that and
    before all was written; and with the new text when only the close
    failed. *)
Definition writeFile (stored : StoredCredentials) : M unit :=
  st ← get_state;
  try_catch
    (_ ← fs_call;
     modify (set_credentialsFile (Some (Json stored))))
    (fun error =>
       _ ← match write_phase E (fs_ops st) with
           | BeforeOpen => mret tt
           | DuringWrite syntax_error =>
               modify (set_credentialsFile (Some (NotJson syntax_error)))
           | AtClose => modify (set_credentialsFile (Some (Json stored)))
           end;
       throw error).

(** [fs.unlink(credentialsFile)] *)
Definition unlink : M unit :=
  _ ← fs_call;
  st ← get_state;
  match credentialsFile st with
  | Some _ => modify (set_credentialsFile None)
  | None => throw ENOENT
  end.

(** [fs.mkdir(credentialsDir, { recursive: true, mode: 0o700 })] *)
Definition mkdir : M unit := fs_call.

(** [console.log(line)] *)
Definition console_log (line : string) : M unit :=
  modify (set_console (fun out => (out ++ [line])%list)).

(** *** Methods of [UDLAuthenticator] *)

Definition ensureCredentialsDir : M unit :=
  try_catch mkdir (fun error =>
    throw (JsError ("Failed to create credentials directory: "
                    +:+ exn_message error))).

Definition hashPassword (password : string) (slt : option Buffer.t)
    : M (string * string) :=
  passwordSalt ← match slt with
                 | Some b => mret b
                 | None => randomBytes 32
                 end;
  let hash := scrypt password passwordSalt 64 in
  mret (Buffer.toString_hex hash, Buffer.toString_hex passwordSalt).

Definition verifyPassword (password hash slt : string) : Res bool :=
  let saltBuffer := Buffer.from_hex slt in
  let hashBuffer := Buffer.from_hex hash in
  let inputHash := scrypt password saltBuffer 64 in
  timingSafeEqual hashBuffer inputHash.

Definition generateSessionId : M string :=
  b ← randomBytes 32; mret (Buffer.toString_hex b).

Definition generateApiToken : M string :=
  b ← randomBytes 48; mret (Buffer.toString_base64url b).

Definition storeCredentials (credentials : UDLCredentials) : M unit :=
  _ ← ensureCredentialsDir;
  hs ← hashPassword (uc_password credentials) None;
  now ← Date_now;
  let stored :=
    {| sc_username := uc_username credentials;
       passwordHash := hs.1;
       salt := hs.2;
       sc_classification := uc_classification credentials;
       apiEndpoint := js_or (uc_apiEndpoint credentials) (Some DEFAULT_API_ENDPOINT);
       createdAt := now;
       lastUsed := None |} in
  try_catch (writeFile stored) (fun error =>
    throw (JsError ("Failed to store credentials: " +:+ exn_message error))).

Definition loadCredentials : M (option StoredCredentials) :=
  try_catch (stored ← readFile; mret (Some stored)) (fun error =>
    if decide (exn_code error = Some "ENOENT") then mret None
    else throw (JsError ("Failed to load credentials: " +:+ exn_message error))).

(** The simulated identity-provider call: mock tokens and the permissions
    of the stored classification. *)
Definition authenticateWithUDL (usr password : string) (stored : StoredCredentials)
    : M (string * string * list string) :=
  try_catch
    (let perms := getPermissionsForClassification (sc_classification stored) in
     access ← generateApiToken;
     refresh ← generateApiToken;
     mret (access, refresh, perms))
    (fun error => throw (IdentityProviderError error)).

Definition authenticateUser (usr password : string) : M AuthSession :=
  loaded ← loadCredentials;
  match loaded with
  | None => throw NoCredentialsConfigured
  | Some stored =>
      if negb (bool_decide (sc_username stored = usr)) then throw InvalidUsername
      else
        isValidPassword ← lift_res (verifyPassword password (passwordHash stored)
                                                   (salt stored));
        if negb isValidPassword then throw InvalidPassword
        else
          authResult ← authenticateWithUDL usr password stored;
          sid ← generateSessionId;
          issued ← Date_now;
          let session :=
            {| sessionId := sid;
               username := usr;
               classification := sc_classification stored;
               accessToken := Some authResult.1.1;
               refreshToken := Some authResult.1.2;
               expiresAt := issued + SESSION_LIFETIME_MS;
               permissions := authResult.2 |} in
          _ ← modify (set_sessions (insert sid session));
          _ ← modify (set_currentSession (Some session));
          used ← Date_now;
          _ ← writeFile
                (mkStoredCredentials (sc_username stored) (passwordHash stored)
                   (salt stored) (sc_classification stored) (apiEndpoint stored)
                   (createdAt stored) (Some used));
          mret session
  end.

Definition refreshSession (sid : string) : M AuthSession :=
  st ← get_state;
  match sessions st !! sid with
  | None => throw SessionNotFound
  | Some session =>
      now ← Date_now;
      if bool_decide (now > expiresAt session) then
        _ ← modify (set_sessions (delete sid));
        throw SessionExpired
      else
        newAccessToken ← generateApiToken;
        renewed ← Date_now;
        let refreshedSession :=
          {| sessionId := sessionId session;
             username := username session;
             classification := classification session;
             accessToken := Some newAccessToken;
             refreshToken := refreshToken session;
             expiresAt := renewed + SESSION_LIFETIME_MS;
             permissions := permissions session |} in
        _ ← modify (set_sessions (insert sid refreshedSession));
        st' ← get_state;
        _ ← (if bool_decide (sessionId <$> currentSession st' = Some sid)
             then modify (set_currentSession (Some refreshedSession))
             else mret tt);
        mret refreshedSession
  end.

Definition revokeTokensWithUDL (session : AuthSession) : M unit :=
  console_log ("Revoking tokens for session " +:+ sessionId session).

Definition logout (sid : option string) : M unit :=
  st ← get_state;
  let targetSessionId := js_or sid (sessionId <$> currentSession st) in
  _ ← match targetSessionId with
      | Some target =>
          if truthy target then
            match sessions st !! target with
            | Some session =>
                _ ← revokeTokensWithUDL session;
                modify (set_sessions (delete target))
            | None => mret tt
            end
          else mret tt
      | None => mret tt
      end;
  st' ← get_state;
  if negb (from_option truthy false sid)
     || bool_decide (sessionId <$> currentSession st' = sid)
  then modify (set_currentSession None)
  else mret tt.

Definition getCurrentSession : M (option AuthSession) :=
  st ← get_state;
  match currentSession st with
  | None => mret None
  | Some cur =>
      now ← Date_now;
      if bool_decide (now > expiresAt cur) then
        _ ← logout (Some (sessionId cur));
        mret None
      else
        st' ← get_state;
        mret (currentSession st')
  end.

Definition getAuthenticationStatus : M AuthenticationStatus :=
  cur ← getCurrentSession;
  match cur with
  | None => mret (mkAuthenticationStatus false None None None None None None)
  | Some session =>
      now ← Date_now;
      mret {| isAuthenticated := true;
              as_username := Some (username session);
              as_classification := Some (classification session);
              as_sessionId := Some (sessionId session);
              as_expiresAt := Some (expiresAt session);
              as_permissions := Some (permissions session);
              lastActivity := Some now |}
  end.

Definition validatePermission (permission : string) : M bool :=
  cur ← getCurrentSession;
  match cur with
  | None => mret false
  | Some session =>
      mret (includes (permissions session) permission
            || includes (permissions session) "*"
            || includes (permissions session)
                        (split_head ":" permission +:+ ":*"))
  end.

Definition getApiHeaders : M (list (string * string)) :=
  cur ← getCurrentSession;
  match cur with
  | None => throw NotAuthenticated
  | Some session =>
      match accessToken session with
      | Some token =>
          if truthy token then
            mret [("Authorization", "Bearer " +:+ token);
                  ("X-Classification", toUpperCase (classification session));
                  ("X-Session-ID", sessionId session);
                  ("Content-Type", "application/json");
                  ("User-Agent", "UDL-MCP-Server/1.0.0")]
          else throw NotAuthenticated
      | None => throw NotAuthenticated
      end
  end.

Definition clearStoredCredentials : M unit :=
  try_catch unlink (fun error =>
    if negb (bool_decide (exn_code error = Some "ENOENT")) then
      throw (JsError ("Failed to clear credentials: " +:+ exn_message error))
    else mret tt).

End Authenticator.

(** ** Notions used to state the properties *)

Definition known_tiers : list string := ["unclassified"; "cui"; "secret"].

Definition unauthenticated : AuthenticationStatus :=
  mkAuthenticationStatus false None None None None None None.

(** The key-derivation function that returns [key] on the password [p]
    with the salt [sb] (for the key length of [key]) and is [kdf] on every
    other input: [scrypt] seen as a random oracle, whose value on an input
    it has not been asked before is a fresh string of bytes. *)
Definition scrypt_with {kdf : KDF} (p : string) (sb key : Buffer.t)
    (password : string) (slt : Buffer.t) (keylen : nat) : Buffer.t :=
  if decide (password = p /\ slt = sb /\ keylen = length key) then key
  else scrypt password slt keylen.

Definition kdf_with {kdf : KDF} (p : string) (sb key : Buffer.t) : KDF :=
  {| scrypt := scrypt_with p sb key;
     scrypt_length := fun password slt keylen =>
       match decide (password = p /\ slt = sb /\ keylen = length key) as d
         return length (if d then key else scrypt password slt keylen) = keylen
       with
       | left H => eq_sym (proj2 (proj2 H))
       | right _ => scrypt_length password slt keylen
       end |}.

(** The 256 bytes, and the [256 ^ n] buffers of [n] bytes. *)
Definition all_bytes : list byte :=
  map (fun k => default x00 (Byte.of_nat k)) (seq 0 256).

Fixpoint all_buffers (n : nat) : list Buffer.t :=
  match n with
  | O => [[]]
  | S m => flat_map (fun b => map (cons b) (all_buffers m)) all_bytes
  end.
Arguments all_buffers : simpl never.

(** [verifyPassword] returned [true]. *)
Definition accepted (r : Res bool) : bool :=
  match r with
  | Ok true => true
  | _ => false
  end.

(** [ns] is the namespace of the permission [p]: [p] is [ns], a colon and
    anything, or [p] is [ns] alone, and [ns] has no colon. *)
Definition namespace_of (p ns : string) : Prop :=
  (":"%char ∉ list_ascii_of_string ns)
  /\ (p = ns \/ exists rest, p = ns +:+ ":" +:+ rest).

(** The state [logout(sid)] leaves when [sid] is a non-empty id. *)
Definition revoked (sid : string) (st : State) : State :=
  let st1 :=
    match sessions st !! sid with
    | Some session =>
        set_sessions (delete sid)
          (set_console
             (fun out => (out ++ ["Revoking tokens for session "
                                  +:+ sessionId session])%list) st)
    | None => st
    end in
  if bool_decide (sessionId <$> currentSession st = Some sid)
  then set_currentSession None st1 else st1.

(** The session a successful refresh of [s] produces, given the new token
    and the clock reading. *)
Definition refreshed (s : AuthSession) (token : string) (now : Z) : AuthSession :=
  {| sessionId := sessionId s;
     username := username s;
     classification := classification s;
     accessToken := Some token;
     refreshToken := refreshToken s;
     expiresAt := now + SESSION_LIFETIME_MS;
     permissions := permissions s |}.

(** The record [authenticateUser] writes back: [stored] with [lastUsed]
    set. *)
Definition touched (stored : StoredCredentials) (used : Z) : StoredCredentials :=
  mkStoredCredentials (sc_username stored) (passwordHash stored) (salt stored)
    (sc_classification stored) (apiEndpoint stored) (createdAt stored)
    (Some used).

(** The state a failing [fs.writeFile] of [stored] leaves, by the phase in
    which it failed. *)
Definition after_failed_write (phase : WritePhase) (stored : StoredCredentials)
    (st : State) : State :=
  match phase with
  | BeforeOpen => st
  | DuringWrite syntax_error => set_credentialsFile (Some (NotJson syntax_error)) st
  | AtClose => set_credentialsFile (Some (Json stored)) st
  end.

(** The session [authenticateUser] issues from state [st]: the tokens are
    draws [d] and [d + 1] of the entropy source, the id is draw [d + 2],
    and the expiry is the first clock reading of the call plus 8 hours. *)
Definition issued (E : Env) (usr : string) (stored : StoredCredentials) (st : State)
    : AuthSession :=
  {| sessionId :=
       Buffer.toString_hex (map (entropy E (S (S (draws st)))) (seq 0 32));
     username := usr;
     classification := sc_classification stored;
     accessToken :=
       Some (Buffer.toString_base64url (map (entropy E (draws st)) (seq 0 48)));
     refreshToken :=
       Some (Buffer.toString_base64url (map (entropy E (S (draws st))) (seq 0 48)));
     expiresAt := clock E (ticks st) + SESSION_LIFETIME_MS;
     permissions := getPermissionsForClassification (sc_classification stored) |}.

(** The current session, when set, is the table's entry under its own id. *)
Definition current_in_table (st : State) : Prop :=
  forall c, currentSession st = Some c -> sessions st !! sessionId c = Some c.

(** ** A concrete environment for running the model *)

(** A stand-in key-derivation function: byte [i] of the key is byte
    [i mod n] of the [n] bytes of the password followed by the salt. It
    only serves to evaluate the model on concrete inputs; every theorem
    below is proved for an arbitrary [KDF]. *)
Definition toy_scrypt (password : string) (slt : Buffer.t) (keylen : nat)
    : Buffer.t :=
  let material := (list_byte_of_string password ++ slt)%list in
  map (fun i => nth (i mod length material) material x00) (seq 0 keylen).

Definition toy_kdf : KDF :=
  {| scrypt := toy_scrypt;
     scrypt_length := fun password slt keylen =>
       eq_trans (length_map _ (seq 0 keylen)) (length_seq _ _) |}.

(** A fault-free environment: the clock reads [t0] at every reading, and
    byte [i] of draw [k] is [(16 k + i) mod 256]. *)
Definition calm_env (t0 : Z) : Env :=
  {| clock := fun _ => t0;
     entropy := fun k i =>
       default x00 (Byte.of_nat ((16 * k + i) mod 256));
     entropy_fault := fun _ => None;
     fs_fault := fun _ => None;
     write_phase := fun _ => BeforeOpen |}.

Definition initial_state : State :=
  mkState ∅ None None [] 0 0 0.

Definition demo_hash : string :=
  "7365637265747077000102030405060708090a0b0c0d0e0f101112131415161718191a1b1c1d1e1f7365637265747077000102030405060708090a0b0c0d0e0f".

Definition demo_salt : string :=
  "000102030405060708090a0b0c0d0e0f101112131415161718191a1b1c1d1e1f".

Definition env_with (clk : nat -> Z) (efault : nat -> option string)
    (fsfault : nat -> option (string * string)) : Env :=
  {| clock := clk;
     entropy := entropy (calm_env 0);
     entropy_fault := efault;
     fs_fault := fsfault;
     write_phase := fun _ => BeforeOpen |}.

(** The write of [authenticateUser], the fourth file-system call, is
    refused. *)
Definition write_fault_env : Env :=
  env_with (fun _ => 1000) (fun _ => None)
    (fun k => if (k =? 3)%nat
              then Some ("EACCES", "EACCES: permission denied") else None).

(** The same call fails on a full disk, after the file has been opened:
    what is left of the file is not JSON. *)
Definition full_disk_env : Env :=
  {| clock := fun _ => 1000;
     entropy := entropy (calm_env 0);
     entropy_fault := fun _ => None;
     fs_fault := fun k =>
       if (k =? 3)%nat
       then Some ("ENOSPC", "ENOSPC: no space left on device") else None;
     write_phase := fun _ => DuringWrite "Unexpected end of JSON input" |}.

(** The entropy source is exhausted. *)
Definition dry_env : Env :=
  env_with (fun _ => 1000) (fun _ => Some "entropy source unavailable")
    (fun _ => None).

(** The session id cannot be drawn: the fourth draw fails. *)
Definition dry_id_env : Env :=
  env_with (fun _ => 1000)
    (fun k => if (k =? 3)%nat then Some "entropy source unavailable" else None)
    (fun _ => None).

(** The clock reads 1000 three times and 40000000, more than 8 hours
    later, from then on. *)
Definition late_env : Env :=
  env_with (fun k => if (k <? 3)%nat then 1000 else 40000000) (fun _ => None)
    (fun _ => None).

Definition alice : UDLCredentials :=
  mkUDLCredentials "alice" "secretpw" "unclassified" None.

Definition stored_alice : StoredCredentials :=
  {| sc_username := "alice";
     passwordHash := demo_hash;
     salt := demo_salt;
     sc_classification := "unclassified";
     apiEndpoint := Some DEFAULT_API_ENDPOINT;
     createdAt := 1000;
     lastUsed := None |}.

(** The state after [storeCredentials alice] on a fresh authenticator. *)
Definition alice_state : State :=
  mkState ∅ None (Some (Json stored_alice)) [] 1 1 2.

Definition alice_session : AuthSession :=
  {| sessionId := "303132333435363738393a3b3c3d3e3f404142434445464748494a4b4c4d4e4f";
     username := "alice";
     classification := "unclassified";
     accessToken :=
       Some "EBESExQVFhcYGRobHB0eHyAhIiMkJSYnKCkqKywtLi8wMTIzNDU2Nzg5Ojs8PT4_";
     refreshToken :=
       Some "ICEiIyQlJicoKSorLC0uLzAxMjM0NTY3ODk6Ozw9Pj9AQUJDREVGR0hJSktMTU5P";
     expiresAt := 28801000;
     permissions :=
       ["catalog:read"; "objects:search"; "objects:get"; "tle:read";
        "predictions:read"] |}.

(** The state after alice has authenticated. *)
Definition logged_in : State :=
  mkState {[sessionId alice_session := alice_session]} (Some alice_session)
    (Some (Json (touched stored_alice 1000))) [] 3 4 4.

(** A state whose only session, the current one, is [s]. *)
Definition state_with_session (s : AuthSession) : State :=
  mkState {[sessionId s := s]} (Some s) None [] 0 0 0.

Definition session_with (cls : string) (perms : list string) : AuthSession :=
  {| sessionId := "s1"; username := "alice"; classification := cls;
     accessToken := Some "token"; refreshToken := Some "refresh";
     expiresAt := 28801000; permissions := perms |}.

(** ** Further notions used to state the properties *)

(** Every entry of the table is stored under its own session id. *)
Definition keys_match (st : State) : Prop :=
  forall k s, sessions st !! k = Some s -> sessionId s = k.

(** The header list [getApiHeaders] builds for session [s] and its
    access token. *)
Definition headers_of (s : AuthSession) (token : string) : list (string * string) :=
  [("Authorization", "Bearer " +:+ token);
   ("X-Classification", toUpperCase (classification s));
   ("X-Session-ID", sessionId s);
   ("Content-Type", "application/json");
   ("User-Agent", "UDL-MCP-Server/1.0.0")].

(** The record [storeCredentials] writes from state [st]: the salt is the
    next draw of the entropy source and [createdAt] the next clock
    reading. *)
Definition fresh_record {kdf : KDF} (E : Env) (credentials : UDLCredentials)
    (st : State) : StoredCredentials :=
  let sb := map (entropy E (draws st)) (seq 0 32) in
  {| sc_username := uc_username credentials;
     passwordHash := Buffer.toString_hex (scrypt (uc_password credentials) sb 64);
     salt := Buffer.toString_hex sb;
     sc_classification := uc_classification credentials;
     apiEndpoint := js_or (uc_apiEndpoint credentials) (Some DEFAULT_API_ENDPOINT);
     createdAt := clock E (ticks st);
     lastUsed := None |}.

(** A wildcard capability: ["*"], or a string that ends in [":*"]. *)
Definition is_wildcard (p : string) : bool :=
  match rev (list_ascii_of_string p) with
  | ["*"%char] => true
  | "*"%char :: ":"%char :: _ => true
  | _ => false
  end.

(** A character of the URL-safe base64 alphabet. *)
Definition url_safe (c : ascii) : bool :=
  let n := N_of_ascii c in
  ((65 <=? n) && (n <=? 90) || (97 <=? n) && (n <=? 122)
   || (48 <=? n) && (n <=? 57) || (n =? 45) || (n =? 95))%N.

(** ** The server's tool handlers that use the authenticator *)

(** One item of a tool result's [content] array: [{ type, text }]. *)
Record TextContent := mkTextContent {
  content_type : string;
  text : string
}.

(** [CallToolResult]: the [content] array and the optional [isError]. *)
Record CallToolResult := mkCallToolResult {
  content : list TextContent;
  isError : option bool
}.

(** The fields of [N2YOServer] these handlers touch: its authenticator and
    the [apiHeaders] of its [SpaceCatalog], initially the empty object. *)
Record ServerState := mkServerState {
  authenticator : State;
  apiHeaders : list (string * string)
}.

Definition SM (A : Type) : Type := ServerState -> Res A * ServerState.

#[global] Instance SM_ret : MRet SM := fun A a sv => (Ok a, sv).

#[global] Instance SM_bind : MBind SM := fun A B f m sv =>
  match m sv with
  | (Ok a, sv') => f a sv'
  | (Throw e, sv') => (Throw e, sv')
  end.

Definition sthrow {A} (e : Exn) : SM A := fun sv => (Throw e, sv).

Definition stry_catch {A} (body : SM A) (handler : Exn -> SM A) : SM A :=
  fun sv =>
    match body sv with
    | (Ok a, sv') => (Ok a, sv')
    | (Throw e, sv') => handler e sv'
    end.

(** [await this.authenticator.method(...)] *)
Definition on_authenticator {A} (m : M A) : SM A := fun sv =>
  let r := m (authenticator sv) in
  (r.1, mkServerState r.2 (apiHeaders sv)).

(** [this.spaceCatalog.setApiHeaders(headers)] *)
Definition setApiHeaders (headers : list (string * string)) : SM unit :=
  fun sv => (Ok tt, mkServerState (authenticator sv) headers).

(** [{ content: [{ type: "text", text }] }] *)
Definition text_result (t : string) : CallToolResult :=
  mkCallToolResult [mkTextContent "text" t] None.


Definition AuthenticationRequired : Exn :=
  JsError "Authentication required. Please login to UDL first using the 'login_to_udl' tool.".

Definition InsufficientPermissions (required : string) : Exn :=
  JsError ("Insufficient permissions. Required: " +:+ required).

Definition HeadersUnavailable : Exn :=
  JsError "Failed to get API authentication headers".

Section Server.

Context {kdf : KDF} (E : Env).

(** The text of a timestamp in a template string: [toISOString]. *)
Variable toISOString : Z -> string.

Definition configureCredentials (args : UDLCredentials) : SM CallToolResult :=
  _ ← on_authenticator (storeCredentials E args);
  mret (text_result
          ("Successfully configured UDL credentials for user: "
           +:+ uc_username args +:+ " (" +:+ uc_classification args +:+ ")")).


Definition logoutFromUdl : SM CallToolResult :=
  _ ← on_authenticator (logout None);
  mret (text_result "Successfully logged out from UDL").

Definition checkAuthentication (requiredPermission : option string) : SM unit :=
  status ← on_authenticator (getAuthenticationStatus E);
  if negb (isAuthenticated status) then sthrow AuthenticationRequired
  else
    _ ← match requiredPermission with
        | Some required =>
            if truthy required then
              hasPermission ← on_authenticator (validatePermission E required);
              if negb hasPermission
              then sthrow (InsufficientPermissions required)
              else mret tt
            else mret tt
        | None => mret tt
        end;
    stry_catch
      (headers ← on_authenticator (getApiHeaders E);
       setApiHeaders headers)
      (fun _ => sthrow HeadersUnavailable).

End Server.

(** ** Input validators *)

(** [class ValidationError extends Error]: a message and an optional
    field name. *)
Record ValidationError := mkValidationError {
  ve_message : string;
  ve_field : option string
}.

(** The outcome of a validator: it returns, or it throws a
    [ValidationError]. *)
Inductive Checked :=
  | Pass
  | Reject (e : ValidationError).

(** [throw new ValidationError(message)] *)
Definition reject (message : string) : Checked :=
  Reject (mkValidationError message None).

(** [\d]; also the test [char >= "0" && char <= "9"] on a one-character
    string. *)
Definition is_digit (c : ascii) : bool :=
  let n := N_of_ascii c in ((48 <=? n) && (n <=? 57))%N.

(** [[a-zA-Z]] *)
Definition is_letter (c : ascii) : bool :=
  let n := N_of_ascii c in
  ((65 <=? n) && (n <=? 90) || (97 <=? n) && (n <=? 122))%N.

(** [/^[class]{lo,hi}$/.test(str)], and [/^[class]+$/] with [lo = 1] and
    no [hi]: the whole string is between [lo] and [hi] characters of the
    class. *)
Definition test_class (class : ascii -> bool) (lo : nat) (hi : option nat)
    (str : string) : bool :=
  forallb class (list_ascii_of_string str)
  && (lo <=? String.length str)%nat
  && match hi with
     | Some h => (String.length str <=? h)%nat
     | None => true
     end.

(** [parseInt(str)] on a string of at most one character, as [charAt]
    returns it: the value of a digit, [NaN] ([None]) otherwise. *)
Definition parseInt_char (c : option ascii) : option nat :=
  match c with
  | Some d => if is_digit d then Some (N.to_nat (N_of_ascii d - 48)) else None
  | None => None
  end.

(** White space removed by [trim] among the code units below 256. *)
Definition is_space (c : ascii) : bool :=
  let n := N_of_ascii c in
  ((9 <=? n) && (n <=? 13) || (n =? 32) || (n =? 160))%N.

Fixpoint trim_start (cs : list ascii) : list ascii :=
  match cs with
  | c :: rest => if is_space c then trim_start rest else cs
  | [] => []
  end.

(** [str.trim()] *)
Definition trim (str : string) : string :=
  string_of_list_ascii
    (rev (trim_start (rev (trim_start (list_ascii_of_string str))))).

(** [interface TleData] *)
Record TleData := mkTleData {
  line1 : string;
  line2 : string;
  epoch : string
}.

Module SpaceValidator.

Definition validateNoradId (noradId : string) : Checked :=
  if negb (truthy noradId) then
    reject "NORAD ID is required and must be a string"
  else if negb (test_class is_digit 1 (Some 9%nat) noradId) then
    reject "NORAD ID must be a numeric string (1-9 digits)"
  else Pass.

(** The loop of [calculateTleChecksum]: digits add their value, a minus
    sign adds one, every other character nothing. *)
Definition checksum_step (checksum : nat) (char : ascii) : nat :=
  if is_digit char then (checksum + N.to_nat (N_of_ascii char - 48))%nat
  else if decide (char = "-"%char) then (checksum + 1)%nat
  else checksum.

Definition calculateTleChecksum (line : string) : nat :=
  (fold_left checksum_step (list_ascii_of_string line) 0%nat mod 10)%nat.

Section WithDateParse.

(** [Date.parse(str)]: the time value, [None] for [NaN]. *)
Variable Date_parse : string -> option Z.

Definition validateTimestamp (timestamp : string) : Checked :=
  if negb (truthy timestamp) then
    reject "Timestamp is required and must be a string"
  else if negb (bool_decide (is_Some (Date_parse timestamp))) then
    reject "Timestamp must be a valid ISO date string"
  else Pass.

Definition validateTle (tle : TleData) : Checked :=
  if negb (truthy (line1 tle))
     || negb (bool_decide (String.length (line1 tle) = 69%nat)) then
    reject "TLE line1 must be exactly 69 characters"
  else if negb (truthy (line2 tle))
          || negb (bool_decide (String.length (line2 tle) = 69%nat)) then
    reject "TLE line2 must be exactly 69 characters"
  else if negb (truthy (epoch tle)) then
    reject "TLE epoch is required"
  else if negb (bool_decide (is_Some (Date_parse (epoch tle)))) then
    reject "TLE epoch must be a valid ISO date string"
  else
    let catalogNumber1 := trim (substring 2 5 (line1 tle)) in
    let catalogNumber2 := trim (substring 2 5 (line2 tle)) in
    if negb (bool_decide (catalogNumber1 = catalogNumber2)) then
      reject "Catalog numbers in TLE lines must match"
    else
      let checksum1 := calculateTleChecksum (substring 0 68 (line1 tle)) in
      let checksum2 := calculateTleChecksum (substring 0 68 (line2 tle)) in
      if negb (bool_decide (parseInt_char (String.get 68 (line1 tle))
                            = Some checksum1)) then
        reject "TLE line1 checksum is invalid"
      else if negb (bool_decide (parseInt_char (String.get 68 (line2 tle))
                                 = Some checksum2)) then
        reject "TLE line2 checksum is invalid"
      else Pass.

End WithDateParse.

End SpaceValidator.

Module SatelliteValidator.

Definition validateNoradId (noradId : string) : Checked :=
  if negb (truthy noradId) then
    reject "NORAD ID is required and must be a string"
  else if negb (test_class is_digit 1 (Some 6%nat) noradId) then
    reject "NORAD ID must be a numeric string (1-6 digits)"
  else Pass.

(** [[a-zA-Z0-9-_]] *)
Definition is_key_char (c : ascii) : bool :=
  is_letter c || is_digit c
  || bool_decide (c = "-"%char) || bool_decide (c = "_"%char).

Definition validateApiKey (apiKey : string) : Checked :=
  if negb (truthy apiKey) then
    reject "API key is required and must be a string"
  else if (String.length apiKey <? 10)%nat || (100 <? String.length apiKey)%nat then
    reject "API key must be between 10 and 100 characters"
  else if negb (test_class is_key_char 1 None apiKey) then
    reject "API key must contain only alphanumeric characters, hyphens, and underscores"
  else Pass.

Definition validateCountry (country : option string) : Checked :=
  match country with
  | None => Pass
  | Some code =>
      if (String.length code <? 2)%nat || (10 <? String.length code)%nat then
        reject "Country code must be a string between 2-10 characters"
      else if negb (test_class is_letter 1 None code) then
        reject "Country code must contain only letters"
      else Pass
  end.

End SatelliteValidator.

(** ** Further concrete inputs *)

(** A line of 69 characters whose last character is the checksum digit of
    the first 68: what [validateTle] requires of each line. *)
Definition tle_line_ok (line : string) : Prop :=
  String.length line = 69%nat
  /\ parseInt_char (String.get 68 line)
     = Some (SpaceValidator.calculateTleChecksum (substring 0 68 line)).

(** Every file-system call is refused. *)
Definition no_disk_env : Env :=
  env_with (fun _ => 1000) (fun _ => None)
    (fun _ => Some ("EACCES", "EACCES: permission denied")).

(** Every file-system call reports a missing file or directory. *)
Definition enoent_env : Env :=
  env_with (fun _ => 1000) (fun _ => None)
    (fun _ => Some ("ENOENT", "ENOENT: no such file or directory")).

(** The server once alice has authenticated, before any catalog call. *)
Definition logged_in_server : ServerState := mkServerState logged_in [].

Definition fresh_server : ServerState := mkServerState initial_state [].


(** A stand-in for [Date.parse] that accepts every string. *)
Definition demo_date_parse (str : string) : option Z := Some 0.

(** Two element set lines with correct checksum digits. *)
Definition demo_tle : TleData :=
  {| line1 := "1 25544U 98067A   24001.50000000  .00002182  00000-0  40201-4 0  9996";
     line2 := "2 25544  51.6461 339.7939 0001397  83.2918 276.8626 15.48919103123452";
     epoch := "2024-01-01T12:00:00.000Z" |}.

(** * Properties *)

(** ** Encodings *)

Example toString_hex_ex :
  Buffer.toString_hex [x00; x0f; xa5; xff] = "000fa5ff".
Proof. reflexivity. Qed.

Example from_hex_ex :
  Buffer.from_hex "000FA5ff" = [x00; x0f; xa5; xff].
Proof. reflexivity. Qed.

Example from_hex_truncates :
  Buffer.from_hex "a5zz11" = [xa5] /\ Buffer.from_hex "a5f" = [xa5].
Proof. split; reflexivity. Qed.

Example toString_base64url_ex :
  Buffer.toString_base64url [xfb; xff; xbe; x4d] = "-_--TQ".
Proof. reflexivity. Qed.

Example split_head_ex :
  split_head ":" "objects:get" = "objects" /\ split_head ":" "a:b:c" = "a"
  /\ split_head ":" "plain" = "plain" /\ split_head ":" "" = "".
Proof. repeat split; reflexivity. Qed.

Lemma unhex_lt_16 c n : Buffer.unhex c = Some n -> (n < 16)%N.
Proof.
  unfold Buffer.unhex. intros H.
  repeat case_match; simplify_eq;
    repeat match goal with
           | H : (_ && _)%bool = true |- _ => apply andb_prop in H as [? ?]
           | H : (_ <=? _)%N = true |- _ => apply N.leb_le in H
           end; lia.
Qed.

Lemma decode_hex_of_byte b rest :
  Buffer.decode_hex (Buffer.hex_of_byte b ++ rest) = b :: Buffer.decode_hex rest.
Proof. destruct b; reflexivity. Qed.

Lemma decode_hex_encode buf :
  Buffer.decode_hex (flat_map Buffer.hex_of_byte buf) = buf.
Proof.
  induction buf as [|b buf IH]; [done|].
  change (flat_map Buffer.hex_of_byte (b :: buf))
    with (Buffer.hex_of_byte b ++ flat_map Buffer.hex_of_byte buf)%list.
  rewrite decode_hex_of_byte. by rewrite IH.
Qed.

(** Decoding the hexadecimal text of a buffer gives the buffer back. *)
Lemma from_hex_toString_hex buf :
  Buffer.from_hex (Buffer.toString_hex buf) = buf.
Proof.
  unfold Buffer.from_hex, Buffer.toString_hex.
  rewrite list_ascii_of_string_of_list_ascii. apply decode_hex_encode.
Qed.

Lemma decode_hex_length n cs :
  length cs = (2 * n)%nat ->
  forallb (fun c => bool_decide (is_Some (Buffer.unhex c))) cs = true ->
  length (Buffer.decode_hex cs) = n.
Proof.
  revert cs. induction n as [|n IH]; intros cs Hlen Hall.
  - by destruct cs.
  - destruct cs as [|c1 [|c2 rest]]; simpl in Hlen; try lia.
    simpl in Hall.
    apply andb_prop in Hall as [H1 Hall]. apply andb_prop in Hall as [H2 Hall].
    apply bool_decide_eq_true in H1 as [hi Hhi].
    apply bool_decide_eq_true in H2 as [lo Hlo].
    simpl. rewrite Hhi, Hlo.
    pose proof (unhex_lt_16 _ _ Hhi). pose proof (unhex_lt_16 _ _ Hlo).
    destruct (Byte.of_N (16 * hi + lo)) as [b|] eqn:Hb.
    + simpl. f_equal. apply IH; [lia | done].
    + apply Byte.of_N_None_iff in Hb. lia.
Qed.

(** A well-formed hexadecimal string of [2 n] digits decodes to [n] bytes. *)
Lemma from_hex_length n str :
  Buffer.is_hex_of_length n str = true -> length (Buffer.from_hex str) = n.
Proof.
  unfold Buffer.is_hex_of_length, Buffer.from_hex. intros H.
  apply andb_prop in H as [Hlen Hall]. apply bool_decide_eq_true in Hlen.
  apply decode_hex_length; [|done].
  rewrite <- Hlen. clear. induction str; simpl; congruence.
Qed.

Lemma flat_map_hex_length buf :
  length (flat_map Buffer.hex_of_byte buf) = (2 * length buf)%nat.
Proof. induction buf as [|b buf IH]; simpl; lia. Qed.

Lemma toString_hex_length buf :
  String.length (Buffer.toString_hex buf) = (2 * length buf)%nat.
Proof.
  unfold Buffer.toString_hex. rewrite <- flat_map_hex_length.
  generalize (flat_map Buffer.hex_of_byte buf). intros cs.
  induction cs as [|c cs IH]; simpl; congruence.
Qed.

(** A session id is 64 hexadecimal digits, so never the empty string. *)
Lemma generateSessionId_length E st sid st' :
  generateSessionId E st = (Ok sid, st') -> String.length sid = 64%nat.
Proof.
  unfold generateSessionId, randomBytes, mbind, M_bind, mret, M_ret.
  destruct (entropy_fault E (draws st)); [discriminate|].
  intros [= <- _]. rewrite toString_hex_length. reflexivity.
Qed.

(** ** C1: the permission catalog *)

(** C1 (as amended). The catalog maps ['unclassified'] to the five
    capabilities of the table, ['cui'] to those followed by the three cui
    capabilities, ['secret'] to the cui list followed by the three secret
    capabilities, and every other string to the four base capabilities
    [catalog:read, objects:search, objects:get, tle:read], that is the
    unclassified list without [predictions:read]. The results are equal as
    lists, hence as sets. *)
Theorem permission_catalog :
  getPermissionsForClassification "unclassified"
    = ["catalog:read"; "objects:search"; "objects:get"; "tle:read";
       "predictions:read"]
  /\ getPermissionsForClassification "cui"
    = (getPermissionsForClassification "unclassified"
        ++ ["conjunctions:read"; "sensors:read"; "analysis:read"])%list
  /\ getPermissionsForClassification "secret"
    = (getPermissionsForClassification "cui"
        ++ ["classifications:all"; "spacefence:read"; "intelligence:read"])%list
  /\ forall cls, cls ∉ known_tiers ->
       getPermissionsForClassification cls
       = ["catalog:read"; "objects:search"; "objects:get"; "tle:read"].
Proof.
  repeat split; try reflexivity.
  intros cls Hcls. unfold getPermissionsForClassification, known_tiers in *.
  repeat case_decide; subst; try reflexivity; exfalso; apply Hcls; set_solver.
Qed.

Lemma permission_catalog_witness :
  ("top-secret" ∉ known_tiers)
  /\ getPermissionsForClassification "top-secret"
     = ["catalog:read"; "objects:search"; "objects:get"; "tle:read"].
Proof.
  assert (Hn : "top-secret" ∉ known_tiers).
  { unfold known_tiers. intros Hin.
    repeat (apply elem_of_cons in Hin as [Hin|Hin]; [discriminate Hin|]).
    by apply elem_of_nil in Hin. }
  split; [exact Hn|].
  exact (proj2 (proj2 (proj2 permission_catalog)) "top-secret" Hn).
Defined.

(** C1 as stated fails: the unrecognised tier ["top-secret"] does not
    yield the set the table gives for ['unclassified'], since
    [predictions:read] is in the latter and not in the former. *)
Lemma unknown_tier_is_not_unclassified_set :
  ("top-secret" ∉ known_tiers)
  /\ ~ (forall p, p ∈ getPermissionsForClassification "top-secret"
                  <-> p ∈ ["catalog:read"; "objects:search"; "objects:get";
                           "tle:read"; "predictions:read"]).
Proof.
  split.
  - unfold known_tiers. intros Hin.
    repeat (apply elem_of_cons in Hin as [Hin|Hin]; [discriminate Hin|]).
    by apply elem_of_nil in Hin.
  - intros Hall. specialize (Hall "predictions:read").
    assert (Hin : "predictions:read" ∈ getPermissionsForClassification "top-secret").
    { apply Hall. apply list_elem_of_In. simpl. auto 10. }
    vm_compute in Hin.
    repeat (apply elem_of_cons in Hin as [Hin|Hin]; [discriminate Hin|]).
    by apply elem_of_nil in Hin.
Qed.

(** The scenario of the specification: a ['secret'] session includes
    [intelligence:read], an ['unclassified'] one does not. *)
Lemma intelligence_read_only_secret :
  includes (getPermissionsForClassification "secret") "intelligence:read" = true
  /\ includes (getPermissionsForClassification "unclassified") "intelligence:read"
     = false.
Proof. split; reflexivity. Qed.

(** ** C8, C7: the password hasher *)

Section Hasher.

Context {kdf : KDF} (E : Env).

(** [hashPassword] with a supplied salt is a pure function of password and
    salt; without one it draws 32 bytes and fails only if the entropy
    source does. *)
Lemma hashPassword_eq password slt st :
  hashPassword E password slt st =
  match slt with
  | Some sb =>
      (Ok (Buffer.toString_hex (scrypt password sb 64), Buffer.toString_hex sb), st)
  | None =>
      match entropy_fault E (draws st) with
      | Some msg => (Throw (JsError msg), set_draws (S (draws st)) st)
      | None =>
          let sb := map (entropy E (draws st)) (seq 0 32) in
          (Ok (Buffer.toString_hex (scrypt password sb 64), Buffer.toString_hex sb),
           set_draws (S (draws st)) st)
      end
  end.
Proof.
  unfold hashPassword, mbind, M_bind, mret, M_ret, randomBytes.
  destruct slt; [done|]. by destruct (entropy_fault E (draws st)).
Qed.

(** What [verifyPassword] computes when the stored hash decodes to 64
    bytes. *)
Lemma verifyPassword_eq password hash slt :
  length (Buffer.from_hex hash) = 64%nat ->
  verifyPassword password hash slt
  = Ok (bool_decide (Buffer.from_hex hash
                     = scrypt password (Buffer.from_hex slt) 64)).
Proof.
  intros Hlen. unfold verifyPassword, timingSafeEqual.
  rewrite scrypt_length. by rewrite decide_True.
Qed.

(** [verifyPassword] throws exactly when the stored hash does not decode
    to 64 bytes. *)
Lemma verifyPassword_throws password hash slt e :
  verifyPassword password hash slt = Throw e ->
  length (Buffer.from_hex hash) <> 64%nat.
Proof.
  unfold verifyPassword, timingSafeEqual. rewrite scrypt_length.
  case_decide; [discriminate | done].
Qed.

(** C8. On a stored hash of 128 hexadecimal digits and a stored salt of 64,
    [verifyPassword] returns a boolean, whatever the password; when it
    throws, the stored hash or salt is not of that form. *)
Theorem verifyPassword_total password hash slt :
  (Buffer.is_hex_of_length 64 hash = true ->
   Buffer.is_hex_of_length 32 slt = true ->
   exists b, verifyPassword password hash slt = Ok b)
  /\ (forall e, verifyPassword password hash slt = Throw e ->
        Buffer.is_hex_of_length 64 hash = false
        \/ Buffer.is_hex_of_length 32 slt = false).
Proof.
  split.
  - intros Hh _. apply from_hex_length in Hh.
    rewrite verifyPassword_eq by done. eauto.
  - intros e He. left. apply verifyPassword_throws in He.
    destruct (Buffer.is_hex_of_length 64 hash) eqn:Hwf; [|done].
    apply from_hex_length in Hwf. done.
Qed.

End Hasher.

(** *** C7: the wrong password *)

Lemma all_bytes_once b :
  length (List.filter (fun c => bool_decide (c = b)) all_bytes) = 1%nat.
Proof. destruct b; vm_compute; reflexivity. Qed.

Lemma filter_cons_map (b c : byte) (t : Buffer.t) (L : list Buffer.t) :
  List.filter (fun key => bool_decide (key = b :: t)) (map (cons c) L)
  = if decide (c = b)
    then map (cons b) (List.filter (fun key => bool_decide (key = t)) L)
    else [].
Proof.
  induction L as [|x L IH]; [by destruct (decide (c = b))|].
  cbn [map List.filter]. rewrite IH.
  destruct (decide (c = b)) as [->|Hne].
  - destruct (decide (x = t)) as [->|Hx].
    + by rewrite !bool_decide_eq_true_2.
    + rewrite !bool_decide_eq_false_2; [done|done|congruence].
  - rewrite bool_decide_eq_false_2; [done|congruence].
Qed.

(** Every buffer of [n] bytes occurs exactly once among [all_buffers n]. *)
Lemma all_buffers_once n t :
  length t = n ->
  length (List.filter (fun key => bool_decide (key = t)) (all_buffers n)) = 1%nat.
Proof.
  revert t. induction n as [|n IH]; intros t Hlen.
  - destruct t; [|discriminate]. reflexivity.
  - destruct t as [|b t]; [discriminate|]. injection Hlen as Hlen.
    change (all_buffers (S n))
      with (flat_map (fun b => map (cons b) (all_buffers n)) all_bytes).
    rewrite <- (all_bytes_once b).
    induction all_bytes as [|c l IHl]; [reflexivity|].
    cbn [flat_map List.filter]. rewrite List.filter_app, length_app, IHl.
    rewrite filter_cons_map.
    destruct (decide (c = b)) as [->|Hne].
    + rewrite bool_decide_eq_true_2 by done.
      rewrite length_map, IH by done. reflexivity.
    + rewrite bool_decide_eq_false_2 by done. reflexivity.
Qed.

Lemma all_buffers_length_elem n key :
  In key (all_buffers n) -> length key = n.
Proof.
  revert key. induction n as [|n IH]; intros key Hin.
  - destruct Hin as [<-|[]]. reflexivity.
  - change (all_buffers (S n))
      with (flat_map (fun b => map (cons b) (all_buffers n)) all_bytes) in Hin.
    apply in_flat_map in Hin as (b & _ & Hin).
    apply in_map_iff in Hin as (t & <- & Hin). simpl. f_equal. by apply IH.
Qed.

Lemma all_buffers_count n :
  N.of_nat (length (all_buffers n)) = (256 ^ N.of_nat n)%N.
Proof.
  induction n as [|n IH]; [reflexivity|].
  change (all_buffers (S n))
    with (flat_map (fun b => map (cons b) (all_buffers n)) all_bytes).
  assert (Hflat : forall (l : list byte) (L : list Buffer.t),
            length (flat_map (fun b => map (cons b) L) l)
            = (length l * length L)%nat).
  { intros l L. induction l as [|c l IHl]; [reflexivity|].
    cbn [flat_map length]. rewrite length_app, length_map, IHl. lia. }
  rewrite Hflat. unfold all_bytes at 1. rewrite length_map, length_seq.
  rewrite Nat2N.inj_mul, IH, (Nat2N.inj_succ n), N.pow_succ_r'. reflexivity.
Qed.

Section RandomOracle.

Context {kdf : KDF} (E : Env).

Lemma scrypt_with_hit p sb key keylen :
  keylen = length key ->
  @scrypt (kdf_with p sb key) p sb keylen = key.
Proof.
  intros ->. cbn [scrypt kdf_with]. unfold scrypt_with. by rewrite decide_True.
Qed.

Lemma scrypt_with_miss p sb key password slt keylen :
  password <> p ->
  @scrypt (kdf_with p sb key) password slt keylen = scrypt password slt keylen.
Proof.
  intros Hne. cbn [scrypt kdf_with]. unfold scrypt_with.
  rewrite decide_False; [done|]. by intros [? _].
Qed.

(** C7. Hashing a password returns a hash and a salt, provided the entropy
    source delivers the salt when none is supplied. Verifying the same
    password against them returns [true]. Verifying another password
    against them never throws, and returns [false] unless [scrypt] maps
    the two passwords to the same key under that salt. How likely that is
    cannot be read off a fixed function, so [scrypt] is taken as a random
    oracle: its value on the other password, an input that hashing did not
    ask for, may be any string [key] of 64 bytes, the hash and the salt
    staying what they are. Verification then returns [false] for every
    [key] but the stored one: of the [256 ^ 64] keys exactly one is
    accepted. *)
Theorem verify_after_hash password slt st :
  (slt = None -> entropy_fault E (draws st) = None) ->
  exists h s st',
    hashPassword E password slt st = (Ok (h, s), st')
    /\ verifyPassword password h s = Ok true
    /\ forall other, other <> password ->
         (exists b, verifyPassword other h s = Ok b)
         /\ (verifyPassword other h s = Ok false
             <-> scrypt other (Buffer.from_hex s) 64
                 <> scrypt password (Buffer.from_hex s) 64)
         /\ (forall key, length key = 64%nat ->
               hashPassword (kdf := kdf_with other (Buffer.from_hex s) key)
                 E password slt st = (Ok (h, s), st')
               /\ verifyPassword (kdf := kdf_with other (Buffer.from_hex s) key)
                    other h s
                  = Ok (bool_decide (key = Buffer.from_hex h)))
         /\ length
              (List.filter
                 (fun key =>
                    accepted
                      (verifyPassword
                         (kdf := kdf_with other (Buffer.from_hex s) key)
                         other h s))
                 (all_buffers 64)) = 1%nat
         /\ N.of_nat (length (all_buffers 64)) = (256 ^ 64)%N.
Proof.
  intros Hent.
  assert (Hhs : exists sb st', forall k : KDF,
             hashPassword (kdf := k) E password slt st
             = (Ok (Buffer.toString_hex (@scrypt k password sb 64),
                    Buffer.toString_hex sb), st')).
  { destruct slt as [sb|].
    - exists sb, st. intros k. by rewrite hashPassword_eq.
    - eexists _, _. intros k. rewrite hashPassword_eq, Hent by done.
      reflexivity. }
  destruct Hhs as (sb & st' & Hrun).
  exists (Buffer.toString_hex (scrypt password sb 64)), (Buffer.toString_hex sb), st'.
  split; [apply Hrun|].
  assert (Hlen : length (Buffer.from_hex
                           (Buffer.toString_hex (scrypt password sb 64))) = 64%nat).
  { by rewrite from_hex_toString_hex, scrypt_length. }
  assert (Hforged : forall other key, other <> password -> length key = 64%nat ->
            verifyPassword (kdf := kdf_with other (Buffer.from_hex
                                                     (Buffer.toString_hex sb)) key)
              other (Buffer.toString_hex (scrypt password sb 64))
              (Buffer.toString_hex sb)
            = Ok (bool_decide (key = Buffer.from_hex
                                       (Buffer.toString_hex
                                          (scrypt password sb 64))))).
  { intros other key Hne Hkey.
    rewrite (verifyPassword_eq (kdf := kdf_with _ _ key)) by exact Hlen.
    rewrite scrypt_with_hit by (by rewrite Hkey).
    f_equal. apply bool_decide_ext. split; congruence. }
  split.
  { rewrite verifyPassword_eq by exact Hlen.
    rewrite !from_hex_toString_hex. by rewrite bool_decide_eq_true_2. }
  intros other Hne. split; [|split; [|split; [|split]]].
  - rewrite verifyPassword_eq by exact Hlen. eauto.
  - rewrite verifyPassword_eq by exact Hlen.
    rewrite !from_hex_toString_hex. split.
    + intros [= Hb]. apply bool_decide_eq_false in Hb. congruence.
    + intros Hdiff. f_equal. apply bool_decide_eq_false. congruence.
  - intros key Hkey. split; [|by apply Hforged].
    rewrite (Hrun (kdf_with _ _ key)).
    by rewrite scrypt_with_miss by congruence.
  - rewrite (List.filter_ext_in _
               (fun key => bool_decide
                             (key = Buffer.from_hex
                                      (Buffer.toString_hex
                                         (scrypt password sb 64))))).
    + apply all_buffers_once. exact Hlen.
    + intros key Hin. apply all_buffers_length_elem in Hin.
      rewrite Hforged by assumption. by destruct (bool_decide _).
  - exact (all_buffers_count 64).
Qed.

End RandomOracle.


Lemma verify_after_hash_witness :
  exists h s st',
    hashPassword (kdf := toy_kdf) (calm_env 1000) "secretpw" None initial_state
    = (Ok (h, s), st')
    /\ verifyPassword (kdf := toy_kdf) "secretpw" h s = Ok true
    /\ verifyPassword (kdf := toy_kdf) "wrongpw" h s = Ok false
    /\ verifyPassword
         (kdf := kdf_with (kdf := toy_kdf) "wrongpw" (Buffer.from_hex s)
                   (repeat x00 64))
         "wrongpw" h s = Ok false
    /\ verifyPassword
         (kdf := kdf_with (kdf := toy_kdf) "wrongpw" (Buffer.from_hex s)
                   (Buffer.from_hex h))
         "wrongpw" h s = Ok true.
Proof.
  destruct (verify_after_hash (kdf := toy_kdf) (calm_env 1000) "secretpw" None
              initial_state (fun _ => eq_refl))
    as (h & s & st' & Hrun & Hsame & Hother).
  exists h, s, st'. split; [exact Hrun|]. split; [exact Hsame|].
  assert (Hc :
    hashPassword (kdf := toy_kdf) (calm_env 1000) "secretpw" None initial_state
    = (Ok (demo_hash, demo_salt), set_draws 1 initial_state))
    by (vm_compute; reflexivity).
  rewrite Hc in Hrun. injection Hrun as <- <- <-.
  destruct (Hother "wrongpw") as (_ & Hiff & Hkey & _); [discriminate|].
  split; [|split].
  - apply Hiff. vm_compute. discriminate.
  - destruct (Hkey (repeat x00 64) eq_refl) as [_ Hv]. rewrite Hv.
    vm_compute. reflexivity.
  - destruct (Hkey (Buffer.from_hex demo_hash) eq_refl) as [_ Hv]. rewrite Hv.
    vm_compute. reflexivity.
Defined.

Example hash_alice :
  hashPassword (kdf := toy_kdf) (calm_env 1000) "secretpw" None initial_state
  = (Ok (demo_hash, demo_salt), set_draws 1 initial_state).
Proof. vm_compute. reflexivity. Qed.

Lemma verifyPassword_total_witness :
  Buffer.is_hex_of_length 64 demo_hash = true
  /\ Buffer.is_hex_of_length 32 demo_salt = true
  /\ exists b, verifyPassword (kdf := toy_kdf) "anything" demo_hash demo_salt = Ok b.
Proof.
  split; [reflexivity|]. split; [reflexivity|].
  apply (proj1 (verifyPassword_total (kdf := toy_kdf) "anything" demo_hash demo_salt));
    reflexivity.
Defined.

(** A stored hash that is too short makes [timingSafeEqual] throw. *)
Example verifyPassword_malformed :
  verifyPassword (kdf := toy_kdf) "secretpw" "7365" demo_salt
  = Throw (RangeError "Input buffers must have the same byte length").
Proof. reflexivity. Qed.

(** ** Sessions *)

Ltac unfold_M :=
  unfold mbind, M_bind, mret, M_ret, throw, try_catch, lift_res, get_state,
    modify, console_log in *.

Section Sessions.

Context {kdf : KDF} (E : Env).

Lemma logout_eq sid st :
  sid <> "" -> logout (Some sid) st = (Ok tt, revoked sid st).
Proof.
  intros Hsid. unfold logout, revoked, revokeTokensWithUDL. unfold_M. simpl.
  unfold truthy. rewrite !bool_decide_eq_true_2 by done. simpl.
  destruct (sessions st !! sid) as [session|]; simpl;
    by destruct (bool_decide (sessionId <$> currentSession st = Some sid)).
Qed.

(** [logout()] without an id revokes the current session, if any. *)
Lemma logout_current_eq st :
  logout None st =
  (Ok tt,
   match currentSession st with
   | Some cur =>
       if truthy (sessionId cur) then revoked (sessionId cur) st
       else set_currentSession None st
   | None => set_currentSession None st
   end).
Proof.
  unfold logout, revoked, revokeTokensWithUDL. unfold_M. simpl.
  destruct (currentSession st) as [cur|] eqn:Hcur; simpl; [|done].
  destruct (truthy (sessionId cur)) eqn:Ht; [|done].
  rewrite bool_decide_eq_true_2 by done.
  by destruct (sessions st !! sessionId cur).
Qed.

Lemma getCurrentSession_none st :
  currentSession st = None -> getCurrentSession E st = (Ok None, st).
Proof. intros H. unfold getCurrentSession. unfold_M. by rewrite H. Qed.

Lemma getCurrentSession_live st s :
  currentSession st = Some s ->
  ~ clock E (ticks st) > expiresAt s ->
  getCurrentSession E st = (Ok (Some s), set_ticks (S (ticks st)) st).
Proof.
  intros H Hlive. unfold getCurrentSession, Date_now. unfold_M. rewrite H.
  rewrite bool_decide_eq_false_2 by done. simpl. by rewrite H.
Qed.

Lemma getCurrentSession_expired st s :
  currentSession st = Some s ->
  clock E (ticks st) > expiresAt s ->
  exists st',
    getCurrentSession E st = (Ok None, st')
    /\ currentSession st' = None
    /\ sessions st' = (if truthy (sessionId s)
                       then delete (sessionId s) (sessions st)
                       else sessions st)
    /\ credentialsFile st' = credentialsFile st.
Proof.
  intros H Hexp. unfold getCurrentSession, Date_now. unfold_M. rewrite H.
  rewrite bool_decide_eq_true_2 by done.
  destruct (decide (sessionId s = "")) as [Hid|Hid].
  - unfold logout. unfold_M. simpl. rewrite H. simpl. rewrite Hid. simpl.
    eexists. split; [reflexivity|]. by simpl.
  - rewrite logout_eq by done. eexists. split; [reflexivity|].
    unfold revoked. simpl. rewrite H. simpl.
    rewrite bool_decide_eq_true_2 by done.
    unfold truthy. rewrite bool_decide_eq_true_2 by done.
    destruct (sessions st !! sessionId s) eqn:Hs; simpl; [done|].
    split; [done|]. split; [|done]. by rewrite delete_id.
Qed.

Lemma refreshSession_not_found sid st :
  sessions st !! sid = None ->
  refreshSession E sid st = (Throw SessionNotFound, st).
Proof. intros H. unfold refreshSession. unfold_M. simpl. by rewrite H. Qed.

Lemma refreshSession_expired sid st s :
  sessions st !! sid = Some s ->
  clock E (ticks st) > expiresAt s ->
  refreshSession E sid st
  = (Throw SessionExpired,
     set_sessions (delete sid) (set_ticks (S (ticks st)) st)).
Proof.
  intros H Hexp. unfold refreshSession, Date_now. unfold_M. simpl. rewrite H.
  by rewrite bool_decide_eq_true_2.
Qed.

Lemma refreshSession_live sid st s :
  sessions st !! sid = Some s ->
  ~ clock E (ticks st) > expiresAt s ->
  refreshSession E sid st =
  match entropy_fault E (draws st) with
  | Some msg =>
      (Throw (JsError msg), set_draws (S (draws st)) (set_ticks (S (ticks st)) st))
  | None =>
      let s' := refreshed s
                  (Buffer.toString_base64url (map (entropy E (draws st)) (seq 0 48)))
                  (clock E (S (ticks st))) in
      let st1 := set_sessions (insert sid s')
                   (set_ticks (S (S (ticks st)))
                      (set_draws (S (draws st)) st)) in
      (Ok s',
       if bool_decide (sessionId <$> currentSession st = Some sid)
       then set_currentSession (Some s') st1 else st1)
  end.
Proof.
  intros H Hlive.
  unfold refreshSession, generateApiToken, randomBytes, Date_now. unfold_M.
  simpl. rewrite H. rewrite bool_decide_eq_false_2 by done. simpl.
  destruct (entropy_fault E (draws st)); [done|]. simpl.
  by destruct (bool_decide (sessionId <$> currentSession st = Some sid)).
Qed.

(** *** C4: expiry *)


(** Once the status query has purged the expired current session, a later
    [refreshSession] on its id no longer finds it. *)
Remark refresh_after_purge_not_found st s :
  currentSession st = Some s ->
  sessionId s <> "" ->
  clock E (ticks st) > expiresAt s ->
  (refreshSession E (sessionId s) (getAuthenticationStatus E st).2).1
  = Throw SessionNotFound.
Proof.
  intros Hcur Hid Hexp.
  destruct (getCurrentSession_expired st s Hcur Hexp)
    as (st' & Hget & _ & Hsess & _).
  unfold getAuthenticationStatus. unfold_M. rewrite Hget. simpl.
  rewrite refreshSession_not_found; [done|].
  rewrite Hsess. unfold truthy. rewrite bool_decide_eq_true_2 by done.
  apply lookup_delete_eq.
Qed.

(** *** C5: permission checks *)

(** The text before the first colon is the namespace, and the only one. *)
Lemma split_head_colon_free str :
  ":"%char ∉ list_ascii_of_string str -> split_head ":" str = str.
Proof.
  induction str as [|c rest IH]; [done|]. simpl. intros Hnot.
  apply not_elem_of_cons in Hnot as [Hc Hrest].
  rewrite decide_False by done. by rewrite IH.
Qed.

Lemma split_head_prefix ns rest :
  ":"%char ∉ list_ascii_of_string ns ->
  split_head ":" (ns +:+ ":" +:+ rest) = ns.
Proof.
  induction ns as [|c ns IH]; intros Hnot.
  - reflexivity.
  - simpl in Hnot. apply not_elem_of_cons in Hnot as [Hc Hrest].
    change (String c ns +:+ ":" +:+ rest)
      with (String c (ns +:+ ":" +:+ rest)).
    simpl. rewrite decide_False by done. by rewrite IH.
Qed.

Lemma namespace_of_unique p ns :
  namespace_of p ns -> split_head ":" p = ns.
Proof.
  intros [Hnot [-> | [rest ->]]].
  - by apply split_head_colon_free.
  - by apply split_head_prefix.
Qed.

(** C5. Without a current session, or with an expired one,
    [validatePermission p] is false. With a live current session it is true
    exactly when the session's permissions contain [p], or ["*"], or
    [ns:*] where [ns] is the namespace of [p]: the text of [p] before its
    first colon, all of [p] when it has no colon. So a session that holds
    ["objects:*"] is granted ["objects:get"], and every other permission of
    the form ["objects:..."]. *)
Theorem validatePermission_spec permission st :
  ((currentSession st = None
    \/ exists s, currentSession st = Some s /\ clock E (ticks st) > expiresAt s) ->
   (validatePermission E permission st).1 = Ok false)
  /\ (forall s, currentSession st = Some s ->
       ~ clock E (ticks st) > expiresAt s ->
       (exists b, (validatePermission E permission st).1 = Ok b
          /\ forall ns, namespace_of permission ns ->
               (b = true <->
                permission ∈ permissions s
                \/ "*" ∈ permissions s
                \/ (ns +:+ ":*") ∈ permissions s))
       /\ ("objects:*" ∈ permissions s ->
           (validatePermission E "objects:get" st).1 = Ok true)
       /\ (forall ns rest,
             ":"%char ∉ list_ascii_of_string ns ->
             (ns +:+ ":*") ∈ permissions s ->
             (validatePermission E (ns +:+ ":" +:+ rest) st).1 = Ok true)).
Proof.
  assert (Hlive : forall p s, currentSession st = Some s ->
            ~ clock E (ticks st) > expiresAt s ->
            (validatePermission E p st).1
            = Ok (includes (permissions s) p
                  || includes (permissions s) "*"
                  || includes (permissions s) (split_head ":" p +:+ ":*"))).
  { intros p s Hcur Hlive. unfold validatePermission. unfold_M.
    by rewrite (getCurrentSession_live st s) by done. }
  assert (Hprefix : forall s ns rest, currentSession st = Some s ->
            ~ clock E (ticks st) > expiresAt s ->
            ":"%char ∉ list_ascii_of_string ns ->
            (ns +:+ ":*") ∈ permissions s ->
            (validatePermission E (ns +:+ ":" +:+ rest) st).1 = Ok true).
  { intros s ns rest Hcur Hnow Hns Hin. rewrite (Hlive _ s) by done.
    rewrite split_head_prefix by done. f_equal.
    apply orb_true_iff. right. by apply bool_decide_eq_true. }
  split.
  - intros [Hnone | (s & Hcur & Hexp)].
    + unfold validatePermission. unfold_M.
      by rewrite getCurrentSession_none.
    + destruct (getCurrentSession_expired st s Hcur Hexp) as (st' & Hget & _).
      unfold validatePermission. unfold_M. by rewrite Hget.
  - intros s Hcur Hnow. split; [|split].
    + eexists. split; [by apply Hlive|].
      intros ns Hns. rewrite (namespace_of_unique _ _ Hns).
      unfold includes. rewrite !orb_true_iff, !bool_decide_eq_true. tauto.
    + intros Hin. apply (Hprefix s "objects" "get"); try done.
      vm_compute. intros Hc. by repeat (apply elem_of_cons in Hc as [Hc|Hc]; [discriminate|]);
        apply elem_of_nil in Hc.
    + intros ns rest. by apply Hprefix.
Qed.

(** *** C6: refresh *)

(** C6. Refreshing a live session under [sid] succeeds when the entropy
    source delivers, and returns a session that differs from the stored one
    only in [accessToken], the new token, and [expiresAt], the second clock
    reading of the call plus 8 hours; the table holds the returned session
    under [sid]. *)
Theorem refreshSession_frame sid st s :
  sessions st !! sid = Some s ->
  ~ clock E (ticks st) > expiresAt s ->
  entropy_fault E (draws st) = None ->
  exists s' st',
    refreshSession E sid st = (Ok s', st')
    /\ sessionId s' = sessionId s
    /\ refreshToken s' = refreshToken s
    /\ username s' = username s
    /\ classification s' = classification s
    /\ permissions s' = permissions s
    /\ expiresAt s' = clock E (S (ticks st)) + 8 * 60 * 60 * 1000
    /\ accessToken s'
       = Some (Buffer.toString_base64url (map (entropy E (draws st)) (seq 0 48)))
    /\ sessions st' = <[sid := s']> (sessions st)
    /\ credentialsFile st' = credentialsFile st.
Proof.
  intros Hs Hlive Hent. rewrite (refreshSession_live sid st s) by done.
  rewrite Hent. simpl.
  eexists _, _. split; [reflexivity|]. repeat split; try done.
  all: by destruct (bool_decide (sessionId <$> currentSession st = Some sid)).
Qed.

(** A refresh that returns a session started from a stored, live one. *)
Lemma refreshSession_ok_inv sid st s' st' :
  refreshSession E sid st = (Ok s', st') ->
  exists s, sessions st !! sid = Some s
            /\ ~ clock E (ticks st) > expiresAt s
            /\ entropy_fault E (draws st) = None.
Proof.
  intros Hr. destruct (sessions st !! sid) as [s|] eqn:Hs.
  - exists s. split; [done|].
    destruct (decide (clock E (ticks st) > expiresAt s)) as [Hexp|Hlive].
    + rewrite (refreshSession_expired sid st s) in Hr by done. discriminate.
    + split; [done|]. rewrite (refreshSession_live sid st s) in Hr by done.
      by destruct (entropy_fault E (draws st)).
  - rewrite refreshSession_not_found in Hr by done. discriminate.
Qed.

(** *** C10: clearing the stored credentials *)

Lemma clearStoredCredentials_eq st :
  clearStoredCredentials E st =
  let st1 := set_fs_ops (S (fs_ops st)) st in
  match fs_fault E (fs_ops st) with
  | Some (code, msg) =>
      if decide (code = "ENOENT") then (Ok tt, st1)
      else (Throw (JsError ("Failed to clear credentials: " +:+ msg)), st1)
  | None =>
      match credentialsFile st with
      | Some _ => (Ok tt, set_credentialsFile None st1)
      | None => (Ok tt, st1)
      end
  end.
Proof.
  unfold clearStoredCredentials, unlink, fs_call. unfold_M. simpl.
  destruct (fs_fault E (fs_ops st)) as [[code msg]|]; simpl.
  - case_decide; subst.
    + by rewrite bool_decide_eq_true_2.
    + rewrite bool_decide_eq_false_2; [done|]. congruence.
  - by destruct (credentialsFile st).
Qed.

Lemma clearStoredCredentials_frame st :
  let st' := (clearStoredCredentials E st).2 in
  sessions st' = sessions st /\ currentSession st' = currentSession st
  /\ ticks st' = ticks st /\ draws st' = draws st /\ console st' = console st.
Proof.
  rewrite clearStoredCredentials_eq. simpl.
  destruct (fs_fault E (fs_ops st)) as [[code msg]|];
    [case_decide | destruct (credentialsFile st)]; done.
Qed.

(** The read paths look at the current session and the clock only. *)
Lemma read_paths_agree st1 st2 :
  currentSession st1 = currentSession st2 ->
  ticks st1 = ticks st2 ->
  (getCurrentSession E st1).1 = (getCurrentSession E st2).1
  /\ (getAuthenticationStatus E st1).1 = (getAuthenticationStatus E st2).1
  /\ (forall p, (validatePermission E p st1).1 = (validatePermission E p st2).1)
  /\ (getApiHeaders E st1).1 = (getApiHeaders E st2).1.
Proof.
  intros Hcur Hticks.
  unfold getAuthenticationStatus, validatePermission, getApiHeaders. unfold_M.
  destruct (currentSession st1) as [s|] eqn:H1.
  - destruct (decide (clock E (ticks st1) > expiresAt s)) as [Hexp|Hlive].
    + destruct (getCurrentSession_expired st1 s H1 Hexp) as (st1' & -> & _).
      rewrite Hticks in Hexp.
      destruct (getCurrentSession_expired st2 s (eq_sym Hcur) Hexp)
        as (st2' & -> & _).
      done.
    + rewrite (getCurrentSession_live st1 s H1 Hlive).
      rewrite Hticks in Hlive.
      rewrite (getCurrentSession_live st2 s (eq_sym Hcur) Hlive).
      unfold Date_now. simpl. rewrite Hticks.
      repeat split. destruct (accessToken s) as [token|]; [|done].
      by destruct (truthy token).
  - rewrite (getCurrentSession_none st1 H1).
    rewrite (getCurrentSession_none st2 (eq_sym Hcur)). done.
Qed.

(** C10. [clearStoredCredentials] leaves the session table and the current
    session as they were, whether it succeeds or throws, and it deletes the
    credential file when the file system does not fail. Every read path
    answers after it as it would have before it; in particular a live
    current session is still reported as authenticated and still gets its
    API headers. *)
Theorem clearStoredCredentials_keeps_sessions st :
  let st' := (clearStoredCredentials E st).2 in
  sessions st' = sessions st
  /\ currentSession st' = currentSession st
  /\ (fs_fault E (fs_ops st) = None -> credentialsFile st' = None)
  /\ (getAuthenticationStatus E st').1 = (getAuthenticationStatus E st).1
  /\ (forall p, (validatePermission E p st').1 = (validatePermission E p st).1)
  /\ (getApiHeaders E st').1 = (getApiHeaders E st).1
  /\ (forall s, currentSession st = Some s ->
       ~ clock E (ticks st) > expiresAt s ->
       (exists status, (getAuthenticationStatus E st').1 = Ok status
                       /\ isAuthenticated status = true
                       /\ as_sessionId status = Some (sessionId s))
       /\ (forall p, includes (permissions s) p = true ->
                     (validatePermission E p st').1 = Ok true)
       /\ (forall token, accessToken s = Some token -> token <> "" ->
             exists headers, (getApiHeaders E st').1 = Ok headers
               /\ headers !! 0%nat = Some ("Authorization", "Bearer " +:+ token))).
Proof.
  intros st'.
  destruct (clearStoredCredentials_frame st) as (Hs & Hc & Ht & _).
  fold st' in Hs, Hc, Ht.
  destruct (read_paths_agree st' st Hc Ht) as (_ & Hstatus & Hperm & Hhead).
  split; [done|]. split; [done|]. split.
  { intros Hfs. subst st'. rewrite clearStoredCredentials_eq. simpl.
    rewrite Hfs. by destruct (credentialsFile st) eqn:Hf. }
  split; [done|]. split; [done|]. split; [done|].
  intros s Hcur Hlive. split; [|split].
  - rewrite Hstatus. unfold getAuthenticationStatus. unfold_M.
    rewrite (getCurrentSession_live st s) by done. simpl. eauto.
  - intros p Hp. rewrite Hperm. unfold validatePermission. unfold_M.
    rewrite (getCurrentSession_live st s) by done. simpl. by rewrite Hp.
  - intros token Htok Hne. rewrite Hhead. unfold getApiHeaders. unfold_M.
    rewrite (getCurrentSession_live st s) by done. simpl. rewrite Htok.
    unfold truthy. rewrite bool_decide_eq_true_2 by done. eauto.
Qed.

(** *** C9: the current session and the table *)

Lemma current_in_table_no_current st :
  currentSession st = None -> current_in_table st.
Proof. intros H c Hc. congruence. Qed.

Lemma current_in_table_revoked sid st :
  current_in_table st -> current_in_table (revoked sid st).
Proof.
  intros Hinv c. unfold revoked.
  case_bool_decide as Hcur; [done|].
  destruct (sessions st !! sid) as [x|] eqn:Hx; simpl; [|apply Hinv].
  intros Hc. rewrite lookup_delete_ne.
  - by apply Hinv.
  - intros ->. by rewrite Hc in Hcur.
Qed.

Lemma logout_preserves sid st :
  current_in_table st -> current_in_table (logout sid st).2.
Proof.
  intros Hinv. destruct sid as [sid|].
  - destruct (decide (sid = "")) as [->|Hne].
    + apply current_in_table_no_current.
      unfold logout, revokeTokensWithUDL. unfold_M. simpl.
      destruct (currentSession st) as [c|]; simpl; [|done].
      destruct (truthy (sessionId c)); [|done].
      by destruct (sessions st !! sessionId c).
    + rewrite logout_eq by done. by apply current_in_table_revoked.
  - apply current_in_table_no_current. rewrite logout_current_eq. simpl.
    destruct (currentSession st) as [c|] eqn:Hc; [|done].
    destruct (truthy (sessionId c)); [|done].
    unfold revoked. rewrite Hc. simpl. by rewrite bool_decide_eq_true_2.
Qed.

Lemma getCurrentSession_preserves st :
  current_in_table st -> current_in_table (getCurrentSession E st).2.
Proof.
  intros Hinv. destruct (currentSession st) as [s|] eqn:Hcur.
  - destruct (decide (clock E (ticks st) > expiresAt s)) as [Hexp|Hlive].
    + destruct (getCurrentSession_expired st s Hcur Hexp) as (st' & -> & Hn & _).
      by apply current_in_table_no_current.
    + by rewrite (getCurrentSession_live st s).
  - by rewrite getCurrentSession_none.
Qed.

(** A refresh that does not hit an expired entry keeps the invariant:
    the entry is missing, live (refreshed, or the entropy source fails). *)
Lemma refreshSession_preserves sid st :
  (forall s, sessions st !! sid = Some s -> ~ clock E (ticks st) > expiresAt s) ->
  current_in_table st -> current_in_table (refreshSession E sid st).2.
Proof.
  intros Hlive Hinv. destruct (sessions st !! sid) as [s|] eqn:Hs.
  - rewrite (refreshSession_live sid st s) by auto.
    destruct (entropy_fault E (draws st)); [done|]. simpl.
    case_bool_decide as Hcur.
    + intros c [= <-]. simpl.
      destruct (currentSession st) as [c0|] eqn:Hc0; [|done].
      simpl in Hcur. injection Hcur as Hid.
      pose proof (Hinv c0 Hc0) as Hc. rewrite Hid, Hs in Hc.
      injection Hc as ->. rewrite Hid. apply lookup_insert_eq.
    + intros c Hc. simpl in *. rewrite lookup_insert_ne.
      * by apply Hinv.
      * intros ->. by rewrite Hc in Hcur.
  - by rewrite refreshSession_not_found.
Qed.

(** The defect: refreshing the current session after it has expired
    removes its table entry and leaves it current. *)
Lemma refreshSession_expired_current st s :
  currentSession st = Some s ->
  sessions st !! sessionId s = Some s ->
  clock E (ticks st) > expiresAt s ->
  let st' := (refreshSession E (sessionId s) st).2 in
  currentSession st' = Some s /\ sessions st' !! sessionId s = None.
Proof.
  intros Hcur Hs Hexp. rewrite (refreshSession_expired _ st s) by done.
  simpl. split; [done|]. apply lookup_delete_eq.
Qed.

End Sessions.

(** ** Authentication *)

Section Authentication.

Context {kdf : KDF} (E : Env).

Lemma loadCredentials_eq st :
  loadCredentials E st =
  let st1 := set_fs_ops (S (fs_ops st)) st in
  match fs_fault E (fs_ops st) with
  | Some (code, msg) =>
      if decide (code = "ENOENT") then (Ok None, st1)
      else (Throw (JsError ("Failed to load credentials: " +:+ msg)), st1)
  | None =>
      match credentialsFile st with
      | Some (Json stored) => (Ok (Some stored), st1)
      | Some (NotJson syntax_error) =>
          (Throw (JsError ("Failed to load credentials: " +:+ syntax_error)), st1)
      | None => (Ok None, st1)
      end
  end.
Proof.
  unfold loadCredentials, readFile, fs_call. unfold_M. simpl.
  destruct (fs_fault E (fs_ops st)) as [[code msg]|]; simpl.
  - destruct (decide (code = "ENOENT")) as [->|Hne].
    + by rewrite decide_True.
    + rewrite decide_False; [done|]. congruence.
  - by destruct (credentialsFile st) as [[stored|syntax_error]|].
Qed.

(** [authenticateUser] once the stored record has been loaded and the
    password verified: the identity-provider call, the session id, the
    commit of the session and the rewrite of the credential file. *)
Lemma authenticateUser_verified usr password st stored :
  fs_fault E (fs_ops st) = None ->
  credentialsFile st = Some (Json stored) ->
  sc_username stored = usr ->
  verifyPassword password (passwordHash stored) (salt stored) = Ok true ->
  authenticateUser E usr password st =
  let st1 := set_fs_ops (S (fs_ops st)) st in
  match entropy_fault E (draws st) with
  | Some msg =>
      (Throw (IdentityProviderError (JsError msg)), set_draws (S (draws st)) st1)
  | None =>
  match entropy_fault E (S (draws st)) with
  | Some msg =>
      (Throw (IdentityProviderError (JsError msg)),
       set_draws (S (S (draws st))) st1)
  | None =>
  match entropy_fault E (S (S (draws st))) with
  | Some msg => (Throw (JsError msg), set_draws (S (S (S (draws st)))) st1)
  | None =>
      let session := issued E usr stored st in
      let st2 :=
        set_ticks (S (S (ticks st)))
          (set_currentSession (Some session)
             (set_sessions (insert (sessionId session) session)
                (set_draws (S (S (S (draws st)))) st1))) in
      let record := touched stored (clock E (S (ticks st))) in
      match fs_fault E (S (fs_ops st)) with
      | Some (code, msg) =>
          (Throw (ErrnoException code msg),
           after_failed_write (write_phase E (S (fs_ops st))) record
             (set_fs_ops (S (S (fs_ops st))) st2))
      | None =>
          (Ok session,
           set_credentialsFile (Some (Json record))
             (set_fs_ops (S (S (fs_ops st))) st2))
      end
  end end end.
Proof.
  intros Hfs Hfile Husr Hpw.
  unfold authenticateUser. unfold mbind at 1. unfold M_bind at 1.
  rewrite loadCredentials_eq, Hfs. simpl. rewrite Hfile.
  rewrite bool_decide_eq_true_2 by done. simpl.
  unfold authenticateWithUDL, generateSessionId, generateApiToken, randomBytes,
    Date_now, writeFile, fs_call, IdentityProviderError.
  unfold_M. rewrite Hpw. simpl.
  destruct (entropy_fault E (draws st)); [done|]. simpl.
  destruct (entropy_fault E (S (draws st))); [done|]. simpl.
  destruct (entropy_fault E (S (S (draws st)))); [done|]. simpl.
  destruct (fs_fault E (S (fs_ops st))) as [[code msg]|]; [|done]. simpl.
  by destruct (write_phase E (S (fs_ops st))).
Qed.

(** [authenticateUser] up to the verification of the password. *)
Lemma authenticateUser_rejected usr password st :
  fs_fault E (fs_ops st) = None ->
  let st1 := set_fs_ops (S (fs_ops st)) st in
  match credentialsFile st with
  | None => authenticateUser E usr password st = (Throw NoCredentialsConfigured, st1)
  | Some (NotJson syntax_error) =>
      authenticateUser E usr password st
      = (Throw (JsError ("Failed to load credentials: " +:+ syntax_error)), st1)
  | Some (Json stored) =>
      (sc_username stored <> usr ->
       authenticateUser E usr password st = (Throw InvalidUsername, st1))
      /\ (sc_username stored = usr ->
          match verifyPassword password (passwordHash stored) (salt stored) with
          | Ok true => True
          | Ok false =>
              authenticateUser E usr password st = (Throw InvalidPassword, st1)
          | Throw e => authenticateUser E usr password st = (Throw e, st1)
          end)
  end.
Proof.
  intros Hfs st1.
  pose proof (loadCredentials_eq st) as Hload. rewrite Hfs in Hload.
  cbv zeta in Hload. fold st1 in Hload.
  destruct (credentialsFile st) as [[stored|syntax_error]|] eqn:Hfile.
  - split; intros Husr.
    + unfold authenticateUser. unfold_M. rewrite Hload. simpl.
      by rewrite bool_decide_eq_false_2.
    + destruct (verifyPassword password (passwordHash stored) (salt stored))
        as [[|]|e] eqn:Hv; [done|..];
        unfold authenticateUser; unfold_M; rewrite Hload; simpl;
        rewrite bool_decide_eq_true_2 by done; simpl; by rewrite Hv.
  - unfold authenticateUser. unfold_M. by rewrite Hload.
  - unfold authenticateUser. unfold_M. by rewrite Hload.
Qed.

(** C2. When the credential file can be read: without a stored record
    [authenticateUser] fails with [NoCredentialsConfigured]; with a record
    of another username, with [InvalidUsername]; with the right username
    and a password that verification rejects, with [InvalidPassword]; in
    these cases no session is created. With the right username and a
    password that verifies, and an environment that delivers entropy and
    accepts the write, it returns a session that expires 8 hours after the
    clock reading of the call, stores it in the table and makes it current,
    and rewrites the stored record with [lastUsed] set. *)
Theorem authenticateUser_outcomes usr password st :
  fs_fault E (fs_ops st) = None ->
  (credentialsFile st = None ->
   authenticateUser E usr password st
   = (Throw NoCredentialsConfigured, set_fs_ops (S (fs_ops st)) st))
  /\ (forall stored, credentialsFile st = Some (Json stored) ->
       (sc_username stored <> usr ->
        authenticateUser E usr password st
        = (Throw InvalidUsername, set_fs_ops (S (fs_ops st)) st))
       /\ (sc_username stored = usr ->
           verifyPassword password (passwordHash stored) (salt stored) = Ok false ->
           authenticateUser E usr password st
           = (Throw InvalidPassword, set_fs_ops (S (fs_ops st)) st))
       /\ (sc_username stored = usr ->
           verifyPassword password (passwordHash stored) (salt stored) = Ok true ->
           entropy_fault E (draws st) = None ->
           entropy_fault E (S (draws st)) = None ->
           entropy_fault E (S (S (draws st))) = None ->
           fs_fault E (S (fs_ops st)) = None ->
           exists session st',
             authenticateUser E usr password st = (Ok session, st')
             /\ expiresAt session = clock E (ticks st) + 8 * 60 * 60 * 1000
             /\ username session = usr
             /\ classification session = sc_classification stored
             /\ permissions session
                = getPermissionsForClassification (sc_classification stored)
             /\ sessions st' = <[sessionId session := session]> (sessions st)
             /\ currentSession st' = Some session
             /\ credentialsFile st'
                = Some (Json (touched stored (clock E (S (ticks st))))))).
Proof.
  intros Hfs. pose proof (authenticateUser_rejected usr password st Hfs) as Hrej.
  simpl in Hrej. split.
  - intros Hnone. by rewrite Hnone in Hrej.
  - intros stored Hfile. rewrite Hfile in Hrej. destruct Hrej as [Hname Hpw].
    split; [done|]. split.
    + intros Husr Hfalse. specialize (Hpw Husr). by rewrite Hfalse in Hpw.
    + intros Husr Htrue He0 He1 He2 Hw.
      rewrite (authenticateUser_verified usr password st stored) by done.
      rewrite He0, He1, He2, Hw. simpl.
      eexists _, _. split; [reflexivity|]. by repeat split.
Qed.

(** C3 (as amended). After the password has been verified: if the
    identity-provider call fails, or the generation of the session id,
    [authenticateUser] fails and changes neither the session table nor the
    current session (nor, having written nothing yet, the credential
    file); if the rewrite of the stored record fails, [authenticateUser]
    fails with the file-system error after the new session has been stored
    in the table and made current. *)
Theorem authenticateUser_late_failure usr password st stored :
  fs_fault E (fs_ops st) = None ->
  credentialsFile st = Some (Json stored) ->
  sc_username stored = usr ->
  verifyPassword password (passwordHash stored) (salt stored) = Ok true ->
  (is_Some (entropy_fault E (draws st))
   \/ is_Some (entropy_fault E (S (draws st))) ->
   exists cause st',
     authenticateUser E usr password st = (Throw (IdentityProviderError cause), st')
     /\ sessions st' = sessions st
     /\ currentSession st' = currentSession st
     /\ credentialsFile st' = credentialsFile st)
  /\ (entropy_fault E (draws st) = None ->
      entropy_fault E (S (draws st)) = None ->
      forall msg, entropy_fault E (S (S (draws st))) = Some msg ->
      exists st',
        authenticateUser E usr password st = (Throw (JsError msg), st')
        /\ sessions st' = sessions st
        /\ currentSession st' = currentSession st
        /\ credentialsFile st' = credentialsFile st)
  /\ (entropy_fault E (draws st) = None ->
      entropy_fault E (S (draws st)) = None ->
      entropy_fault E (S (S (draws st))) = None ->
      forall code msg, fs_fault E (S (fs_ops st)) = Some (code, msg) ->
      exists session st',
        authenticateUser E usr password st = (Throw (ErrnoException code msg), st')
        /\ session = issued E usr stored st
        /\ sessions st' = <[sessionId session := session]> (sessions st)
        /\ currentSession st' = Some session).
Proof.
  intros Hfs Hfile Husr Hpw.
  rewrite (authenticateUser_verified usr password st stored) by done.
  simpl. split; [|split].
  - intros Hfault.
    destruct (entropy_fault E (draws st)) as [m0|] eqn:H0.
    { eexists _, _. split; [reflexivity|]. done. }
    destruct Hfault as [[? [=]] | [m1 H1]]. rewrite H1.
    eexists _, _. split; [reflexivity|]. done.
  - intros -> -> msg ->. eexists. split; [reflexivity|]. done.
  - intros -> -> -> code msg ->.
    eexists _, _. split; [reflexivity|].
    by destruct (write_phase E (S (fs_ops st))).
Qed.

(** What the failed rewrite of [authenticateUser] leaves in the credential
    file depends on how far the write got: the file is as before only when
    it could not be opened; otherwise the stored record is lost (the file
    is no longer JSON) or already carries the new [lastUsed]. *)
Lemma authenticateUser_failed_write_file usr password st stored code msg :
  fs_fault E (fs_ops st) = None ->
  credentialsFile st = Some (Json stored) ->
  sc_username stored = usr ->
  verifyPassword password (passwordHash stored) (salt stored) = Ok true ->
  entropy_fault E (draws st) = None ->
  entropy_fault E (S (draws st)) = None ->
  entropy_fault E (S (S (draws st))) = None ->
  fs_fault E (S (fs_ops st)) = Some (code, msg) ->
  credentialsFile (authenticateUser E usr password st).2
  = match write_phase E (S (fs_ops st)) with
    | BeforeOpen => Some (Json stored)
    | DuringWrite syntax_error => Some (NotJson syntax_error)
    | AtClose => Some (Json (touched stored (clock E (S (ticks st)))))
    end.
Proof.
  intros Hfs Hfile Husr Hpw He0 He1 He2 Hw.
  rewrite (authenticateUser_verified usr password st stored) by done.
  rewrite He0, He1, He2, Hw. simpl.
  by destruct (write_phase E (S (fs_ops st))).
Qed.

(** Whatever its outcome, [authenticateUser] either leaves the table and
    the current session alone or has stored a session and made it
    current. *)
Lemma authenticateUser_state usr password st :
  let st' := (authenticateUser E usr password st).2 in
  (sessions st' = sessions st /\ currentSession st' = currentSession st)
  \/ (exists session,
        sessions st' = <[sessionId session := session]> (sessions st)
        /\ currentSession st' = Some session).
Proof.
  cbv zeta. destruct (fs_fault E (fs_ops st)) as [[code msg]|] eqn:Hfs.
  - left. unfold authenticateUser. unfold_M.
    rewrite loadCredentials_eq, Hfs. simpl.
    by destruct (decide (code = "ENOENT")).
  - pose proof (authenticateUser_rejected usr password st Hfs) as Hrej.
    simpl in Hrej.
    destruct (credentialsFile st) as [[stored|syntax_error]|] eqn:Hfile;
      [|left; by rewrite Hrej..].
    destruct Hrej as [Hname Hpw].
    destruct (decide (sc_username stored = usr)) as [Husr|Husr];
      [|left; by rewrite Hname].
    specialize (Hpw Husr).
    destruct (verifyPassword password (passwordHash stored) (salt stored))
      as [[|]|e] eqn:Hv; [|left; by rewrite Hpw..].
    rewrite (authenticateUser_verified usr password st stored) by done.
    simpl.
    destruct (entropy_fault E (draws st)); [by left|].
    destruct (entropy_fault E (S (draws st))); [by left|].
    destruct (entropy_fault E (S (S (draws st)))); [by left|].
    right. exists (issued E usr stored st).
    destruct (fs_fault E (S (fs_ops st))) as [[code msg]|]; [|done].
    by destruct (write_phase E (S (fs_ops st))).
Qed.

Lemma authenticateUser_preserves usr password st :
  current_in_table st -> current_in_table (authenticateUser E usr password st).2.
Proof.
  intros Hinv.
  destruct (authenticateUser_state usr password st)
    as [[Hs Hc] | (session & Hs & Hc)]; intros c Hcur.
  - rewrite Hs. apply Hinv. by rewrite <- Hc.
  - rewrite Hc in Hcur. injection Hcur as <-. rewrite Hs.
    apply lookup_insert_eq.
Qed.

End Authentication.

(** ** The model on concrete inputs *)

Example store_alice :
  storeCredentials (kdf := toy_kdf) (calm_env 1000) alice initial_state
  = (Ok tt, alice_state).
Proof. vm_compute. reflexivity. Qed.

Example authenticate_alice :
  authenticateUser (kdf := toy_kdf) (calm_env 1000) "alice" "secretpw" alice_state
  = (Ok alice_session, logged_in).
Proof. vm_compute. reflexivity. Qed.

Example authenticate_alice_late :
  authenticateUser (kdf := toy_kdf) late_env "alice" "secretpw" alice_state
  = (Ok alice_session, logged_in).
Proof. vm_compute. reflexivity. Qed.

(** *** C2 on concrete inputs *)

Lemma authenticateUser_outcomes_witness :
  exists session st',
    authenticateUser (kdf := toy_kdf) (calm_env 1000) "alice" "secretpw" alice_state
    = (Ok session, st')
    /\ expiresAt session = 1000 + 8 * 60 * 60 * 1000
    /\ currentSession st' = Some session
    /\ credentialsFile st' = Some (Json (touched stored_alice 1000)).
Proof.
  destruct (authenticateUser_outcomes (kdf := toy_kdf) (calm_env 1000)
              "alice" "secretpw" alice_state eq_refl) as [_ Hstored].
  destruct (Hstored stored_alice eq_refl) as (_ & _ & Hok).
  destruct Hok as (session & st' & Hrun & Hexp & _ & _ & _ & _ & Hcur & Hfile);
    try reflexivity.
  exists session, st'. repeat split; assumption.
Defined.

Example authenticate_rejections :
  (authenticateUser (kdf := toy_kdf) (calm_env 1000) "alice" "secretpw"
     initial_state).1 = Throw NoCredentialsConfigured
  /\ (authenticateUser (kdf := toy_kdf) (calm_env 1000) "bob" "secretpw"
        alice_state).1 = Throw InvalidUsername
  /\ (authenticateUser (kdf := toy_kdf) (calm_env 1000) "alice" "wrongpw"
        alice_state).1 = Throw InvalidPassword.
Proof. repeat split; vm_compute; reflexivity. Qed.

(** *** C3 on concrete inputs *)

(** On a full disk the rewrite of [authenticateUser] fails after it has
    truncated the file: the call throws, the session is current, the stored
    record is lost, and the next login cannot load it. *)
Example authenticate_alice_full_disk :
  let run := authenticateUser (kdf := toy_kdf) full_disk_env "alice" "secretpw"
               alice_state in
  run.1 = Throw (ErrnoException "ENOSPC" "ENOSPC: no space left on device")
  /\ currentSession run.2 = Some alice_session
  /\ credentialsFile run.2 = Some (NotJson "Unexpected end of JSON input")
  /\ (authenticateUser (kdf := toy_kdf) full_disk_env "alice" "secretpw" run.2).1
     = Throw (JsError "Failed to load credentials: Unexpected end of JSON input").
Proof. repeat split; vm_compute; reflexivity. Qed.

(** C3 as stated fails: alice's password verifies, the rewrite of the
    credential file is refused and [authenticateUser] throws, and yet the
    call has put a session in the table and made it current. *)
Lemma authenticateUser_commits_before_write :
  verifyPassword (kdf := toy_kdf) "secretpw" (passwordHash stored_alice)
                 (salt stored_alice) = Ok true
  /\ exists st',
       authenticateUser (kdf := toy_kdf) write_fault_env "alice" "secretpw"
                        alice_state
       = (Throw (ErrnoException "EACCES" "EACCES: permission denied"), st')
       /\ currentSession alice_state = None
       /\ currentSession st' = Some alice_session
       /\ sessions alice_state !! sessionId alice_session = None
       /\ sessions st' !! sessionId alice_session = Some alice_session.
Proof.
  split; [reflexivity|].
  eexists. split; [vm_compute; reflexivity|].
  repeat split; vm_compute; reflexivity.
Qed.

Lemma authenticateUser_late_failure_witness :
  (exists cause st',
     authenticateUser (kdf := toy_kdf) dry_env "alice" "secretpw" alice_state
     = (Throw (IdentityProviderError cause), st')
     /\ sessions st' = sessions alice_state
     /\ currentSession st' = currentSession alice_state)
  /\ (exists st',
        authenticateUser (kdf := toy_kdf) dry_id_env "alice" "secretpw" alice_state
        = (Throw (JsError "entropy source unavailable"), st')
        /\ sessions st' = sessions alice_state
        /\ currentSession st' = currentSession alice_state)
  /\ (exists st',
        authenticateUser (kdf := toy_kdf) write_fault_env "alice" "secretpw"
                         alice_state
        = (Throw (ErrnoException "EACCES" "EACCES: permission denied"), st')
        /\ currentSession st' = Some (issued write_fault_env "alice" stored_alice
                                             alice_state)).
Proof.
  split; [|split].
  - destruct (authenticateUser_late_failure (kdf := toy_kdf) dry_env
                "alice" "secretpw" alice_state stored_alice
                eq_refl eq_refl eq_refl eq_refl) as (Hidp & _ & _).
    destruct Hidp as (cause & st' & Hrun & Hs & Hc & _).
    { left. eexists. reflexivity. }
    exists cause, st'. repeat split; assumption.
  - destruct (authenticateUser_late_failure (kdf := toy_kdf) dry_id_env
                "alice" "secretpw" alice_state stored_alice
                eq_refl eq_refl eq_refl eq_refl) as (_ & Hid & _).
    destruct (Hid eq_refl eq_refl "entropy source unavailable" eq_refl)
      as (st' & Hrun & Hs & Hc & _).
    exists st'. repeat split; assumption.
  - destruct (authenticateUser_late_failure (kdf := toy_kdf) write_fault_env
                "alice" "secretpw" alice_state stored_alice
                eq_refl eq_refl eq_refl eq_refl) as (_ & _ & Hwrite).
    destruct (Hwrite eq_refl eq_refl eq_refl
                "EACCES" "EACCES: permission denied" eq_refl)
      as (session & st' & Hrun & -> & _ & Hc).
    exists st'. split; assumption.
Defined.

(** *** C4 on concrete inputs *)


(** The scenario of the specification: after a logout the status is
    unauthenticated. *)
Example logout_then_status :
  (getAuthenticationStatus (calm_env 1000)
     (logout None logged_in).2).1 = Ok unauthenticated.
Proof. vm_compute. reflexivity. Qed.

(** *** C5 on concrete inputs *)

Lemma validatePermission_spec_witness :
  (validatePermission (calm_env 1000) "objects:get" initial_state).1 = Ok false
  /\ (validatePermission (calm_env 1000) "objects:get" logged_in).1 = Ok true
  /\ (validatePermission (calm_env 1000) "objects:get"
        (state_with_session (session_with "unclassified" ["objects:*"]))).1
     = Ok true
  /\ (validatePermission (calm_env 1000) "objects:get"
        (state_with_session (session_with "unclassified" ["objects:get:*"]))).1
     = Ok false.
Proof.
  split; [|split; [|split]].
  - apply (proj1 (validatePermission_spec (calm_env 1000)
                    "objects:get" initial_state)).
    left. reflexivity.
  - destruct (proj2 (validatePermission_spec (calm_env 1000)
                       "objects:get" logged_in) alice_session eq_refl)
      as ((b & Hb & Hiff) & _); [discriminate|].
    rewrite Hb. f_equal. apply (Hiff "objects").
    + split; [|right; by exists "get"].
      vm_compute. intros Hc.
      by repeat (apply elem_of_cons in Hc as [Hc|Hc]; [discriminate|]);
        apply elem_of_nil in Hc.
    + left. apply list_elem_of_In. simpl. auto.
  - apply (proj2 (validatePermission_spec (calm_env 1000) "objects:get"
                    (state_with_session
                       (session_with "unclassified" ["objects:*"])))
             (session_with "unclassified" ["objects:*"]) eq_refl);
      [discriminate|].
    apply list_elem_of_In. simpl. auto.
  - destruct (proj2 (validatePermission_spec (calm_env 1000) "objects:get"
                       (state_with_session
                          (session_with "unclassified" ["objects:get:*"])))
                (session_with "unclassified" ["objects:get:*"]) eq_refl)
      as ((b & Hb & Hiff) & _); [discriminate|].
    rewrite Hb. f_equal. destruct b; [|reflexivity]. exfalso.
    assert (Hns : namespace_of "objects:get" "objects").
    { split; [|right; by exists "get"].
      vm_compute. intros Hc.
      by repeat (apply elem_of_cons in Hc as [Hc|Hc]; [discriminate|]);
        apply elem_of_nil in Hc. }
    destruct (proj1 (Hiff "objects" Hns) eq_refl) as [Hc | [Hc | Hc]];
      apply list_elem_of_In in Hc; simpl in Hc;
      destruct Hc as [Hc|[]]; discriminate Hc.
Defined.

(** The examples of the specification: [objects:get] is granted to a
    ['cui'] session and to a session holding the literal [objects:*];
    [spacefence:read] is not granted to an ['unclassified'] session. *)
Example validatePermission_examples :
  (validatePermission (calm_env 1000) "objects:get"
     (state_with_session
        (session_with "cui" (getPermissionsForClassification "cui")))).1
  = Ok true
  /\ (validatePermission (calm_env 1000) "objects:get"
        (state_with_session (session_with "unclassified" ["objects:*"]))).1
     = Ok true
  /\ (validatePermission (calm_env 1000) "spacefence:read"
        (state_with_session
           (session_with "unclassified"
              (getPermissionsForClassification "unclassified")))).1
     = Ok false
  /\ (validatePermission (calm_env 1000) "anything:at-all"
        (state_with_session (session_with "unclassified" ["*"]))).1
     = Ok true.
Proof. repeat split; vm_compute; reflexivity. Qed.

(** *** C6 on concrete inputs *)

Lemma refreshSession_frame_witness :
  exists s' st',
    refreshSession (calm_env 1000) (sessionId alice_session)
                   logged_in = (Ok s', st')
    /\ sessionId s' = sessionId alice_session
    /\ refreshToken s' = refreshToken alice_session
    /\ permissions s' = permissions alice_session
    /\ expiresAt s' = 1000 + 8 * 60 * 60 * 1000.
Proof.
  destruct (refreshSession_frame (calm_env 1000)
              (sessionId alice_session) logged_in alice_session)
    as (s' & st' & Hrun & Hid & Hrt & _ & _ & Hperm & Hexp & _);
    [reflexivity | discriminate | reflexivity |].
  exists s', st'. repeat split; assumption.
Defined.

(** *** C10 on concrete inputs *)

Lemma clearStoredCredentials_keeps_sessions_witness :
  let st' := (clearStoredCredentials (calm_env 1000) logged_in).2 in
  credentialsFile st' = None
  /\ (exists status, (getAuthenticationStatus (calm_env 1000) st').1 = Ok status
                     /\ isAuthenticated status = true)
  /\ (validatePermission (calm_env 1000) "objects:get" st').1 = Ok true
  /\ (exists headers, (getApiHeaders (calm_env 1000) st').1 = Ok headers).
Proof.
  destruct (clearStoredCredentials_keeps_sessions (calm_env 1000)
              logged_in) as (_ & _ & Hfile & _ & _ & _ & Hlive).
  destruct (Hlive alice_session eq_refl) as (Hstatus & Hperm & Hhead);
    [discriminate|].
  split; [exact (Hfile eq_refl)|]. split; [|split].
  - destruct Hstatus as (status & Hrun & Hauth & _). exists status. by split.
  - apply Hperm. reflexivity.
  - destruct (Hhead _ eq_refl) as (headers & Hrun & _); [discriminate|].
    by exists headers.
Defined.

(** *** C9 on concrete inputs *)

(** C9, the failing case. After alice has authenticated, her session is
    current and in the table. Once it has expired, [refreshSession] on its
    id fails with [SessionExpired] and removes the table entry, but leaves
    the session current: the current session is no longer in the table. *)
Theorem refresh_of_expired_current_dangles :
  current_in_table logged_in
  /\ (refreshSession late_env (sessionId alice_session)
                     logged_in).1 = Throw SessionExpired
  /\ let st' := (refreshSession late_env
                   (sessionId alice_session) logged_in).2 in
     currentSession st' = Some alice_session
     /\ sessions st' !! sessionId alice_session = None
     /\ ~ current_in_table st'.
Proof.
  split; [|split].
  - intros c [= <-]. vm_compute. reflexivity.
  - vm_compute. reflexivity.
  - destruct (refreshSession_expired_current late_env
                logged_in alice_session) as [Hc Hs]; try reflexivity.
    split; [exact Hc|]. split; [exact Hs|].
    intros Hinv. specialize (Hinv alice_session Hc). rewrite Hs in Hinv.
    discriminate.
Qed.

(** With a clock that is set back afterwards, the session that is no
    longer in the table is reported as authenticated again. *)
Example dangling_session_resurfaces :
  let back_env :=
    env_with (fun k => if (k =? 3)%nat then 40000000 else 1000)
             (fun _ => None) (fun _ => None) in
  let st' := (refreshSession back_env
                (sessionId alice_session) logged_in).2 in
  sessions st' = ∅
  /\ (getCurrentSession back_env st').1 = Ok (Some alice_session).
Proof. split; vm_compute; reflexivity. Qed.

(** * Further properties of the authenticator *)

(** ** Stored credentials *)

Lemma hex_of_byte_digits b :
  forallb (fun c => bool_decide (is_Some (Buffer.unhex c))) (Buffer.hex_of_byte b)
  = true.
Proof. destruct b; reflexivity. Qed.

(** The hexadecimal text of a buffer is well formed for its length. *)
Lemma is_hex_toString_hex buf :
  Buffer.is_hex_of_length (length buf) (Buffer.toString_hex buf) = true.
Proof.
  unfold Buffer.is_hex_of_length. apply andb_true_intro. split.
  - apply bool_decide_eq_true. apply toString_hex_length.
  - unfold Buffer.toString_hex. rewrite list_ascii_of_string_of_list_ascii.
    induction buf as [|b buf IH]; [done|].
    change (flat_map Buffer.hex_of_byte (b :: buf))
      with (Buffer.hex_of_byte b ++ flat_map Buffer.hex_of_byte buf)%list.
    rewrite forallb_app, hex_of_byte_digits. exact IH.
Qed.

Section Storage.

Context {kdf : KDF} (E : Env).

Lemma storeCredentials_eq credentials st :
  storeCredentials E credentials st =
  match fs_fault E (fs_ops st) with
  | Some (code, msg) =>
      (Throw (JsError ("Failed to create credentials directory: " +:+ msg)),
       set_fs_ops (S (fs_ops st)) st)
  | None =>
      match entropy_fault E (draws st) with
      | Some msg =>
          (Throw (JsError msg),
           set_draws (S (draws st)) (set_fs_ops (S (fs_ops st)) st))
      | None =>
          let st1 :=
            set_ticks (S (ticks st))
              (set_draws (S (draws st)) (set_fs_ops (S (S (fs_ops st))) st)) in
          match fs_fault E (S (fs_ops st)) with
          | Some (code, msg) =>
              (Throw (JsError ("Failed to store credentials: " +:+ msg)),
               after_failed_write (write_phase E (S (fs_ops st)))
                 (fresh_record E credentials st) st1)
          | None =>
              (Ok tt,
               set_credentialsFile (Some (Json (fresh_record E credentials st)))
                 st1)
          end
      end
  end.
Proof.
  unfold storeCredentials, ensureCredentialsDir, mkdir, fs_call, hashPassword,
    randomBytes, Date_now, writeFile, fs_call, fresh_record.
  unfold_M. simpl.
  destruct (fs_fault E (fs_ops st)) as [[code msg]|]; [done|]. simpl.
  destruct (entropy_fault E (draws st)); [done|]. simpl.
  destruct (fs_fault E (S (fs_ops st))) as [[code msg]|]; [|done]. simpl.
  by destruct (write_phase E (S (fs_ops st))).
Qed.

(** X1. When the file system and the entropy source do not fail,
    [storeCredentials] succeeds and the credential file then holds one
    record, whatever it held before: the given username and classification,
    the given endpoint or the default one when none (or the empty string)
    is given, the clock reading as [createdAt], no [lastUsed], a hash of
    128 and a salt of 64 hexadecimal digits, against which the given
    password verifies. Sessions are not touched. *)
Theorem storeCredentials_writes_record credentials st :
  fs_fault E (fs_ops st) = None ->
  fs_fault E (S (fs_ops st)) = None ->
  entropy_fault E (draws st) = None ->
  exists stored st',
    storeCredentials E credentials st = (Ok tt, st')
    /\ credentialsFile st' = Some (Json stored)
    /\ sc_username stored = uc_username credentials
    /\ sc_classification stored = uc_classification credentials
    /\ apiEndpoint stored
       = Some (match uc_apiEndpoint credentials with
               | Some url => if decide (url = "") then DEFAULT_API_ENDPOINT else url
               | None => DEFAULT_API_ENDPOINT
               end)
    /\ createdAt stored = clock E (ticks st)
    /\ lastUsed stored = None
    /\ Buffer.is_hex_of_length 64 (passwordHash stored) = true
    /\ Buffer.is_hex_of_length 32 (salt stored) = true
    /\ verifyPassword (uc_password credentials) (passwordHash stored) (salt stored)
       = Ok true
    /\ sessions st' = sessions st
    /\ currentSession st' = currentSession st.
Proof.
  intros Hd Hw He. rewrite storeCredentials_eq, Hd, He. simpl. rewrite Hw.
  exists (fresh_record E credentials st). eexists.
  split; [reflexivity|]. split; [reflexivity|].
  assert (Hlen : length (scrypt (uc_password credentials)
                           (map (entropy E (draws st)) (seq 0 32)) 64) = 64%nat)
    by apply scrypt_length.
  unfold fresh_record. cbn [sc_username sc_classification apiEndpoint createdAt
    lastUsed passwordHash salt].
  split; [done|]. split; [done|]. split.
  { destruct (uc_apiEndpoint credentials) as [url|]; [|done].
    unfold js_or, truthy. destruct (decide (url = "")) as [->|Hne]; [done|].
    by rewrite bool_decide_eq_true_2. }
  split; [done|]. split; [done|]. split.
  { rewrite <- Hlen at 1. apply is_hex_toString_hex. }
  split.
  { apply (is_hex_toString_hex (map (entropy E (draws st)) (seq 0 32))). }
  split; [|done].
  rewrite verifyPassword_eq by (by rewrite from_hex_toString_hex).
  rewrite !from_hex_toString_hex. by rewrite bool_decide_eq_true_2.
Qed.

(** X3. [storeCredentials] reports a failure to create the directory as
    ["Failed to create credentials directory: ..."], before any salt is
    drawn and with the credential file as it was. It reports a failure to
    write the file as ["Failed to store credentials: ..."]; the file is
    then as it was only if it could not be opened. A write that fails
    after the file has been opened, and so truncated, has destroyed the
    record that was stored: the file is no longer JSON, and the next
    [loadCredentials] that can read it throws
    ["Failed to load credentials: ..."]. A write that fails at the close
    has already replaced the record by the new one. *)
Theorem storeCredentials_failures credentials st :
  (forall code msg, fs_fault E (fs_ops st) = Some (code, msg) ->
   exists st',
     storeCredentials E credentials st
     = (Throw (JsError ("Failed to create credentials directory: " +:+ msg)), st')
     /\ credentialsFile st' = credentialsFile st
     /\ draws st' = draws st)
  /\ (forall code msg,
        fs_fault E (fs_ops st) = None ->
        entropy_fault E (draws st) = None ->
        fs_fault E (S (fs_ops st)) = Some (code, msg) ->
        exists st',
          storeCredentials E credentials st
          = (Throw (JsError ("Failed to store credentials: " +:+ msg)), st')
          /\ credentialsFile st'
             = match write_phase E (S (fs_ops st)) with
               | BeforeOpen => credentialsFile st
               | DuringWrite syntax_error => Some (NotJson syntax_error)
               | AtClose => Some (Json (fresh_record E credentials st))
               end
          /\ (forall syntax_error,
                write_phase E (S (fs_ops st)) = DuringWrite syntax_error ->
                fs_fault E (fs_ops st') = None ->
                (loadCredentials E st').1
                = Throw (JsError ("Failed to load credentials: "
                                  +:+ syntax_error)))).
Proof.
  split.
  - intros code msg Hd. rewrite storeCredentials_eq, Hd.
    eexists. split; [reflexivity|]. done.
  - intros code msg Hd He Hw. rewrite storeCredentials_eq, Hd, He. simpl.
    rewrite Hw. eexists. split; [reflexivity|]. split.
    + by destruct (write_phase E (S (fs_ops st))).
    + intros syntax_error Hphase Hread. rewrite loadCredentials_eq.
      rewrite Hphase in Hread |- *. simpl in Hread. simpl.
      rewrite Hread. reflexivity.
Qed.

(** X4. [loadCredentials] returns the stored record; it returns [null],
    and does not throw, when the file is missing (error code [ENOENT]);
    every other file-system error, and the error of [JSON.parse] on a file
    that is not JSON, is rethrown as ["Failed to load credentials: ..."].
    It changes neither the file nor the sessions. *)
Theorem loadCredentials_outcomes st :
  let st' := (loadCredentials E st).2 in
  (credentialsFile st' = credentialsFile st
   /\ sessions st' = sessions st /\ currentSession st' = currentSession st)
  /\ (fs_fault E (fs_ops st) = None ->
      (loadCredentials E st).1
      = match credentialsFile st with
        | Some (Json stored) => Ok (Some stored)
        | Some (NotJson syntax_error) =>
            Throw (JsError ("Failed to load credentials: " +:+ syntax_error))
        | None => Ok None
        end)
  /\ (forall msg, fs_fault E (fs_ops st) = Some ("ENOENT", msg) ->
      (loadCredentials E st).1 = Ok None)
  /\ (forall code msg, fs_fault E (fs_ops st) = Some (code, msg) ->
      code <> "ENOENT" ->
      (loadCredentials E st).1
      = Throw (JsError ("Failed to load credentials: " +:+ msg))).
Proof.
  rewrite loadCredentials_eq. simpl.
  split; [|split; [|split]].
  - destruct (fs_fault E (fs_ops st)) as [[code msg]|].
    + by destruct (decide (code = "ENOENT")).
    + destruct (credentialsFile st) as [[stored|syntax_error]|] eqn:Hfile;
        simpl; by rewrite ?Hfile.
  - intros ->. by destruct (credentialsFile st) as [[stored|syntax_error]|].
  - by intros msg ->.
  - intros code msg -> Hne. by rewrite decide_False.
Qed.

(** X2. Storing credentials and then authenticating with the same username
    and password succeeds, in an environment without faults: the session
    carries the stored username and classification and the permissions the
    catalog gives that classification, and expires 8 hours after the clock
    reading taken at its creation. *)
Theorem store_then_authenticate credentials st :
  (forall k, fs_fault E k = None) ->
  (forall k, entropy_fault E k = None) ->
  exists st1 session st2,
    storeCredentials E credentials st = (Ok tt, st1)
    /\ authenticateUser E (uc_username credentials) (uc_password credentials) st1
       = (Ok session, st2)
    /\ username session = uc_username credentials
    /\ classification session = uc_classification credentials
    /\ permissions session
       = getPermissionsForClassification (uc_classification credentials)
    /\ expiresAt session = clock E (S (ticks st)) + 8 * 60 * 60 * 1000
    /\ currentSession st2 = Some session
    /\ sessions st2 !! sessionId session = Some session.
Proof.
  intros Hfs Hent.
  set (stored := fresh_record E credentials st).
  set (st1 := set_credentialsFile (Some (Json stored))
                (set_ticks (S (ticks st))
                   (set_draws (S (draws st))
                      (set_fs_ops (S (S (fs_ops st))) st)))).
  assert (Hstore : storeCredentials E credentials st = (Ok tt, st1)).
  { rewrite storeCredentials_eq, !Hfs, Hent. reflexivity. }
  assert (Hverify : verifyPassword (uc_password credentials) (passwordHash stored)
                      (salt stored) = Ok true).
  { subst stored. unfold fresh_record. cbn [passwordHash salt].
    rewrite verifyPassword_eq
      by (by rewrite from_hex_toString_hex, scrypt_length).
    rewrite !from_hex_toString_hex. by rewrite bool_decide_eq_true_2. }
  pose proof (authenticateUser_verified E (uc_username credentials)
                (uc_password credentials) st1 stored (Hfs _) eq_refl eq_refl
                Hverify) as Hauth.
  rewrite !Hent, Hfs in Hauth. cbv zeta in Hauth.
  exists st1. eexists _, _. split; [exact Hstore|]. split; [exact Hauth|].
  simpl. repeat split. apply lookup_insert_eq.
Qed.

End Storage.

(** ** Logging out *)

Section Logout.

Context (E : Env).

(** What [logout] leaves of the table: an entry that is there afterwards
    was there before. *)
Lemma logout_sessions_subset sid st k s :
  sessions (logout sid st).2 !! k = Some s -> sessions st !! k = Some s.
Proof.
  assert (Hrev : forall x, sessions (revoked x st) !! k = Some s ->
                           sessions st !! k = Some s).
  { intros x. unfold revoked.
    destruct (sessions st !! x) as [y|] eqn:Hy;
      destruct (bool_decide (sessionId <$> currentSession st = Some x));
      simpl; try done; intros H;
      apply lookup_delete_Some in H as [_ H]; done. }
  destruct sid as [sid|].
  - destruct (decide (sid = "")) as [->|Hne].
    + unfold logout, revokeTokensWithUDL. unfold_M. simpl.
      destruct (currentSession st) as [c|]; simpl; [|done].
      destruct (truthy (sessionId c)); [|done].
      destruct (sessions st !! sessionId c); simpl; [|done].
      intros H. by apply lookup_delete_Some in H as [_ H].
    + rewrite logout_eq by done. apply Hrev.
  - rewrite logout_current_eq. simpl.
    destruct (currentSession st) as [c|]; [|done].
    destruct (truthy (sessionId c)); [apply Hrev | done].
Qed.

(** X5. [logout()] without an id never throws. Afterwards there is no
    current session, the table has no entry under the id of the session
    that was current (when that id is not the empty string, which the
    code takes for a missing id), every other entry is as before, and the
    credential file is untouched. *)
Theorem logout_clears_current st :
  exists st',
    logout None st = (Ok tt, st')
    /\ currentSession st' = None
    /\ (forall c, currentSession st = Some c -> sessionId c <> "" ->
        sessions st' !! sessionId c = None)
    /\ (forall k, sessionId <$> currentSession st <> Some k ->
        sessions st' !! k = sessions st !! k)
    /\ credentialsFile st' = credentialsFile st.
Proof.
  rewrite logout_current_eq. eexists. split; [reflexivity|].
  destruct (currentSession st) as [c|] eqn:Hc; simpl.
  - unfold truthy. destruct (decide (sessionId c = "")) as [Hid|Hid].
    + rewrite bool_decide_eq_false_2 by (by intros ?). simpl.
      split; [done|]. split; [by intros ? [= ->]|]. done.
    + rewrite bool_decide_eq_true_2 by done. unfold revoked. rewrite Hc. simpl.
      rewrite bool_decide_eq_true_2 by done.
      destruct (sessions st !! sessionId c) as [x|] eqn:Hx; simpl.
      * split; [done|]. split; [|split; [|done]].
        -- intros ? [= <-] _. apply lookup_delete_eq.
        -- intros k Hk. apply lookup_delete_ne. congruence.
      * split; [done|]. split; [|done]. by intros ? [= <-] _.
  - split; [done|]. split; [done|]. done.
Qed.

(** X6. [logout(sid)] with a non-empty id never throws and removes the
    table entry under [sid], if any, and no other. The current session is
    cleared when its id is [sid] and kept otherwise. *)
Theorem logout_by_id sid st :
  sid <> "" ->
  exists st',
    logout (Some sid) st = (Ok tt, st')
    /\ sessions st' = delete sid (sessions st)
    /\ currentSession st'
       = (if bool_decide (sessionId <$> currentSession st = Some sid)
          then None else currentSession st)
    /\ credentialsFile st' = credentialsFile st.
Proof.
  intros Hsid. rewrite logout_eq by done. eexists. split; [reflexivity|].
  unfold revoked.
  destruct (sessions st !! sid) as [x|] eqn:Hx;
    destruct (bool_decide (sessionId <$> currentSession st = Some sid));
    simpl; repeat split; by rewrite ?delete_id.
Qed.

(** X7. [logout] is idempotent: a second call with the same argument
    succeeds and changes nothing. *)
Theorem logout_idempotent sid st :
  logout sid (logout sid st).2 = (Ok tt, (logout sid st).2).
Proof.
  assert (Hrev : forall x, x <> "" ->
            logout (Some x) (revoked x st) = (Ok tt, revoked x st)).
  { intros x Hx. rewrite logout_eq by done. f_equal.
    unfold revoked at 1.
    assert (Hgone : sessions (revoked x st) !! x = None).
    { unfold revoked.
      destruct (sessions st !! x) as [y|] eqn:Hy;
        destruct (bool_decide (sessionId <$> currentSession st = Some x));
        simpl; by rewrite ?lookup_delete_eq. }
    rewrite Hgone.
    rewrite bool_decide_eq_false_2; [done|].
    unfold revoked.
    case_bool_decide as Hcur;
      destruct (sessions st !! x); simpl; try done. }
  destruct sid as [sid|].
  - destruct (decide (sid = "")) as [->|Hne].
    + unfold logout at 2 3. unfold revokeTokensWithUDL. unfold_M. simpl.
      destruct (currentSession st) as [c|] eqn:Hc; simpl.
      * destruct (truthy (sessionId c)); [|reflexivity].
        destruct (sessions st !! sessionId c); reflexivity.
      * reflexivity.
    + rewrite (logout_eq sid st) by done. simpl. by apply Hrev.
  - rewrite (logout_current_eq st). simpl.
    destruct (currentSession st) as [c|] eqn:Hc; [|reflexivity].
    destruct (truthy (sessionId c)) eqn:Ht; [|reflexivity].
    unfold revoked. rewrite Hc. simpl. rewrite bool_decide_eq_true_2 by done.
    destruct (sessions st !! sessionId c); reflexivity.
Qed.

End Logout.

(** ** Read paths *)

Section ReadPaths.

Context (E : Env).

(** X8. [getApiHeaders] returns headers exactly when there is a current
    session that has not expired at the clock reading of the call and
    whose access token is a non-empty string; they are then the five
    headers built from that session. In every other case it throws
    ["Not authenticated"]. *)
Theorem getApiHeaders_outcomes st :
  match (getApiHeaders E st).1 with
  | Ok headers =>
      exists s token,
        currentSession st = Some s
        /\ clock E (ticks st) <= expiresAt s
        /\ accessToken s = Some token /\ token <> ""
        /\ headers = [("Authorization", "Bearer " +:+ token);
                      ("X-Classification", toUpperCase (classification s));
                      ("X-Session-ID", sessionId s);
                      ("Content-Type", "application/json");
                      ("User-Agent", "UDL-MCP-Server/1.0.0")]
  | Throw e =>
      e = NotAuthenticated
      /\ ~ exists s token,
             currentSession st = Some s
             /\ clock E (ticks st) <= expiresAt s
             /\ accessToken s = Some token /\ token <> ""
  end.
Proof.
  unfold getApiHeaders. unfold_M.
  destruct (currentSession st) as [s|] eqn:Hcur.
  - destruct (decide (clock E (ticks st) > expiresAt s)) as [Hexp|Hlive].
    + destruct (getCurrentSession_expired E st s Hcur Hexp) as (st' & -> & _).
      simpl. split; [done|]. intros (s' & token & [= <-] & Hle & _). lia.
    + rewrite (getCurrentSession_live E st s Hcur Hlive). simpl.
      destruct (accessToken s) as [token|] eqn:Htok.
      * unfold truthy. destruct (decide (token = "")) as [->|Hne].
        -- simpl. split; [done|].
           intros (s' & token & [= <-] & _ & Htok' & Hne).
           rewrite Htok in Htok'. by injection Htok' as <-.
        -- rewrite bool_decide_eq_true_2 by done. simpl.
           exists s, token. repeat split; [lia|done..].
      * simpl. split; [done|]. intros (s' & token & [= <-] & _ & Htok' & _).
        congruence.
  - rewrite (getCurrentSession_none E st Hcur). simpl. split; [done|].
    intros (s & token & Hs & _). congruence.
Qed.

(** X9. [getAuthenticationStatus] never throws and never touches the
    credential file. A status that says authenticated describes the
    current session, which has not expired at the clock reading of the
    call, and neither the table nor the current session has changed; a
    status that says unauthenticated carries no other field and leaves no
    current session. *)
Theorem getAuthenticationStatus_outcomes st :
  exists status st',
    getAuthenticationStatus E st = (Ok status, st')
    /\ credentialsFile st' = credentialsFile st
    /\ (isAuthenticated status = true ->
        exists s,
          currentSession st = Some s
          /\ clock E (ticks st) <= expiresAt s
          /\ status = {| isAuthenticated := true;
                         as_username := Some (username s);
                         as_classification := Some (classification s);
                         as_sessionId := Some (sessionId s);
                         as_expiresAt := Some (expiresAt s);
                         as_permissions := Some (permissions s);
                         lastActivity := Some (clock E (S (ticks st))) |}
          /\ sessions st' = sessions st
          /\ currentSession st' = currentSession st)
    /\ (isAuthenticated status = false ->
        status = unauthenticated /\ currentSession st' = None).
Proof.
  unfold getAuthenticationStatus. unfold_M.
  destruct (currentSession st) as [s|] eqn:Hcur.
  - destruct (decide (clock E (ticks st) > expiresAt s)) as [Hexp|Hlive].
    + destruct (getCurrentSession_expired E st s Hcur Hexp)
        as (st' & -> & Hnone & _ & Hfile).
      eexists _, _. split; [reflexivity|]. simpl. split; [done|].
      split; [done|]. done.
    + rewrite (getCurrentSession_live E st s Hcur Hlive).
      unfold Date_now. simpl.
      eexists _, _. split; [reflexivity|]. simpl. split; [done|].
      split; [|done]. intros _. exists s.
      split; [done|]. split; [lia|]. done.
  - rewrite (getCurrentSession_none E st Hcur).
    eexists _, _. split; [reflexivity|]. simpl. split; [done|].
    split; [done|]. done.
Qed.

End ReadPaths.

(** ** Invariants of the session table *)

Section Invariants.

Context {kdf : KDF} (E : Env).

Lemma getCurrentSession_sessions_subset st k s :
  sessions (getCurrentSession E st).2 !! k = Some s -> sessions st !! k = Some s.
Proof.
  destruct (currentSession st) as [c|] eqn:Hcur.
  - destruct (decide (clock E (ticks st) > expiresAt c)) as [Hexp|Hlive].
    + destruct (getCurrentSession_expired E st c Hcur Hexp)
        as (st' & -> & _ & Hs & _).
      simpl. rewrite Hs. destruct (truthy (sessionId c)); [|done].
      intros H. by apply lookup_delete_Some in H as [_ H].
    + by rewrite (getCurrentSession_live E st c Hcur Hlive).
  - by rewrite (getCurrentSession_none E st Hcur).
Qed.

(** The table after [refreshSession sid]: the entry under [sid] is gone,
    replaced by the returned session, or as before; the others are as
    before. *)
Lemma refreshSession_sessions sid st :
  let st' := (refreshSession E sid st).2 in
  (forall k, k <> sid -> sessions st' !! k = sessions st !! k)
  /\ (sessions st' !! sid = None
      \/ sessions st' !! sid = sessions st !! sid
      \/ exists s s', sessions st !! sid = Some s
                      /\ sessions st' !! sid = Some s'
                      /\ sessionId s' = sessionId s)
  /\ (sessionId <$> currentSession st <> Some sid ->
      currentSession st' = currentSession st)
  /\ credentialsFile st' = credentialsFile st.
Proof.
  cbv zeta. destruct (sessions st !! sid) as [s|] eqn:Hs.
  - destruct (decide (clock E (ticks st) > expiresAt s)) as [Hexp|Hlive].
    + rewrite (refreshSession_expired E sid st s Hs Hexp). simpl.
      split; [intros k Hk; by apply lookup_delete_ne|].
      split; [left; apply lookup_delete_eq|]. done.
    + rewrite (refreshSession_live E sid st s Hs Hlive).
      destruct (entropy_fault E (draws st)).
      { simpl. split; [done|]. split; [right; left; done|]. done. }
      simpl.
      destruct (bool_decide (sessionId <$> currentSession st = Some sid)) eqn:Hb;
        simpl.
      * split; [intros k Hk; by apply lookup_insert_ne|].
        split.
        { right. right. eexists _, _. split; [done|].
          split; [apply lookup_insert_eq|done]. }
        split; [|done]. intros Hne. apply bool_decide_eq_true in Hb. done.
      * split; [intros k Hk; by apply lookup_insert_ne|].
        split.
        { right. right. eexists _, _. split; [done|].
          split; [apply lookup_insert_eq|done]. }
        done.
  - rewrite (refreshSession_not_found E sid st Hs). simpl.
    split; [done|]. split; [left; done|]. done.
Qed.

(** X11. Every operation keeps the table keyed by session id: if every
    entry is stored under its own [sessionId] before [authenticateUser],
    [refreshSession], [logout], [getCurrentSession], [storeCredentials] or
    [clearStoredCredentials], so it is afterwards, whatever the outcome of
    the call. *)
Theorem keys_match_preserved st :
  keys_match st ->
  (forall usr password, keys_match (authenticateUser E usr password st).2)
  /\ (forall sid, keys_match (refreshSession E sid st).2)
  /\ (forall sid, keys_match (logout sid st).2)
  /\ keys_match (getCurrentSession E st).2
  /\ (forall credentials, keys_match (storeCredentials E credentials st).2)
  /\ keys_match (clearStoredCredentials E st).2.
Proof.
  intros Hinv. repeat split.
  - intros usr password k s.
    destruct (authenticateUser_state E usr password st)
      as [[Hs _] | (session & Hs & _)]; rewrite Hs; [apply Hinv|].
    destruct (decide (sessionId session = k)) as [<-|Hne].
    + rewrite lookup_insert_eq. by intros [= <-].
    + rewrite lookup_insert_ne by done. apply Hinv.
  - intros sid k s.
    destruct (refreshSession_sessions sid st) as (Hother & Hsid & _).
    destruct (decide (k = sid)) as [->|Hne].
    + destruct Hsid as [Hnone | [Hsame | (s0 & s' & Hs0 & Hs' & Hid)]].
      * by rewrite Hnone.
      * rewrite Hsame. apply Hinv.
      * rewrite Hs'. intros [= <-]. rewrite Hid. by apply Hinv.
    + rewrite Hother by done. apply Hinv.
  - intros sid k s H. apply (Hinv k s). by eapply logout_sessions_subset.
  - intros k s H. apply (Hinv k s). by eapply getCurrentSession_sessions_subset.
  - intros credentials k s. rewrite storeCredentials_eq.
    destruct (fs_fault E (fs_ops st)) as [[? ?]|]; [apply Hinv|].
    destruct (entropy_fault E (draws st)); [apply Hinv|]. simpl.
    destruct (fs_fault E (S (fs_ops st))) as [[? ?]|];
      [destruct (write_phase E (S (fs_ops st)))|]; apply Hinv.
  - intros k s. destruct (clearStoredCredentials_frame E st) as (Hs & _).
    simpl in Hs. rewrite Hs. apply Hinv.
Qed.

(** X12. If the current session, when set, is the table's entry under its
    own id, this is still so after [authenticateUser], [logout],
    [getCurrentSession], [storeCredentials] and [clearStoredCredentials],
    whatever their outcome, and after a [refreshSession] whose target is
    missing or has not expired. *)
Theorem current_in_table_preserved st :
  current_in_table st ->
  (forall usr password, current_in_table (authenticateUser E usr password st).2)
  /\ (forall sid, current_in_table (logout sid st).2)
  /\ current_in_table (getCurrentSession E st).2
  /\ (forall sid,
        (forall s, sessions st !! sid = Some s ->
                   clock E (ticks st) <= expiresAt s) ->
        current_in_table (refreshSession E sid st).2)
  /\ (forall credentials, current_in_table (storeCredentials E credentials st).2)
  /\ current_in_table (clearStoredCredentials E st).2.
Proof.
  intros Hinv. repeat split.
  - intros usr password. by apply authenticateUser_preserves.
  - intros sid. by apply logout_preserves.
  - by apply getCurrentSession_preserves.
  - intros sid Hlive. apply refreshSession_preserves; [|done].
    intros s Hs. specialize (Hlive s Hs). lia.
  - intros credentials. rewrite storeCredentials_eq.
    destruct (fs_fault E (fs_ops st)) as [[? ?]|]; [apply Hinv|].
    destruct (entropy_fault E (draws st)); [apply Hinv|]. simpl.
    destruct (fs_fault E (S (fs_ops st))) as [[? ?]|];
      [destruct (write_phase E (S (fs_ops st)))|]; apply Hinv.
  - destruct (clearStoredCredentials_frame E st) as (Hs & Hc & _).
    simpl in Hs, Hc. intros c Hcur. rewrite Hs. apply Hinv. by rewrite <- Hc.
Qed.

(** X13. [refreshSession sid] touches only the entry under [sid]: every
    other entry of the table is as before, the credential file is as
    before, and the current session is as before unless its id is [sid].
    When there is no entry under [sid] it throws ["Session not found"] and
    changes nothing at all. *)
Theorem refreshSession_touches_only_its_entry sid st :
  let st' := (refreshSession E sid st).2 in
  (forall k, k <> sid -> sessions st' !! k = sessions st !! k)
  /\ (sessionId <$> currentSession st <> Some sid ->
      currentSession st' = currentSession st)
  /\ credentialsFile st' = credentialsFile st
  /\ (sessions st !! sid = None ->
      refreshSession E sid st = (Throw SessionNotFound, st)).
Proof.
  cbv zeta. destruct (refreshSession_sessions sid st) as (Hother & _ & Hcur & Hfile).
  repeat split; try done. apply refreshSession_not_found.
Qed.

(** X18. [authenticateUser] never removes a session: every entry of the
    table is still there after the call, unless the new session was
    stored under the same id. Logging in again does not revoke the
    session of an earlier login. *)
Theorem authenticateUser_keeps_sessions usr password st k s :
  sessions st !! k = Some s ->
  let st' := (authenticateUser E usr password st).2 in
  sessions st' !! k = Some s
  \/ exists session, currentSession st' = Some session
                     /\ sessionId session = k
                     /\ sessions st' !! k = Some session.
Proof.
  intros Hk. cbv zeta.
  destruct (authenticateUser_state E usr password st)
    as [[Hs _] | (session & Hs & Hc)]; rewrite Hs.
  - by left.
  - destruct (decide (sessionId session = k)) as [<-|Hne].
    + right. exists session. rewrite Hc. split; [done|]. split; [done|].
      apply lookup_insert_eq.
    + left. by rewrite lookup_insert_ne.
Qed.

End Invariants.

(** ** The permission catalog and issued sessions *)

Lemma list_ascii_of_string_app x y :
  list_ascii_of_string (x +:+ y)
  = (list_ascii_of_string x ++ list_ascii_of_string y)%list.
Proof. induction x as [|c x IH]; simpl; [done|]. by rewrite IH. Qed.

Lemma is_wildcard_suffix x : is_wildcard (x +:+ ":*") = true.
Proof.
  unfold is_wildcard. rewrite list_ascii_of_string_app, rev_app_distr. done.
Qed.

Lemma catalog_no_wildcard cls :
  Forall (fun q => is_wildcard q = false) (getPermissionsForClassification cls).
Proof.
  unfold getPermissionsForClassification.
  repeat case_decide; repeat constructor.
Qed.

(** X15. The tiers are cumulative: the four base capabilities are granted
    to every classification string, known or not; what ['unclassified']
    grants ['cui'] grants, and what any classification grants ['secret']
    grants. *)
Theorem catalog_tiers_cumulative cls p :
  (p ∈ basePermissions -> p ∈ getPermissionsForClassification cls)
  /\ (p ∈ getPermissionsForClassification "unclassified" ->
      p ∈ getPermissionsForClassification "cui")
  /\ (p ∈ getPermissionsForClassification cls ->
      p ∈ getPermissionsForClassification "secret").
Proof.
  split; [|split].
  - unfold getPermissionsForClassification. intros Hp.
    repeat case_decide; try done; apply elem_of_app; by left.
  - change (getPermissionsForClassification "cui")
      with (getPermissionsForClassification "unclassified"
            ++ ["conjunctions:read"; "sensors:read"; "analysis:read"])%list.
    intros Hp. apply elem_of_app. by left.
  - assert (Hprefix : exists more,
              getPermissionsForClassification "secret"
              = (getPermissionsForClassification cls ++ more)%list).
    { unfold getPermissionsForClassification at 2.
      repeat case_decide; eexists; reflexivity. }
    destruct Hprefix as [more ->]. intros Hp. apply elem_of_app. by left.
Qed.

Section Issued.

Context {kdf : KDF} (E : Env).

(** X16. The catalog holds no wildcard, so for a live current session
    whose permissions are those of a classification, [validatePermission]
    is plain membership in the list of that classification: neither the
    global nor the prefix wildcard rule can grant anything more. *)
Theorem catalog_permissions_exact cls p st s :
  currentSession st = Some s ->
  clock E (ticks st) <= expiresAt s ->
  permissions s = getPermissionsForClassification cls ->
  (validatePermission E p st).1
  = Ok (bool_decide (p ∈ getPermissionsForClassification cls)).
Proof.
  intros Hcur Hlive Hperm. unfold validatePermission. unfold_M.
  rewrite (getCurrentSession_live E st s) by (done || lia). simpl.
  rewrite Hperm. unfold includes. f_equal.
  pose proof (catalog_no_wildcard cls) as Hnw. rewrite Forall_forall in Hnw.
  rewrite (bool_decide_eq_false_2 ("*" ∈ _)).
  2:{ intros Hin. apply Hnw in Hin. discriminate. }
  rewrite (bool_decide_eq_false_2 (_ +:+ ":*" ∈ _)).
  2:{ intros Hin. apply Hnw in Hin. by rewrite is_wildcard_suffix in Hin. }
  by rewrite !orb_false_r.
Qed.

(** What a successful [authenticateUser] did. *)
Lemma authenticateUser_ok_inv usr password st session st' :
  authenticateUser E usr password st = (Ok session, st') ->
  exists stored,
    credentialsFile st = Some (Json stored)
    /\ session = issued E usr stored st
    /\ currentSession st' = Some session
    /\ sessions st' = <[sessionId session := session]> (sessions st)
    /\ ticks st' = S (S (ticks st)).
Proof.
  intros Hrun.
  destruct (fs_fault E (fs_ops st)) as [[code msg]|] eqn:Hfs.
  { unfold authenticateUser in Hrun. unfold_M.
    rewrite loadCredentials_eq, Hfs in Hrun. simpl in Hrun.
    by destruct (decide (code = "ENOENT")). }
  pose proof (authenticateUser_rejected E usr password st Hfs) as Hrej.
  simpl in Hrej.
  destruct (credentialsFile st) as [[stored|syntax_error]|] eqn:Hfile;
    [|congruence..].
  destruct Hrej as [Hname Hpw].
  destruct (decide (sc_username stored = usr)) as [Husr|Husr];
    [|rewrite Hname in Hrun by done; discriminate].
  specialize (Hpw Husr).
  destruct (verifyPassword password (passwordHash stored) (salt stored))
    as [[|]|e] eqn:Hv; [|congruence..].
  rewrite (authenticateUser_verified E usr password st stored) in Hrun by done.
  simpl in Hrun.
  destruct (entropy_fault E (draws st)); [discriminate|].
  destruct (entropy_fault E (S (draws st))); [discriminate|].
  destruct (entropy_fault E (S (S (draws st)))); [discriminate|].
  destruct (fs_fault E (S (fs_ops st))) as [[code msg]|]; [discriminate|].
  injection Hrun as <- <-. exists stored. by repeat split.
Qed.

(** X17. After a successful [authenticateUser], the session it returned is
    the current session at the next clock reading exactly when that
    reading is at most 8 hours after the one taken at its creation; within
    that time [getApiHeaders] returns its headers, with its access token
    as bearer. *)
Theorem issued_session_lifetime usr password st session st' :
  authenticateUser E usr password st = (Ok session, st') ->
  expiresAt session = clock E (ticks st) + 8 * 60 * 60 * 1000
  /\ ((getCurrentSession E st').1 = Ok (Some session)
      <-> clock E (ticks st') <= clock E (ticks st) + 8 * 60 * 60 * 1000)
  /\ (clock E (ticks st') <= clock E (ticks st) + 8 * 60 * 60 * 1000 ->
      exists token,
        accessToken session = Some token
        /\ (getApiHeaders E st').1
           = Ok [("Authorization", "Bearer " +:+ token);
                 ("X-Classification", toUpperCase (classification session));
                 ("X-Session-ID", sessionId session);
                 ("Content-Type", "application/json");
                 ("User-Agent", "UDL-MCP-Server/1.0.0")]).
Proof.
  intros Hrun.
  destruct (authenticateUser_ok_inv _ _ _ _ _ Hrun)
    as (stored & _ & Hs & Hcur & _ & _).
  assert (Hexp : expiresAt session = clock E (ticks st) + 8 * 60 * 60 * 1000)
    by (by rewrite Hs).
  split; [exact Hexp|]. rewrite <- Hexp. split; [split|].
  - intros Hget.
    destruct (decide (clock E (ticks st') > expiresAt session)) as [Hgt|]; [|lia].
    destruct (getCurrentSession_expired E st' session Hcur Hgt) as (? & Hn & _).
    rewrite Hn in Hget. discriminate.
  - intros Hle. by rewrite (getCurrentSession_live E st' session) by (done || lia).
  - intros Hle. unfold getApiHeaders. unfold_M.
    rewrite (getCurrentSession_live E st' session) by (done || lia). simpl.
    rewrite Hs. simpl. eexists. split; [reflexivity|]. reflexivity.
Qed.

End Issued.

(** ** Identifiers and tokens *)

Lemma b64url_digit_safe n : url_safe (Buffer.b64url_digit n) = true.
Proof.
  unfold Buffer.b64url_digit, url_safe.
  destruct (N.ltb_spec n 26); [|destruct (N.ltb_spec n 52);
    [|destruct (N.ltb_spec n 62); [|destruct (N.eqb_spec n 62)]]];
    try reflexivity; rewrite N_ascii_embedding by lia;
    repeat match goal with
           | |- context [(?a <=? ?b)%N] => destruct (N.leb_spec a b)
           | |- context [(?a =? ?b)%N] => destruct (N.eqb_spec a b)
           end; simpl; try reflexivity; lia.
Qed.

Lemma encode_base64url_safe buf :
  forallb url_safe (Buffer.encode_base64url buf) = true.
Proof.
  remember (length buf) as n eqn:Hn.
  assert (Hle : (length buf <= n)%nat) by lia. clear Hn.
  revert buf Hle. induction n as [|n IH]; intros buf Hle.
  - destruct buf; [done|simpl in Hle; lia].
  - destruct buf as [|a [|b [|c rest]]]; simpl;
      rewrite ?b64url_digit_safe; simpl; try done.
    apply IH. simpl in Hle. lia.
Qed.

Section Identifiers.

Context {kdf : KDF} (E : Env).

(** X14. The identifiers of an issued session are well formed: the
    session id is 64 hexadecimal digits, the text of 32 drawn bytes, and
    the access and refresh tokens are 64 characters of the URL-safe base64
    alphabet each. In particular none of them is the empty string. *)
Theorem issued_identifiers_well_formed usr password st session st' :
  authenticateUser E usr password st = (Ok session, st') ->
  Buffer.is_hex_of_length 32 (sessionId session) = true
  /\ Buffer.from_hex (sessionId session)
     = map (entropy E (S (S (draws st)))) (seq 0 32)
  /\ exists access refresh,
       accessToken session = Some access
       /\ refreshToken session = Some refresh
       /\ String.length access = 64%nat
       /\ String.length refresh = 64%nat
       /\ forallb url_safe (list_ascii_of_string access) = true
       /\ forallb url_safe (list_ascii_of_string refresh) = true.
Proof.
  intros Hrun.
  destruct (authenticateUser_ok_inv E _ _ _ _ _ Hrun) as (stored & _ & -> & _).
  unfold issued. cbn [sessionId accessToken refreshToken].
  split; [|split].
  - apply (is_hex_toString_hex (map (entropy E (S (S (draws st)))) (seq 0 32))).
  - apply from_hex_toString_hex.
  - eexists _, _. split; [reflexivity|]. split; [reflexivity|].
    unfold Buffer.toString_base64url.
    rewrite !list_ascii_of_string_of_list_ascii, !encode_base64url_safe.
    repeat split; reflexivity.
Qed.

(** X19. Refreshing a live session that is the current one makes the
    returned session current and stores it under the same key; it is then
    the current session at the next clock reading exactly when that
    reading is at most 8 hours after the reading taken at the refresh. *)
Theorem refresh_extends_current sid st s :
  sessions st !! sid = Some s ->
  sessionId <$> currentSession st = Some sid ->
  clock E (ticks st) <= expiresAt s ->
  entropy_fault E (draws st) = None ->
  exists s' st',
    refreshSession E sid st = (Ok s', st')
    /\ currentSession st' = Some s'
    /\ sessions st' !! sid = Some s'
    /\ ((getCurrentSession E st').1 = Ok (Some s')
        <-> clock E (ticks st') <= clock E (S (ticks st)) + 8 * 60 * 60 * 1000).
Proof.
  intros Hs Hcur Hlive Hent.
  rewrite (refreshSession_live E sid st s) by (done || lia).
  rewrite Hent. simpl. rewrite bool_decide_eq_true_2 by done.
  eexists _, _. split; [reflexivity|]. simpl.
  split; [done|]. split; [apply lookup_insert_eq|].
  match goal with |- (getCurrentSession E ?st1).1 = Ok (Some ?s1) <-> _ =>
    set (st' := st1); set (s' := s1) end.
  assert (Hc : currentSession st' = Some s') by done.
  assert (Hexp : expiresAt s' = clock E (S (ticks st)) + 8 * 60 * 60 * 1000)
    by done.
  change (ticks st') with (S (S (ticks st))). rewrite <- Hexp.
  change (S (S (ticks st))) with (ticks st'). split.
  - intros Hget.
    destruct (decide (clock E (ticks st') > expiresAt s')) as [Hgt|]; [|lia].
    destruct (getCurrentSession_expired E st' s' Hc Hgt) as (? & Hn & _).
    rewrite Hn in Hget. discriminate.
  - intros Hle. by rewrite (getCurrentSession_live E st' s') by (done || lia).
Qed.

(** X10. Clearing the stored credentials succeeds whether or not there is
    a record, when the file system does not fail, and leaves none; after
    it every [authenticateUser] fails with [NoCredentialsConfigured],
    whatever the username and password, and clearing once more succeeds
    again. *)
Theorem clear_then_authenticate st :
  fs_fault E (fs_ops st) = None ->
  fs_fault E (S (fs_ops st)) = None ->
  exists st1,
    clearStoredCredentials E st = (Ok tt, st1)
    /\ credentialsFile st1 = None
    /\ (forall usr password,
          (authenticateUser E usr password st1).1 = Throw NoCredentialsConfigured
          /\ sessions (authenticateUser E usr password st1).2 = sessions st
          /\ currentSession (authenticateUser E usr password st1).2
             = currentSession st)
    /\ (clearStoredCredentials E st1).1 = Ok tt.
Proof.
  intros H0 H1.
  assert (Hclear : exists st1, clearStoredCredentials E st = (Ok tt, st1)
                     /\ credentialsFile st1 = None
                     /\ fs_ops st1 = S (fs_ops st)
                     /\ sessions st1 = sessions st
                     /\ currentSession st1 = currentSession st).
  { rewrite clearStoredCredentials_eq, H0. simpl.
    destruct (credentialsFile st) eqn:Hf; eexists; split; try reflexivity; done. }
  destruct Hclear as (st1 & Hrun & Hfile & Hops & Hs & Hc).
  exists st1. split; [done|]. split; [done|]. split.
  - intros usr password.
    pose proof (authenticateUser_rejected E usr password st1) as Hrej.
    rewrite Hops, Hfile in Hrej. specialize (Hrej H1). simpl in Hrej.
    rewrite Hrej. done.
  - rewrite clearStoredCredentials_eq, Hops, H1, Hfile. done.
Qed.

End Identifiers.

(** * Properties of the server's handlers *)

Ltac unfold_SM :=
  unfold mbind, SM_bind, mret, SM_ret, sthrow, stry_catch, on_authenticator,
    setApiHeaders in *.

Section ServerProperties.

Context {kdf : KDF} (E : Env).

Lemma getAuthenticationStatus_live st s :
  currentSession st = Some s ->
  clock E (ticks st) <= expiresAt s ->
  exists status,
    getAuthenticationStatus E st = (Ok status, set_ticks (S (S (ticks st))) st)
    /\ isAuthenticated status = true.
Proof.
  intros Hcur Hlive. unfold getAuthenticationStatus. unfold_M.
  rewrite (getCurrentSession_live E st s) by (done || lia).
  unfold Date_now. simpl. eauto.
Qed.

Lemma getAuthenticationStatus_dead st :
  (forall s, currentSession st = Some s -> clock E (ticks st) > expiresAt s) ->
  exists st',
    getAuthenticationStatus E st = (Ok unauthenticated, st')
    /\ currentSession st' = None
    /\ (currentSession st = None -> st' = st).
Proof.
  intros Hdead. unfold getAuthenticationStatus. unfold_M.
  destruct (currentSession st) as [s|] eqn:Hcur.
  - destruct (getCurrentSession_expired E st s Hcur (Hdead s eq_refl))
      as (st' & -> & Hn & _).
    exists st'. by repeat split.
  - rewrite (getCurrentSession_none E st Hcur). exists st. by repeat split.
Qed.

Lemma validatePermission_live st s p :
  currentSession st = Some s ->
  clock E (ticks st) <= expiresAt s ->
  validatePermission E p st
  = (Ok (includes (permissions s) p || includes (permissions s) "*"
         || includes (permissions s) (split_head ":" p +:+ ":*")),
     set_ticks (S (ticks st)) st).
Proof.
  intros Hcur Hlive. unfold validatePermission. unfold_M.
  by rewrite (getCurrentSession_live E st s) by (done || lia).
Qed.

Lemma validatePermission_expired st s p :
  currentSession st = Some s ->
  clock E (ticks st) > expiresAt s ->
  (validatePermission E p st).1 = Ok false.
Proof.
  intros Hcur Hexp. unfold validatePermission. unfold_M.
  destruct (getCurrentSession_expired E st s Hcur Hexp) as (st' & -> & _). done.
Qed.

Lemma getApiHeaders_live st s token :
  currentSession st = Some s ->
  clock E (ticks st) <= expiresAt s ->
  accessToken s = Some token -> token <> "" ->
  getApiHeaders E st = (Ok (headers_of s token), set_ticks (S (ticks st)) st).
Proof.
  intros Hcur Hlive Htok Hne. unfold getApiHeaders. unfold_M.
  rewrite (getCurrentSession_live E st s) by (done || lia). simpl.
  rewrite Htok. unfold truthy. by rewrite bool_decide_eq_true_2.
Qed.

Lemma getApiHeaders_ok_inv st headers :
  (getApiHeaders E st).1 = Ok headers ->
  exists s token,
    currentSession st = Some s
    /\ clock E (ticks st) <= expiresAt s
    /\ accessToken s = Some token /\ token <> ""
    /\ headers = headers_of s token.
Proof.
  unfold getApiHeaders. unfold_M.
  destruct (currentSession st) as [s|] eqn:Hcur.
  - destruct (decide (clock E (ticks st) > expiresAt s)) as [Hexp|Hlive].
    + destruct (getCurrentSession_expired E st s Hcur Hexp) as (st' & -> & _).
      discriminate.
    + rewrite (getCurrentSession_live E st s Hcur Hlive). simpl.
      destruct (accessToken s) as [token|] eqn:Htok; [|discriminate].
      unfold truthy. destruct (decide (token = "")) as [->|Hne]; [discriminate|].
      rewrite bool_decide_eq_true_2 by done. simpl. intros [= <-].
      exists s, token. repeat split; [lia|done..].
  - rewrite (getCurrentSession_none E st Hcur). discriminate.
Qed.

Lemma logout_clears_current_aux st :
  exists st', logout None st = (Ok tt, st') /\ currentSession st' = None.
Proof.
  rewrite logout_current_eq. eexists. split; [reflexivity|].
  destruct (currentSession st) as [c|] eqn:Hc; [|done].
  destruct (truthy (sessionId c)); [|done].
  unfold revoked. rewrite Hc. simpl. rewrite bool_decide_eq_true_2 by done.
  by destruct (sessions st !! sessionId c).
Qed.

(** The permission rule of [validatePermission], as a proposition. *)
Lemma granted_iff (s : AuthSession) p :
  includes (permissions s) p || includes (permissions s) "*"
  || includes (permissions s) (split_head ":" p +:+ ":*") = true
  <-> p ∈ permissions s \/ "*" ∈ permissions s
      \/ (split_head ":" p +:+ ":*") ∈ permissions s.
Proof.
  unfold includes. rewrite !orb_true_iff, !bool_decide_eq_true. tauto.
Qed.

(** X20. When [checkAuthentication] succeeds, there is a current session
    with a non-empty access token that has not expired at the clock
    reading of the status query; if a permission was required, the session
    grants it (literally, by ["*"], or by the wildcard of its namespace);
    the catalog's API headers are now the five headers of that session;
    and the session table and the current session are unchanged. *)
Theorem checkAuthentication_success required sv sv' :
  checkAuthentication E required sv = (Ok tt, sv') ->
  exists s token,
    currentSession (authenticator sv) = Some s
    /\ clock E (ticks (authenticator sv)) <= expiresAt s
    /\ accessToken s = Some token /\ token <> ""
    /\ (forall p, required = Some p -> p <> "" ->
        p ∈ permissions s \/ "*" ∈ permissions s
        \/ (split_head ":" p +:+ ":*") ∈ permissions s)
    /\ apiHeaders sv' = [("Authorization", "Bearer " +:+ token);
                         ("X-Classification", toUpperCase (classification s));
                         ("X-Session-ID", sessionId s);
                         ("Content-Type", "application/json");
                         ("User-Agent", "UDL-MCP-Server/1.0.0")]
    /\ sessions (authenticator sv') = sessions (authenticator sv)
    /\ currentSession (authenticator sv') = currentSession (authenticator sv).
Proof.
  destruct sv as [st hdrs]. simpl. intros Hrun.
  unfold checkAuthentication in Hrun. unfold_SM. simpl in Hrun.
  destruct (currentSession st) as [s|] eqn:Hcur.
  2:{ destruct (getAuthenticationStatus_dead st) as (st1 & Hst & _);
        [congruence|]. rewrite Hst in Hrun. discriminate. }
  destruct (decide (clock E (ticks st) > expiresAt s)) as [Hexp|Hlive].
  { destruct (getAuthenticationStatus_dead st) as (st1 & Hst & _).
    { intros s0 Hs0. congruence. }
    rewrite Hst in Hrun. discriminate. }
  destruct (getAuthenticationStatus_live st s Hcur) as (status & Hst & Hauth);
    [lia|].
  rewrite Hst in Hrun. simpl in Hrun. rewrite Hauth in Hrun. simpl in Hrun.
  set (st1 := set_ticks (S (S (ticks st))) st) in *.
  cbn [authenticator apiHeaders] in Hrun.
  assert (Hcur1 : currentSession st1 = Some s) by done.
  (* the headers, from any later state with the same current session *)
  assert (Hheaders : forall st2 sv2,
            currentSession st2 = Some s -> sessions st2 = sessions st ->
            (let (r, sv0) :=
               match (getApiHeaders E st2).1 with
               | Ok a => (Ok (), mkServerState (getApiHeaders E st2).2 a)
               | Throw e => (Throw e, mkServerState (getApiHeaders E st2).2 hdrs)
               end in
             match r with
             | Ok a => (Ok a, sv0)
             | Throw _ => (Throw HeadersUnavailable, sv0)
             end) = (Ok (), sv2) ->
            exists token,
              accessToken s = Some token /\ token <> ""
              /\ apiHeaders sv2 = headers_of s token
              /\ sessions (authenticator sv2) = sessions st
              /\ currentSession (authenticator sv2) = Some s).
  { intros st2 sv2 Hc2 Hs2 Hh.
    destruct ((getApiHeaders E st2).1) as [h|e] eqn:Hres; [|discriminate].
    destruct (getApiHeaders_ok_inv st2 h Hres)
      as (s' & token & Hc' & Hle & Htok & Hne & ->).
    rewrite Hc2 in Hc'. injection Hc' as <-.
    rewrite (getApiHeaders_live st2 s token) in Hh by done.
    injection Hh as <-. exists token. by repeat split. }
  destruct required as [p|].
  - destruct (truthy p) eqn:Htruthy;
      cbv beta iota in Hrun; cbn [authenticator apiHeaders] in Hrun.
    + destruct (decide (clock E (ticks st1) > expiresAt s)) as [Hexp1|Hlive1].
      { rewrite (validatePermission_expired st1 s p Hcur1 Hexp1) in Hrun.
        discriminate. }
      rewrite (validatePermission_live st1 s p Hcur1) in Hrun by lia.
      simpl in Hrun.
      destruct (includes (permissions s) p || includes (permissions s) "*"
                || includes (permissions s) (split_head ":" p +:+ ":*"))
        eqn:Hgranted; [|discriminate].
      simpl in Hrun.
      match type of Hrun with context [getApiHeaders E ?x] =>
        destruct (Hheaders x _ Hcur1 eq_refl Hrun)
          as (token & Htok & Hne & Hh & Hs & Hc) end.
      exists s, token. split; [done|]. split; [lia|]. split; [done|].
      split; [done|]. split.
      { intros q [= <-] _. by apply granted_iff. }
      by repeat split.
    + simpl in Hrun.
      match type of Hrun with context [getApiHeaders E ?x] =>
        destruct (Hheaders x _ Hcur1 eq_refl Hrun)
          as (token & Htok & Hne & Hh & Hs & Hc) end.
      exists s, token. split; [done|]. split; [lia|]. split; [done|].
      split; [done|]. split.
      { intros q [= <-] Hq. unfold truthy in Htruthy.
        by apply bool_decide_eq_false in Htruthy. }
      by repeat split.
  - simpl in Hrun.
    match type of Hrun with context [getApiHeaders E ?x] =>
      destruct (Hheaders x _ Hcur1 eq_refl Hrun)
        as (token & Htok & Hne & Hh & Hs & Hc) end.
    exists s, token. split; [done|]. split; [lia|]. split; [done|].
    split; [done|]. split; [done|]. by repeat split.
Qed.


(** The last step of [checkAuthentication], from authenticator state
    [st2] with current session [s]. *)
Lemma install_headers_eq st2 hdrs s :
  currentSession st2 = Some s ->
  stry_catch
    (headers ← on_authenticator (getApiHeaders E); setApiHeaders headers)
    (fun _ => sthrow HeadersUnavailable) (mkServerState st2 hdrs)
  = if bool_decide (clock E (ticks st2) > expiresAt s) then
      (Throw HeadersUnavailable, mkServerState (getCurrentSession E st2).2 hdrs)
    else
      match accessToken s with
      | Some token =>
          if truthy token
          then (Ok tt, mkServerState (set_ticks (S (ticks st2)) st2)
                                     (headers_of s token))
          else (Throw HeadersUnavailable,
                mkServerState (set_ticks (S (ticks st2)) st2) hdrs)
      | None => (Throw HeadersUnavailable,
                 mkServerState (set_ticks (S (ticks st2)) st2) hdrs)
      end.
Proof.
  intros Hcur. unfold_SM. cbn [authenticator apiHeaders].
  unfold getApiHeaders. unfold_M.
  case_bool_decide as Hexp.
  - destruct (getCurrentSession_expired E st2 s Hcur Hexp) as (st' & -> & _).
    done.
  - rewrite (getCurrentSession_live E st2 s Hcur Hexp). simpl.
    destruct (accessToken s) as [token|]; [|done].
    by destruct (truthy token).
Qed.

(** [checkAuthentication], step by step: the status query, the permission
    check when a permission is required, and the installation of the
    headers, each with its own clock reading. *)
Lemma checkAuthentication_eq required st hdrs :
  checkAuthentication E required (mkServerState st hdrs) =
  match currentSession st with
  | None => (Throw AuthenticationRequired, mkServerState st hdrs)
  | Some s =>
      if bool_decide (clock E (ticks st) > expiresAt s) then
        (Throw AuthenticationRequired,
         mkServerState (getCurrentSession E st).2 hdrs)
      else
        let st1 := set_ticks (S (S (ticks st))) st in
        let install st2 :=
          stry_catch
            (headers ← on_authenticator (getApiHeaders E); setApiHeaders headers)
            (fun _ => sthrow HeadersUnavailable) (mkServerState st2 hdrs) in
        match required with
        | Some p =>
            if truthy p then
              if bool_decide (clock E (ticks st1) > expiresAt s) then
                (Throw (InsufficientPermissions p),
                 mkServerState (getCurrentSession E st1).2 hdrs)
              else if includes (permissions s) p || includes (permissions s) "*"
                      || includes (permissions s) (split_head ":" p +:+ ":*")
              then install (set_ticks (S (ticks st1)) st1)
              else (Throw (InsufficientPermissions p),
                    mkServerState (set_ticks (S (ticks st1)) st1) hdrs)
            else install st1
        | None => install st1
        end
  end.
Proof.
  unfold checkAuthentication.
  unfold mbind at 1. unfold SM_bind. unfold on_authenticator at 1.
  cbn [authenticator apiHeaders].
  unfold getAuthenticationStatus. unfold_M.
  destruct (currentSession st) as [s|] eqn:Hcur.
  2:{ by rewrite (getCurrentSession_none E st Hcur). }
  case_bool_decide as Hexp.
  { destruct (getCurrentSession_expired E st s Hcur Hexp) as (st' & Hg & _).
    rewrite Hg. done. }
  rewrite (getCurrentSession_live E st s Hcur Hexp). unfold Date_now.
  cbn [fst snd isAuthenticated negb ticks set_ticks].
  destruct required as [p|]; [|done].
  destruct (truthy p); [|done].
  unfold SM_bind, SM_ret, sthrow. unfold on_authenticator at 1.
  cbn [authenticator apiHeaders].
  change (set_ticks (S (S (ticks st))) (set_ticks (S (ticks st)) st))
    with (set_ticks (S (S (ticks st))) st).
  set (st1 := set_ticks (S (S (ticks st))) st).
  assert (Hcur1 : currentSession st1 = Some s) by done.
  unfold validatePermission. unfold_M.
  case_bool_decide as Hexp1.
  { destruct (getCurrentSession_expired E st1 s Hcur1 Hexp1) as (st' & Hg & _).
    rewrite Hg. done. }
  rewrite (getCurrentSession_live E st1 s Hcur1 Hexp1). simpl.
  by destruct (includes (permissions s) p || includes (permissions s) "*"
               || includes (permissions s) (split_head ":" p +:+ ":*")).
Qed.


(** X21. When [checkAuthentication] throws, the catalog's API headers are
    left as they were, and the error is one of three: ["Authentication
    required..."], exactly when there is no current session or it has
    expired at the first clock reading; ["Insufficient permissions.
    Required: p"] for the required permission [p]; or ["Failed to get API
    authentication headers"]. *)
Theorem checkAuthentication_failure required sv e sv' :
  checkAuthentication E required sv = (Throw e, sv') ->
  apiHeaders sv' = apiHeaders sv
  /\ (e = AuthenticationRequired
      \/ (exists p, required = Some p /\ e = InsufficientPermissions p)
      \/ e = HeadersUnavailable)
  /\ (e = AuthenticationRequired
      <-> forall s, currentSession (authenticator sv) = Some s ->
                    clock E (ticks (authenticator sv)) > expiresAt s).
Proof.
  destruct sv as [st hdrs]. rewrite checkAuthentication_eq.
  cbn [authenticator apiHeaders].
  assert (Hinstall : forall st2 s,
            currentSession st2 = Some s ->
            stry_catch
              (headers ← on_authenticator (getApiHeaders E); setApiHeaders headers)
              (fun _ => sthrow HeadersUnavailable) (mkServerState st2 hdrs)
            = (Throw e, sv') ->
            apiHeaders sv' = hdrs /\ e = HeadersUnavailable).
  { intros st2 s Hc. rewrite (install_headers_eq st2 hdrs s Hc).
    case_bool_decide; [by intros [= <- <-]|].
    destruct (accessToken s) as [token|]; [|by intros [= <- <-]].
    destruct (truthy token); [discriminate|by intros [= <- <-]]. }
  destruct (currentSession st) as [s|] eqn:Hcur.
  2:{ intros [= <- <-]. split; [done|]. split; [by left|]. split; [|done].
      intros _ s Hs. discriminate. }
  case_bool_decide as Hexp.
  { intros [= <- <-]. split; [done|]. split; [by left|]. split; [|done].
    by intros _ s0 [= <-]. }
  assert (Hnot : forall x, x = HeadersUnavailable \/
                   (exists p, x = InsufficientPermissions p) ->
                 (x = AuthenticationRequired
                  <-> forall s0, Some s = Some s0 ->
                        clock E (ticks st) > expiresAt s0)).
  { intros x Hx. split.
    - intros ->. destruct Hx as [Hx | [p Hx]]; discriminate.
    - intros Hall. specialize (Hall s eq_refl). done. }
  cbv zeta. destruct required as [p|].
  - destruct (truthy p).
    + case_bool_decide as Hexp1.
      { intros [= <- <-]. split; [done|]. split; [right; left; eauto|].
        apply Hnot. right. eauto. }
      destruct (includes (permissions s) p || includes (permissions s) "*"
                || includes (permissions s) (split_head ":" p +:+ ":*")).
      * intros Hrun. apply (Hinstall _ s) in Hrun as [Hh ->]; [|done].
        split; [done|]. split; [by right; right|]. apply Hnot. by left.
      * intros [= <- <-]. split; [done|]. split; [right; left; eauto|].
        apply Hnot. right. eauto.
    + intros Hrun. apply (Hinstall _ s) in Hrun as [Hh ->]; [|done].
      split; [done|]. split; [by right; right|]. apply Hnot. by left.
  - intros Hrun. apply (Hinstall _ s) in Hrun as [Hh ->]; [|done].
    split; [done|]. split; [by right; right|]. apply Hnot. by left.
Qed.

(** [checkAuthentication] for a session that does not expire during the
    call and has a non-empty access token. *)
Lemma checkAuthentication_live p st hdrs s token :
  currentSession st = Some s ->
  accessToken s = Some token -> token <> "" ->
  p <> "" ->
  clock E (ticks st) <= expiresAt s ->
  clock E (S (S (ticks st))) <= expiresAt s ->
  clock E (S (S (S (ticks st)))) <= expiresAt s ->
  (checkAuthentication E (Some p) (mkServerState st hdrs)).1 = Ok tt
  <-> p ∈ permissions s \/ "*" ∈ permissions s
      \/ (split_head ":" p +:+ ":*") ∈ permissions s.
Proof.
  intros Hcur Htok Hne Hp H0 H2 H3. rewrite checkAuthentication_eq, Hcur.
  rewrite bool_decide_eq_false_2 by lia. cbv zeta.
  unfold truthy at 1. rewrite (bool_decide_eq_true_2 (p <> "")) by done.
  cbn [ticks set_ticks]. rewrite bool_decide_eq_false_2 by lia.
  rewrite <- granted_iff.
  destruct (includes (permissions s) p || includes (permissions s) "*"
            || includes (permissions s) (split_head ":" p +:+ ":*")).
  - rewrite (install_headers_eq _ hdrs s) by done. cbn [ticks set_ticks].
    rewrite bool_decide_eq_false_2 by lia. rewrite Htok.
    unfold truthy. by rewrite bool_decide_eq_true_2.
  - simpl. split; discriminate.
Qed.

(** X22. Which catalog tools a session may use follows from its
    classification. For a current session whose permissions are those of
    classification [cls], with an access token, and which does not expire
    during the call: the permission check of the object lookup and of the
    object search passes for every [cls]; that of the orbit prediction
    passes exactly for the three known tiers; that of the conjunction query
    exactly for ['cui'] and ['secret']; that of the Space Fence query
    exactly for ['secret']. *)
Theorem tools_by_classification cls st hdrs s token :
  currentSession st = Some s ->
  permissions s = getPermissionsForClassification cls ->
  accessToken s = Some token -> token <> "" ->
  clock E (ticks st) <= expiresAt s ->
  clock E (S (S (ticks st))) <= expiresAt s ->
  clock E (S (S (S (ticks st)))) <= expiresAt s ->
  let allowed p :=
    (checkAuthentication E (Some p) (mkServerState st hdrs)).1 = Ok tt in
  allowed "objects:get"
  /\ allowed "objects:search"
  /\ (allowed "predictions:read" <-> cls ∈ known_tiers)
  /\ (allowed "conjunctions:read" <-> cls = "cui" \/ cls = "secret")
  /\ (allowed "spacefence:read" <-> cls = "secret").
Proof.
  intros Hcur Hperm Htok Hne H0 H2 H3 allowed.
  assert (Hallowed : forall p, p <> "" ->
            (allowed p <-> p ∈ getPermissionsForClassification cls)).
  { intros p Hp. unfold allowed.
    rewrite (checkAuthentication_live p st hdrs s token) by done.
    rewrite Hperm. split; [|by left].
    intros [Hin | [Hin | Hin]]; [done|exfalso..].
    - pose proof (catalog_no_wildcard cls) as Hnw. rewrite Forall_forall in Hnw.
      apply Hnw in Hin. discriminate.
    - pose proof (catalog_no_wildcard cls) as Hnw. rewrite Forall_forall in Hnw.
      apply Hnw in Hin. by rewrite is_wildcard_suffix in Hin. }
  rewrite !Hallowed by discriminate. unfold known_tiers.
  unfold getPermissionsForClassification, basePermissions.
  repeat case_decide; subst; simpl;
    rewrite ?elem_of_cons, ?elem_of_nil; intuition (discriminate || congruence).
Qed.

(** X23. After [logoutFromUdl], which never fails, every
    [checkAuthentication] throws ["Authentication required..."], whatever
    permission it asks for, and leaves the state as it is. *)
Theorem logout_then_checkAuthentication sv required :
  exists sv1,
    logoutFromUdl sv = (Ok (text_result "Successfully logged out from UDL"), sv1)
    /\ currentSession (authenticator sv1) = None
    /\ apiHeaders sv1 = apiHeaders sv
    /\ checkAuthentication E required sv1 = (Throw AuthenticationRequired, sv1).
Proof.
  destruct sv as [st hdrs]. unfold logoutFromUdl. unfold_SM.
  cbn [authenticator apiHeaders].
  destruct (logout_clears_current_aux st) as (st' & Hrun & Hnone).
  rewrite Hrun. simpl. eexists. split; [reflexivity|].
  cbn [authenticator apiHeaders]. split; [done|]. split; [done|].
  by rewrite checkAuthentication_eq, Hnone.
Qed.



End ServerProperties.

(** * Properties of the input validators *)

Lemma string_length_chars str :
  length (list_ascii_of_string str) = String.length str.
Proof. induction str; simpl; congruence. Qed.

Lemma test_class_true class lo hi str :
  test_class class lo hi str = true
  <-> Forall (fun c => class c = true) (list_ascii_of_string str)
      /\ (lo <= String.length str)%nat
      /\ match hi with Some h => (String.length str <= h)%nat | None => True end.
Proof.
  unfold test_class. rewrite !andb_true_iff, forallb_forall, Forall_forall.
  rewrite Nat.leb_le. setoid_rewrite <- list_elem_of_In.
  destruct hi as [h|]; [rewrite Nat.leb_le|]; intuition.
Qed.

Lemma truthy_length str : truthy str = true <-> (1 <= String.length str)%nat.
Proof.
  unfold truthy. rewrite bool_decide_eq_true.
  destruct str; simpl; split; (congruence || lia || discriminate || done).
Qed.

(** X25. The two NORAD id validators accept exactly the non-empty strings
    of decimal digits of at most 9 characters (catalog side) and at most 6
    characters (tracking side). So every id the tracking side accepts the
    catalog side accepts, and not conversely. *)
Theorem noradId_validators str :
  (SpaceValidator.validateNoradId str = Pass
   <-> (1 <= String.length str <= 9)%nat
       /\ Forall (fun c => is_digit c = true) (list_ascii_of_string str))
  /\ (SatelliteValidator.validateNoradId str = Pass
      <-> (1 <= String.length str <= 6)%nat
          /\ Forall (fun c => is_digit c = true) (list_ascii_of_string str))
  /\ (SatelliteValidator.validateNoradId str = Pass ->
      SpaceValidator.validateNoradId str = Pass)
  /\ (SpaceValidator.validateNoradId "1234567" = Pass
      /\ SatelliteValidator.validateNoradId "1234567" <> Pass).
Proof.
  assert (Hgen : forall n msg1 msg2,
    (if negb (truthy str) then reject msg1
     else if negb (test_class is_digit 1 (Some n) str) then reject msg2
     else Pass) = Pass
    <-> (1 <= String.length str <= n)%nat
        /\ Forall (fun c => is_digit c = true) (list_ascii_of_string str)).
  { intros n msg1 msg2.
    destruct (truthy str) eqn:Ht; simpl.
    - destruct (test_class is_digit 1 (Some n) str) eqn:Hc; simpl.
      + apply test_class_true in Hc as (Hall & Hlo & Hhi). split; [|done].
        intros _. split; [lia|done].
      + split; [discriminate|]. intros [Hlen Hall].
        assert (test_class is_digit 1 (Some n) str = true)
          by (apply test_class_true; repeat split; [done|lia..]).
        congruence.
    - split; [discriminate|]. intros [Hlen _].
      assert (truthy str = true) by (apply truthy_length; lia). congruence. }
  split; [apply Hgen|]. split; [apply Hgen|]. split.
  - unfold SatelliteValidator.validateNoradId, SpaceValidator.validateNoradId.
    rewrite !Hgen. intros [Hlen Hall]. split; [lia|done].
  - split; [reflexivity|discriminate].
Qed.

(** *** The TLE checksum *)

Lemma checksum_fold_acc cs acc :
  fold_left SpaceValidator.checksum_step cs acc
  = (acc + fold_left SpaceValidator.checksum_step cs 0)%nat.
Proof.
  revert acc. induction cs as [|c cs IH]; intros acc; simpl; [lia|].
  rewrite (IH (SpaceValidator.checksum_step acc c)),
          (IH (SpaceValidator.checksum_step 0 c)).
  unfold SpaceValidator.checksum_step.
  destruct (is_digit c); [lia|]. case_decide; lia.
Qed.

Lemma digit_value_lt c :
  is_digit c = true -> (N.to_nat (N_of_ascii c - 48) < 10)%nat.
Proof.
  unfold is_digit. intros H. apply andb_prop in H as [H1 H2].
  apply N.leb_le in H1, H2. lia.
Qed.

Lemma digit_value_inj c c' :
  is_digit c = true -> is_digit c' = true ->
  N.to_nat (N_of_ascii c - 48) = N.to_nat (N_of_ascii c' - 48) -> c = c'.
Proof.
  unfold is_digit. intros H H' Heq.
  apply andb_prop in H as [H1 H2]. apply andb_prop in H' as [H1' H2'].
  apply N.leb_le in H1, H2, H1', H2'.
  rewrite <- (ascii_N_embedding c), <- (ascii_N_embedding c'). f_equal. lia.
Qed.

Lemma checksum_chars_app a b :
  fold_left SpaceValidator.checksum_step (list_ascii_of_string (a +:+ b)) 0%nat
  = (fold_left SpaceValidator.checksum_step (list_ascii_of_string a) 0
     + fold_left SpaceValidator.checksum_step (list_ascii_of_string b) 0)%nat.
Proof.
  rewrite list_ascii_of_string_app, fold_left_app. apply checksum_fold_acc.
Qed.

Lemma checksum_digit_change a b d d' :
  is_digit d = true -> is_digit d' = true -> d <> d' ->
  SpaceValidator.calculateTleChecksum (a +:+ String d b)
  <> SpaceValidator.calculateTleChecksum (a +:+ String d' b).
Proof.
  intros Hd Hd' Hne. unfold SpaceValidator.calculateTleChecksum.
  rewrite !checksum_chars_app. cbn [list_ascii_of_string fold_left].
  rewrite (checksum_fold_acc _ (SpaceValidator.checksum_step 0 d)),
          (checksum_fold_acc _ (SpaceValidator.checksum_step 0 d')).
  assert (Hstep : forall c, is_digit c = true ->
            SpaceValidator.checksum_step 0 c = N.to_nat (N_of_ascii c - 48)).
  { intros c Hc. unfold SpaceValidator.checksum_step. by rewrite Hc. }
  rewrite !Hstep by done.
  pose proof (digit_value_lt d Hd). pose proof (digit_value_lt d' Hd').
  intros Heq. apply Hne. apply digit_value_inj; [done..|].
  set (x := fold_left SpaceValidator.checksum_step (list_ascii_of_string a) 0%nat) in *.
  set (y := fold_left SpaceValidator.checksum_step (list_ascii_of_string b) 0%nat) in *.
  set (u := N.to_nat (N_of_ascii d - 48)) in *.
  set (v := N.to_nat (N_of_ascii d' - 48)) in *.
  clearbody x y u v.
  pose proof (Nat.div_mod_eq (x + (u + y)) 10) as E1.
  pose proof (Nat.div_mod_eq (x + (v + y)) 10) as E2.
  rewrite Heq in E1.
  set (q1 := ((x + (u + y)) / 10)%nat) in *.
  set (q2 := ((x + (v + y)) / 10)%nat) in *.
  set (r := ((x + (v + y)) mod 10)%nat) in *.
  clearbody q1 q2 r. lia.
Qed.

(** X26. The TLE checksum is a decimal digit; the checksum of a
    concatenation is the sum of the checksums modulo 10; and replacing one
    digit of a line by a different digit always changes the checksum. *)
Theorem tle_checksum_properties :
  (forall line, (SpaceValidator.calculateTleChecksum line < 10)%nat)
  /\ (forall a b,
        SpaceValidator.calculateTleChecksum (a +:+ b)
        = ((SpaceValidator.calculateTleChecksum a
            + SpaceValidator.calculateTleChecksum b) mod 10)%nat)
  /\ (forall a b d d',
        is_digit d = true -> is_digit d' = true -> d <> d' ->
        SpaceValidator.calculateTleChecksum (a +:+ String d b)
        <> SpaceValidator.calculateTleChecksum (a +:+ String d' b)).
Proof.
  split; [|split].
  - intros line. unfold SpaceValidator.calculateTleChecksum.
    apply Nat.mod_upper_bound. lia.
  - intros a b. unfold SpaceValidator.calculateTleChecksum.
    rewrite checksum_chars_app. apply Nat.Div0.add_mod.
  - apply checksum_digit_change.
Qed.

(** *** TLE validation *)

Lemma string_app_cons x a b : String x a +:+ b = String x (a +:+ b).
Proof. reflexivity. Qed.

Lemma string_length_app a b :
  String.length (a +:+ b) = (String.length a + String.length b)%nat.
Proof.
  induction a as [|x a IH]; [done|].
  rewrite string_app_cons. simpl. by rewrite IH.
Qed.

Lemma string_app_assoc a b c : (a +:+ b) +:+ c = a +:+ (b +:+ c).
Proof.
  induction a as [|x a IH]; [done|].
  rewrite !string_app_cons. by rewrite IH.
Qed.

Lemma substring_prefix a b :
  substring 0 (String.length a) (a +:+ b) = a.
Proof.
  induction a as [|c a IH].
  - by destruct b.
  - rewrite string_app_cons. simpl. by rewrite IH.
Qed.

Lemma get_after_prefix a c b :
  String.get (String.length a) (a +:+ String c b) = Some c.
Proof.
  induction a as [|x a IH]; [done|].
  rewrite string_app_cons. simpl. exact IH.
Qed.

Section TleProperties.

Variable Date_parse : string -> option Z.

Lemma validateTle_pass tle :
  SpaceValidator.validateTle Date_parse tle = Pass ->
  tle_line_ok (line1 tle) /\ tle_line_ok (line2 tle).
Proof.
  unfold SpaceValidator.validateTle, tle_line_ok, reject.
  repeat (case_match; try discriminate).
  repeat match goal with
         | H : (_ || _)%bool = false |- _ => apply orb_false_elim in H as [? ?]
         | H : negb _ = false |- _ => apply negb_false_iff in H
         | H : bool_decide _ = true |- _ => apply bool_decide_eq_true in H
         end.
  done.
Qed.

Lemma tle_line_ok_digit_change pre d d' mid last :
  is_digit d = true -> is_digit d' = true -> d <> d' ->
  tle_line_ok (pre +:+ String d (mid +:+ String last "")) ->
  ~ tle_line_ok (pre +:+ String d' (mid +:+ String last "")).
Proof.
  intros Hd Hd' Hne [Hlen Hsum] [_ Hsum'].
  assert (Hshape : forall x,
    pre +:+ String x (mid +:+ String last "")
    = (pre +:+ String x mid) +:+ String last "").
  { intros x. by rewrite string_app_assoc. }
  assert (Hl : forall x, String.length (pre +:+ String x mid) = 68%nat).
  { intros x. rewrite !string_length_app in *. simpl in *.
    rewrite string_length_app in Hlen. simpl in Hlen. lia. }
  rewrite Hshape in Hsum, Hsum'.
  rewrite <- (Hl d) in Hsum at 1 2. rewrite <- (Hl d') in Hsum' at 1 2.
  rewrite get_after_prefix, substring_prefix in Hsum, Hsum'.
  rewrite Hsum in Hsum'. injection Hsum' as Heq.
  by apply (checksum_digit_change pre mid d d').
Qed.

(** X27. [validateTle] detects the corruption of one digit: if it accepts
    a TLE, it rejects the TLE obtained by replacing, in either line, one
    digit before the last character by a different digit. *)
Theorem validateTle_detects_digit_error tle pre d d' mid last :
  SpaceValidator.validateTle Date_parse tle = Pass ->
  is_digit d = true -> is_digit d' = true -> d <> d' ->
  (line1 tle = pre +:+ String d (mid +:+ String last "") ->
   SpaceValidator.validateTle Date_parse
     (mkTleData (pre +:+ String d' (mid +:+ String last ""))
                (line2 tle) (epoch tle)) <> Pass)
  /\ (line2 tle = pre +:+ String d (mid +:+ String last "") ->
      SpaceValidator.validateTle Date_parse
        (mkTleData (line1 tle)
                   (pre +:+ String d' (mid +:+ String last ""))
                   (epoch tle)) <> Pass).
Proof.
  intros Hpass Hd Hd' Hne.
  destruct (validateTle_pass tle Hpass) as [H1 H2].
  split; intros Hline Hpass'; apply validateTle_pass in Hpass' as [H1' H2'];
    simpl in H1', H2'.
  - rewrite Hline in H1. by apply (tle_line_ok_digit_change pre d d' mid last).
  - rewrite Hline in H2. by apply (tle_line_ok_digit_change pre d d' mid last).
Qed.

End TleProperties.

(** *** API keys and country codes *)

(** X28. [validateApiKey] accepts exactly the strings of 10 to 100
    characters among letters, digits, hyphen and underscore; the empty
    string is reported as missing, a wrong length before a wrong
    character. [validateCountry] accepts a missing country and otherwise
    exactly the strings of 2 to 10 letters. *)
Theorem apiKey_and_country_validators :
  (forall key,
     SatelliteValidator.validateApiKey key = Pass
     <-> (10 <= String.length key <= 100)%nat
         /\ Forall (fun c => SatelliteValidator.is_key_char c = true)
                   (list_ascii_of_string key))
  /\ SatelliteValidator.validateApiKey ""
     = reject "API key is required and must be a string"
  /\ (forall key, (1 <= String.length key < 10)%nat ->
       SatelliteValidator.validateApiKey key
       = reject "API key must be between 10 and 100 characters")
  /\ SatelliteValidator.validateCountry None = Pass
  /\ (forall code,
       SatelliteValidator.validateCountry (Some code) = Pass
       <-> (2 <= String.length code <= 10)%nat
           /\ Forall (fun c => is_letter c = true) (list_ascii_of_string code)).
Proof.
  split; [|split; [|split; [|split]]].
  - intros key. unfold SatelliteValidator.validateApiKey, reject.
    destruct (truthy key) eqn:Ht; simpl.
    + destruct (Nat.ltb_spec (String.length key) 10);
        destruct (Nat.ltb_spec 100 (String.length key)); simpl;
        try (split; [discriminate | lia]).
      destruct (test_class SatelliteValidator.is_key_char 1 None key) eqn:Hc;
        simpl.
      * apply test_class_true in Hc as (Hall & _). split; [|done].
        intros _. split; [lia|done].
      * split; [discriminate|]. intros [_ Hall].
        assert (test_class SatelliteValidator.is_key_char 1 None key = true)
          by (apply test_class_true; repeat split; [done|lia]).
        congruence.
    + split; [discriminate|]. intros [Hlen _].
      assert (truthy key = true) by (apply truthy_length; lia). congruence.
  - reflexivity.
  - intros key Hlen. unfold SatelliteValidator.validateApiKey.
    assert (truthy key = true) as -> by (apply truthy_length; lia). simpl.
    destruct (Nat.ltb_spec (String.length key) 10); [done|lia].
  - reflexivity.
  - intros code. unfold SatelliteValidator.validateCountry, reject.
    destruct (Nat.ltb_spec (String.length code) 2);
      destruct (Nat.ltb_spec 10 (String.length code)); simpl;
      try (split; [discriminate | lia]).
    destruct (test_class is_letter 1 None code) eqn:Hc; simpl.
    + apply test_class_true in Hc as (Hall & _). split; [|done].
      intros _. split; [lia|done].
    + split; [discriminate|]. intros [_ Hall].
      assert (test_class is_letter 1 None code = true)
        by (apply test_class_true; repeat split; [done|lia]).
      congruence.
Qed.

(** * The further properties on concrete inputs *)

Lemma storeCredentials_writes_record_witness :
  exists stored st',
    storeCredentials (kdf := toy_kdf) (calm_env 1000) alice initial_state
    = (Ok tt, st')
    /\ credentialsFile st' = Some (Json stored)
    /\ apiEndpoint stored = Some DEFAULT_API_ENDPOINT
    /\ verifyPassword (kdf := toy_kdf) "secretpw" (passwordHash stored)
                      (salt stored) = Ok true.
Proof.
  destruct (storeCredentials_writes_record (kdf := toy_kdf) (calm_env 1000)
              alice initial_state eq_refl eq_refl eq_refl)
    as (stored & st' & Hrun & Hfile & _ & _ & Hend & _ & _ & _ & _ & Hv & _).
  exists stored, st'. repeat split; assumption.
Defined.

Lemma store_then_authenticate_witness :
  exists st1 session st2,
    storeCredentials (kdf := toy_kdf) (calm_env 1000) alice initial_state
    = (Ok tt, st1)
    /\ authenticateUser (kdf := toy_kdf) (calm_env 1000) "alice" "secretpw" st1
       = (Ok session, st2)
    /\ permissions session = getPermissionsForClassification "unclassified".
Proof.
  destruct (store_then_authenticate (kdf := toy_kdf) (calm_env 1000) alice
              initial_state (fun _ => eq_refl) (fun _ => eq_refl))
    as (st1 & session & st2 & Hstore & Hauth & _ & _ & Hperm & _).
  exists st1, session, st2. repeat split; assumption.
Defined.

Lemma storeCredentials_failures_witness :
  (exists st',
     storeCredentials (kdf := toy_kdf) no_disk_env alice alice_state
     = (Throw (JsError
          "Failed to create credentials directory: EACCES: permission denied"),
        st')
     /\ credentialsFile st' = Some (Json stored_alice))
  /\ (exists st',
        storeCredentials (kdf := toy_kdf) write_fault_env alice alice_state
        = (Throw (JsError "Failed to store credentials: EACCES: permission denied"),
           st')
        /\ credentialsFile st' = Some (Json stored_alice))
  /\ (exists st',
        storeCredentials (kdf := toy_kdf) full_disk_env alice alice_state
        = (Throw (JsError
             "Failed to store credentials: ENOSPC: no space left on device"),
           st')
        /\ credentialsFile st' = Some (NotJson "Unexpected end of JSON input")
        /\ (loadCredentials full_disk_env st').1
           = Throw (JsError
               "Failed to load credentials: Unexpected end of JSON input")).
Proof.
  split; [|split].
  - destruct (proj1 (storeCredentials_failures (kdf := toy_kdf) no_disk_env
                       alice alice_state)
                "EACCES" "EACCES: permission denied" eq_refl)
      as (st' & Hrun & Hfile & _).
    exists st'. split; assumption.
  - destruct (proj2 (storeCredentials_failures (kdf := toy_kdf) write_fault_env
                       alice alice_state)
                "EACCES" "EACCES: permission denied" eq_refl eq_refl eq_refl)
      as (st' & Hrun & Hfile & _).
    exists st'. split; assumption.
  - destruct (proj2 (storeCredentials_failures (kdf := toy_kdf) full_disk_env
                       alice alice_state)
                "ENOSPC" "ENOSPC: no space left on device"
                eq_refl eq_refl eq_refl)
      as (st' & Hrun & Hfile & Hload).
    exists st'. split; [exact Hrun|]. split; [exact Hfile|].
    apply (Hload "Unexpected end of JSON input" eq_refl).
    injection Hrun as <-. reflexivity.
Defined.

Lemma loadCredentials_outcomes_witness :
  (loadCredentials (calm_env 1000) alice_state).1 = Ok (Some stored_alice)
  /\ (loadCredentials enoent_env alice_state).1 = Ok None
  /\ (loadCredentials no_disk_env alice_state).1
     = Throw (JsError "Failed to load credentials: EACCES: permission denied").
Proof.
  split; [|split].
  - exact (proj1 (proj2 (loadCredentials_outcomes (calm_env 1000) alice_state))
             eq_refl).
  - exact (proj1 (proj2 (proj2 (loadCredentials_outcomes enoent_env alice_state)))
             _ eq_refl).
  - apply (proj2 (proj2 (proj2 (loadCredentials_outcomes no_disk_env alice_state)))
             "EACCES" "EACCES: permission denied" eq_refl).
    discriminate.
Defined.

Lemma logout_clears_current_witness :
  exists st',
    logout None logged_in = (Ok tt, st')
    /\ currentSession st' = None
    /\ sessions st' !! sessionId alice_session = None.
Proof.
  destruct (logout_clears_current logged_in) as (st' & Hrun & Hcur & Hgone & _).
  exists st'. split; [exact Hrun|]. split; [exact Hcur|].
  apply (Hgone alice_session eq_refl). discriminate.
Defined.

Lemma logout_by_id_witness :
  exists st',
    logout (Some "no-such-session") logged_in = (Ok tt, st')
    /\ currentSession st' = Some alice_session.
Proof.
  destruct (logout_by_id "no-such-session" logged_in) as (st' & Hrun & _ & Hcur & _).
  { discriminate. }
  exists st'. split; [exact Hrun|]. exact Hcur.
Defined.

Lemma getApiHeaders_outcomes_witness :
  exists s token,
    currentSession logged_in = Some s
    /\ clock (calm_env 1000) (ticks logged_in) <= expiresAt s
    /\ accessToken s = Some token /\ token <> ""
    /\ (getApiHeaders (calm_env 1000) logged_in).1
       = Ok [("Authorization", "Bearer " +:+ token);
             ("X-Classification", toUpperCase (classification s));
             ("X-Session-ID", sessionId s);
             ("Content-Type", "application/json");
             ("User-Agent", "UDL-MCP-Server/1.0.0")].
Proof.
  pose proof (getApiHeaders_outcomes (calm_env 1000) logged_in) as H.
  destruct ((getApiHeaders (calm_env 1000) logged_in).1) as [headers|e] eqn:Hrun.
  - destruct H as (s & token & Hc & Hle & Htok & Hne & ->).
    exists s, token. repeat split; assumption.
  - vm_compute in Hrun. discriminate Hrun.
Defined.

Lemma getAuthenticationStatus_outcomes_witness :
  exists status st',
    getAuthenticationStatus (calm_env 1000) logged_in = (Ok status, st')
    /\ (isAuthenticated status = true -> sessions st' = sessions logged_in)
    /\ (isAuthenticated status = false -> currentSession st' = None).
Proof.
  destruct (getAuthenticationStatus_outcomes (calm_env 1000) logged_in)
    as (status & st' & Hrun & _ & Hyes & Hno).
  exists status, st'. split; [exact Hrun|]. split.
  - intros Ha. destruct (Hyes Ha) as (s & _ & _ & _ & Hs & _). exact Hs.
  - intros Ha. exact (proj2 (Hno Ha)).
Defined.

Lemma clear_then_authenticate_witness :
  exists st1,
    clearStoredCredentials (calm_env 1000) alice_state = (Ok tt, st1)
    /\ (authenticateUser (kdf := toy_kdf) (calm_env 1000) "alice" "secretpw" st1).1
       = Throw NoCredentialsConfigured.
Proof.
  destruct (clear_then_authenticate (kdf := toy_kdf) (calm_env 1000) alice_state
              eq_refl eq_refl) as (st1 & Hrun & _ & Hauth & _).
  exists st1. split; [exact Hrun|]. exact (proj1 (Hauth "alice" "secretpw")).
Defined.

Lemma keys_match_logged_in : keys_match logged_in.
Proof.
  intros k s H. unfold logged_in in H. cbn [sessions] in H.
  apply lookup_singleton_Some in H as [<- <-]. reflexivity.
Qed.

Lemma current_in_table_logged_in : current_in_table logged_in.
Proof. intros c [= <-]. vm_compute. reflexivity. Qed.

Lemma keys_match_preserved_witness :
  keys_match (refreshSession late_env (sessionId alice_session) logged_in).2
  /\ keys_match
       (authenticateUser (kdf := toy_kdf) (calm_env 1000) "alice" "secretpw"
          logged_in).2.
Proof.
  destruct (keys_match_preserved (kdf := toy_kdf) late_env logged_in
              keys_match_logged_in) as (_ & Hrefresh & _).
  destruct (keys_match_preserved (kdf := toy_kdf) (calm_env 1000) logged_in
              keys_match_logged_in) as (Hauth & _).
  split; [apply Hrefresh | apply Hauth].
Defined.

Lemma current_in_table_preserved_witness :
  current_in_table (logout (Some (sessionId alice_session)) logged_in).2
  /\ current_in_table
       (refreshSession (calm_env 1000) (sessionId alice_session) logged_in).2.
Proof.
  destruct (current_in_table_preserved (kdf := toy_kdf) (calm_env 1000) logged_in
              current_in_table_logged_in) as (_ & Hlogout & _ & Hrefresh & _).
  split; [apply Hlogout|]. apply Hrefresh.
  intros s Hs. unfold logged_in in Hs. cbn [sessions] in Hs.
  apply lookup_singleton_Some in Hs as [_ <-]. discriminate.
Defined.

Lemma refreshSession_touches_only_its_entry_witness :
  refreshSession (calm_env 1000) "no-such-session" logged_in
  = (Throw SessionNotFound, logged_in)
  /\ currentSession
       (refreshSession (calm_env 1000) "no-such-session" logged_in).2
     = Some alice_session.
Proof.
  destruct (refreshSession_touches_only_its_entry (calm_env 1000)
              "no-such-session" logged_in) as (_ & Hcur & _ & Hmissing).
  split; [apply Hmissing; reflexivity|]. apply Hcur. discriminate.
Defined.

Lemma issued_identifiers_well_formed_witness :
  Buffer.is_hex_of_length 32 (sessionId alice_session) = true
  /\ exists access, accessToken alice_session = Some access
                    /\ String.length access = 64%nat.
Proof.
  destruct (issued_identifiers_well_formed (kdf := toy_kdf) (calm_env 1000)
              "alice" "secretpw" alice_state alice_session logged_in)
    as (Hid & _ & access & refresh & Ha & _ & Hlen & _).
  { vm_compute. reflexivity. }
  split; [exact Hid|]. exists access. split; assumption.
Defined.

Lemma catalog_tiers_cumulative_witness :
  "objects:get" ∈ getPermissionsForClassification "cui"
  /\ "objects:get" ∈ getPermissionsForClassification "secret".
Proof.
  destruct (catalog_tiers_cumulative "cui" "objects:get") as (Hbase & _ & Htop).
  assert (Hin : "objects:get" ∈ getPermissionsForClassification "cui").
  { apply Hbase. apply list_elem_of_In. simpl. auto. }
  split; [exact Hin|]. exact (Htop Hin).
Defined.

Lemma catalog_permissions_exact_witness :
  (validatePermission (calm_env 1000) "spacefence:read" logged_in).1 = Ok false
  /\ (validatePermission (calm_env 1000) "objects:anything" logged_in).1 = Ok false.
Proof.
  split.
  - exact (catalog_permissions_exact (calm_env 1000) "unclassified"
             "spacefence:read" logged_in alice_session eq_refl
             ltac:(discriminate) eq_refl).
  - exact (catalog_permissions_exact (calm_env 1000) "unclassified"
             "objects:anything" logged_in alice_session eq_refl
             ltac:(discriminate) eq_refl).
Defined.

Lemma issued_session_lifetime_witness :
  expiresAt alice_session = 1000 + 8 * 60 * 60 * 1000
  /\ (getCurrentSession (calm_env 1000) logged_in).1 = Ok (Some alice_session)
  /\ (getCurrentSession late_env logged_in).1 <> Ok (Some alice_session).
Proof.
  destruct (issued_session_lifetime (kdf := toy_kdf) (calm_env 1000)
              "alice" "secretpw" alice_state alice_session logged_in)
    as (Hexp & Hiff & _).
  { vm_compute. reflexivity. }
  destruct (issued_session_lifetime (kdf := toy_kdf) late_env
              "alice" "secretpw" alice_state alice_session logged_in)
    as (_ & Hlate & _).
  { vm_compute. reflexivity. }
  split; [exact Hexp|]. split.
  - apply Hiff. discriminate.
  - intros Hget. apply Hlate in Hget. apply Hget. reflexivity.
Defined.

Lemma authenticateUser_keeps_sessions_witness :
  sessions (authenticateUser (kdf := toy_kdf) (calm_env 1000) "alice" "secretpw"
              logged_in).2 !! sessionId alice_session
  = Some alice_session.
Proof.
  destruct (authenticateUser_keeps_sessions (kdf := toy_kdf) (calm_env 1000)
              "alice" "secretpw" logged_in (sessionId alice_session)
              alice_session) as [Hkept | (session & Hc & Hid & _)].
  { vm_compute. reflexivity. }
  - exact Hkept.
  - vm_compute in Hc. injection Hc as <-. vm_compute in Hid. discriminate Hid.
Defined.

Lemma refresh_extends_current_witness :
  exists s' st',
    refreshSession (calm_env 1000) (sessionId alice_session) logged_in
    = (Ok s', st')
    /\ currentSession st' = Some s'
    /\ (getCurrentSession (calm_env 1000) st').1 = Ok (Some s').
Proof.
  destruct (refresh_extends_current (calm_env 1000) (sessionId alice_session)
              logged_in alice_session)
    as (s' & st' & Hrun & Hcur & _ & Hiff);
    [vm_compute; reflexivity | reflexivity | discriminate | reflexivity |].
  exists s', st'. split; [exact Hrun|]. split; [exact Hcur|].
  apply Hiff. discriminate.
Defined.

Lemma checkAuthentication_success_witness :
  exists sv',
    checkAuthentication (calm_env 1000) (Some "objects:get") logged_in_server
    = (Ok tt, sv')
    /\ apiHeaders sv' !! 2%nat
       = Some ("X-Session-ID", sessionId alice_session).
Proof.
  assert (Hrun : exists sv',
    checkAuthentication (calm_env 1000) (Some "objects:get") logged_in_server
    = (Ok tt, sv')) by (eexists; vm_compute; reflexivity).
  destruct Hrun as (sv' & Hrun). exists sv'. split; [exact Hrun|].
  destruct (checkAuthentication_success (calm_env 1000) (Some "objects:get")
              logged_in_server sv' Hrun)
    as (s & token & Hc & _ & _ & _ & _ & -> & _).
  injection Hc as <-. reflexivity.
Defined.

Lemma checkAuthentication_failure_witness :
  exists sv',
    checkAuthentication (calm_env 1000) (Some "objects:get") fresh_server
    = (Throw AuthenticationRequired, sv')
    /\ apiHeaders sv' = [].
Proof.
  assert (Hrun : exists sv',
    checkAuthentication (calm_env 1000) (Some "objects:get") fresh_server
    = (Throw AuthenticationRequired, sv')) by (eexists; vm_compute; reflexivity).
  destruct Hrun as (sv' & Hrun). exists sv'. split; [exact Hrun|].
  exact (proj1 (checkAuthentication_failure (calm_env 1000) (Some "objects:get")
                  fresh_server AuthenticationRequired sv' Hrun)).
Defined.

Lemma tools_by_classification_witness :
  (checkAuthentication (calm_env 1000) (Some "objects:search")
     logged_in_server).1 = Ok tt
  /\ (checkAuthentication (calm_env 1000) (Some "spacefence:read")
        logged_in_server).1 <> Ok tt.
Proof.
  destruct (tools_by_classification (calm_env 1000) "unclassified" logged_in []
              alice_session
              "EBESExQVFhcYGRobHB0eHyAhIiMkJSYnKCkqKywtLi8wMTIzNDU2Nzg5Ojs8PT4_"
              eq_refl eq_refl eq_refl)
    as (_ & Hsearch & _ & _ & Hfence);
    [discriminate..|].
  split; [exact Hsearch|]. intros Hok. apply Hfence in Hok. discriminate Hok.
Defined.


Lemma noradId_validators_witness :
  SpaceValidator.validateNoradId "25544" = Pass
  /\ SatelliteValidator.validateNoradId "25544" = Pass.
Proof.
  assert (Hsat : SatelliteValidator.validateNoradId "25544" = Pass).
  { apply (proj1 (proj2 (noradId_validators "25544"))).
    split; [simpl; lia|]. repeat constructor. }
  split; [|exact Hsat].
  exact (proj1 (proj2 (proj2 (noradId_validators "25544"))) Hsat).
Defined.

Lemma tle_checksum_properties_witness :
  SpaceValidator.calculateTleChecksum "1 25544U" <>
  SpaceValidator.calculateTleChecksum "1 25545U".
Proof.
  exact (proj2 (proj2 tle_checksum_properties) "1 2554" "U" "4"%char "5"%char
           eq_refl eq_refl ltac:(discriminate)).
Defined.

Lemma validateTle_detects_digit_error_witness :
  SpaceValidator.validateTle demo_date_parse demo_tle = Pass
  /\ SpaceValidator.validateTle demo_date_parse
       (mkTleData
          "1 25545U 98067A   24001.50000000  .00002182  00000-0  40201-4 0  9996"
          (line2 demo_tle) (epoch demo_tle)) <> Pass.
Proof.
  assert (Hpass : SpaceValidator.validateTle demo_date_parse demo_tle = Pass)
    by (vm_compute; reflexivity).
  split; [exact Hpass|].
  exact (proj1 (validateTle_detects_digit_error demo_date_parse demo_tle
                  "1 2554" "4"%char "5"%char
                  "U 98067A   24001.50000000  .00002182  00000-0  40201-4 0  999"
                  "6"%char Hpass eq_refl eq_refl ltac:(discriminate))
           eq_refl).
Defined.

Lemma apiKey_and_country_validators_witness :
  SatelliteValidator.validateApiKey "ABCDEF-12345_xyz" = Pass
  /\ SatelliteValidator.validateCountry (Some "US") = Pass.
Proof.
  destruct apiKey_and_country_validators as (Hkey & _ & _ & _ & Hcountry).
  split.
  - apply Hkey. split; [simpl; lia|]. repeat constructor.
  - apply Hcountry. split; [simpl; lia|]. repeat constructor.
Defined.
